(** * Colour conversion and gamut management of the Raycast colour converter

    A shallow embedding of [src/convert-color.tsx] (the "Convert Color"
    command) and of the input handler of [src/color-converter.tsx], with
    the properties stated for them.

    Conventions of the embedding.
    - A JavaScript number is a [num]: an exact rational or [NaN].  Binary
      rounding and the two infinities are outside the model; a division of
      a non-zero number by zero, which JavaScript evaluates to an infinity,
      is [NaN] here (the only divisor of the modelled code that can be zero
      is the one of the saturation in [formatHSL]).  The loop of
      [findClosestInGamut], which an infinite chroma keeps from ending, is
      also written on [xnum], the numbers with the two infinities.
    - An optional property is an [option]; [None] is [undefined]/[null].
    - The culori converters ([rgb], [p3], [oklch], [oklab], [xyz65]), the
      culori parser, [Math.pow] and [JSON.stringify] are not part of the
      repository: they are the fields of the record [Env], and every
      definition takes the environment as its first argument.
    - A computation that can throw or touch the module-level cache is a
      value of the monad [M]: it takes the cache and returns an [outcome]
      with the cache it leaves.  [console.log], [console.error] and
      [showToast] only report; they are not modelled. *)

From Stdlib Require Import ZArith QArith Qround Qabs Lqa Lia Bool List Ascii String.
From stdpp Require Import base option gmap strings countable pretty.

Import ListNotations.
Local Open Scope Z_scope.
Local Open Scope Q_scope.
Local Open Scope string_scope.

(* ===================================================================== *)
(** ** JavaScript numbers *)
(* ===================================================================== *)

Module JS.

Inductive num : Type :=
| Fin (q : Q)
| NaN.

(** [ToNumber] on an optional property: [undefined] becomes [NaN]. *)
Definition toNum (v : option num) : num :=
  match v with Some x => x | None => NaN end.

Definition lift1 (f : Q -> Q) (x : num) : num :=
  match x with Fin a => Fin (f a) | NaN => NaN end.

Definition lift2 (f : Q -> Q -> Q) (x y : num) : num :=
  match x, y with Fin a, Fin b => Fin (f a b) | _, _ => NaN end.

Definition num_add : num -> num -> num := lift2 Qplus.
Definition num_sub : num -> num -> num := lift2 Qminus.
Definition num_mul : num -> num -> num := lift2 Qmult.
Definition num_neg : num -> num := lift1 Qopp.

Definition num_div (x y : num) : num :=
  match x, y with
  | Fin a, Fin b => if Qeq_bool b 0 then NaN else Fin (a / b)
  | _, _ => NaN
  end.

Definition Qltb (a b : Q) : bool := negb (Qle_bool b a).

(** Comparisons: every comparison with [NaN] is false. *)
Definition cmp (f : Q -> Q -> bool) (x y : num) : bool :=
  match x, y with Fin a, Fin b => f a b | _, _ => false end.

Definition num_lt : num -> num -> bool := cmp Qltb.
Definition num_le : num -> num -> bool := cmp Qle_bool.
Definition num_gt (x y : num) : bool := num_lt y x.
Definition num_ge (x y : num) : bool := num_le y x.
(** [x === y] on numbers. *)
Definition num_eq : num -> num -> bool := cmp Qeq_bool.
(** [x !== y]. *)
Definition num_ne (x y : num) : bool := negb (num_eq x y).

Definition Math_abs : num -> num := lift1 Qabs.

(** [Math.max]/[Math.min]: [NaN] as soon as one argument is [NaN]. *)
Definition Math_max : num -> num -> num :=
  lift2 (fun a b => if Qle_bool a b then b else a).
Definition Math_min : num -> num -> num :=
  lift2 (fun a b => if Qle_bool a b then a else b).

(** [Math.round]: the nearest integer, a tie going up. *)
Definition Math_round : num -> num :=
  lift1 (fun a => inject_Z (Qfloor (a + (1 # 2)))).

(** [x % y]: the remainder has the sign of the dividend. *)
Definition num_rem (x y : num) : num :=
  match x, y with
  | Fin a, Fin b =>
      if Qeq_bool b 0 then NaN
      else Fin (a - b * inject_Z (Z.quot (Qnum (a / b)) (Zpos (Qden (a / b)))))
  | _, _ => NaN
  end.

(** *** Digits *)

Definition digit_char (d : N) : ascii :=
  match d with
  | 0%N => "0" | 1%N => "1" | 2%N => "2" | 3%N => "3" | 4%N => "4"
  | 5%N => "5" | 6%N => "6" | 7%N => "7" | 8%N => "8" | 9%N => "9"
  | 10%N => "a" | 11%N => "b" | 12%N => "c" | 13%N => "d" | 14%N => "e"
  | _ => "f"
  end%char.

Fixpoint digits_fuel (fuel : nat) (base n : N) (acc : string) : string :=
  match fuel with
  | O => acc
  | S fuel' =>
      let acc' := String (digit_char (n mod base)) acc in
      if (n <? base)%N then acc' else digits_fuel fuel' base (n / base)%N acc'
  end.

(** The digits of [n] in [base] (2 to 16), most significant first; ["0"]
    for zero. *)
Definition digits (base n : N) : string :=
  digits_fuel (S (N.size_nat n)) base n "".

Definition Z_to_string (base : N) (z : Z) : string :=
  (if (z <? 0)%Z then "-" else "") ++ digits base (Z.abs_N z).

Fixpoint repeat_char (c : ascii) (n : nat) : string :=
  match n with O => "" | S n' => String c (repeat_char c n') end.

(** [s.padStart(n, c)] and [s.padEnd(n, c)] for a one-character filler. *)
Definition padStart (n : nat) (c : ascii) (s : string) : string :=
  repeat_char c (n - String.length s) ++ s.
Definition padEnd (n : nat) (c : ascii) (s : string) : string :=
  s ++ repeat_char c (n - String.length s).

Definition upper_char (c : ascii) : ascii :=
  let n := nat_of_ascii c in
  if (97 <=? n)%nat && (n <=? 122)%nat then ascii_of_nat (n - 32) else c.

Fixpoint toUpperCase (s : string) : string :=
  match s with
  | EmptyString => EmptyString
  | String c s' => String (upper_char c) (toUpperCase s')
  end.

(** [x.toFixed(d)] for [0 <= d]: the sign of a negative [x], then the
    integer nearest to [|x| * 10^d] (a tie going up) written with the
    point before its last [d] digits.  (JavaScript switches to exponent
    notation from [1e21] on; the model keeps positional digits.) *)
Definition toFixed (d : nat) (x : num) : string :=
  match x with
  | NaN => "NaN"
  | Fin q =>
      let n := Z.to_N (Qfloor (Qabs q * inject_Z (10 ^ Z.of_nat d) + (1 # 2))) in
      let ds := padStart (S d) "0" (digits 10 n) in
      let k := (String.length ds - d)%nat in
      (if Qltb q 0 then "-" else "")
        ++ substring 0 k ds
        ++ (if d is O then "" else "." ++ substring k d ds)
  end.

(** [x.toString(16)], used on the integers [Math.round] returns. *)
Definition toString16 (x : num) : string :=
  match x with
  | NaN => "NaN"
  | Fin q => Z_to_string 16 (Qfloor q)
  end.

(** [String(x)] for a number with a terminating decimal expansion of at
    most 20 fractional digits (every number the modelled code interpolates
    into a string is an integer or a multiple of 0.1 or 0.01): the
    shortest such expansion.  Other rationals are cut at 20 digits. *)
Fixpoint decimals_needed (fuel : nat) (q : Q) : nat :=
  match fuel with
  | O => O
  | S fuel' =>
      if Qeq_bool (inject_Z (Qfloor q)) q then O
      else S (decimals_needed fuel' (q * 10))
  end.

Definition toString (x : num) : string :=
  match x with
  | NaN => "NaN"
  | Fin q => toFixed (decimals_needed 20 q) x
  end.

End JS.

Import JS.

Declare Scope num_scope.
Delimit Scope num_scope with num.
Bind Scope num_scope with num.
Infix "+" := JS.num_add : num_scope.
Infix "-" := JS.num_sub : num_scope.
Infix "*" := JS.num_mul : num_scope.
Infix "/" := JS.num_div : num_scope.
Infix "%%" := JS.num_rem (at level 40, left associativity) : num_scope.
Infix "<?" := JS.num_lt : num_scope.
Infix "<=?" := JS.num_le : num_scope.
Infix ">?" := JS.num_gt : num_scope.
Infix ">=?" := JS.num_ge : num_scope.
Infix "===" := JS.num_eq (at level 70, no associativity) : num_scope.
Infix "!==" := JS.num_ne (at level 70, no associativity) : num_scope.
Notation "- x" := (JS.num_neg x) : num_scope.

(** A numeric literal of the source. *)
Notation "# q" := (Fin q%Q) (at level 5, q at level 0, format "# q").

(* ===================================================================== *)
(** ** Exceptions *)
(* ===================================================================== *)

(** The result of an expression that can throw. *)
Inductive outcome (A : Type) : Type :=
| Ret (a : A)
| Throw (e : string).
Arguments Ret {A} a.
Arguments Throw {A} e.

(** Sequencing: [x <- m ;; k] evaluates [m], then [k] unless [m] threw. *)
Definition bind {A B} (m : outcome A) (k : A -> outcome B) : outcome B :=
  match m with Ret a => k a | Throw e => Throw e end.

Notation "x <- m ;; k" := (bind m (fun x => k))
  (at level 100, m at next level, right associativity).

(** [try { return m } catch (e) { return h e }] with a handler that
    cannot throw. *)
Definition try_value {A} (m : outcome A) (h : string -> A) : A :=
  match m with Ret a => a | Throw e => h e end.

(** The result under a function, an exception unchanged. *)
Definition outcome_map {A B} (f : A -> B) (m : outcome A) : outcome B :=
  match m with Ret a => Ret (f a) | Throw e => Throw e end.

(** Calling a method of a property that may be [undefined]. *)
Definition method_of (name : string) (v : option num) : outcome num :=
  match v with
  | Some x => Ret x
  | None => Throw ("TypeError: Cannot read properties of undefined (reading '"
                     ++ name ++ "')")
  end.

(* ===================================================================== *)
(** ** Data model *)
(* ===================================================================== *)

(** The [mode] tag of a culori colour. *)
Inductive Mode : Type :=
| Mrgb | Mhsl | Moklch | Moklab | Mp3 | Mxyz65 | Mlrgb
| Mother (name : string).

#[global] Instance Mode_eq_dec : EqDecision Mode.
Proof. solve_decision. Defined.

(** A culori colour: the tag, the three channels of its model and the
    optional alpha.  [channel_names] gives the property names of the
    channels; the modelled code reads no channel of the other modes. *)
Record Color : Type := mkColor {
  mode : Mode;
  ch1 : option num;
  ch2 : option num;
  ch3 : option num;
  alpha : option num
}.

Definition channel_names (m : Mode) : list string :=
  match m with
  | Mrgb | Mp3 | Mlrgb => ["r"; "g"; "b"]
  | Moklch => ["l"; "c"; "h"]
  | Moklab => ["l"; "a"; "b"]
  | Mhsl => ["h"; "s"; "l"]
  | Mxyz65 => ["x"; "y"; "z"]
  | Mother _ => []
  end.

(** [color.name]: [undefined] when the colour has no such property. *)
Definition prop (name : string) (color : Color) : option num :=
  match channel_names (mode color) with
  | [n1; n2; n3] =>
      if String.eqb name n1 then ch1 color
      else if String.eqb name n2 then ch2 color
      else if String.eqb name n3 then ch3 color
      else None
  | _ => None
  end.

Notation "c .[ n ]" := (prop n c) (at level 1, n at level 200, format "c .[ n ]").

(** [{ ...color, alpha: a }]. *)
Definition with_alpha (a : option num) (color : Color) : Color :=
  mkColor (mode color) (ch1 color) (ch2 color) (ch3 color) a.

(** [{ ...color, mode: m }]. *)
Definition with_mode (m : Mode) (color : Color) : Color :=
  mkColor m (ch1 color) (ch2 color) (ch3 color) (alpha color).

(** [{ mode: 'rgb', r: 0, g: 0, b: 0 }]. *)
Definition black : Color := mkColor Mrgb (Some #0) (Some #0) (Some #0) None.

Inductive Space : Type := Sout | Sp3 | Srec2020 | Ssrgb.

#[global] Instance Space_eq_dec : EqDecision Space.
Proof. solve_decision. Defined.

Inductive ColorFormat : Type :=
| Frgb | Fhex | Fhex_rgba | Fhsl | Fp3 | Foklch | Foklab | Fvec | Flrgb | FfigmaP3.

#[global] Instance ColorFormat_eq_dec : EqDecision ColorFormat.
Proof. solve_decision. Defined.

Definition format_name (f : ColorFormat) : string :=
  match f with
  | Frgb => "rgb" | Fhex => "hex" | Fhex_rgba => "hex/rgba" | Fhsl => "hsl"
  | Fp3 => "p3" | Foklch => "oklch" | Foklab => "oklab" | Fvec => "vec"
  | Flrgb => "lrgb" | FfigmaP3 => "figmaP3"
  end.

Record Warnings : Type := mkWarnings {
  unsupported : bool;
  fallback : bool;
  outOfGamut : bool
}.

Record ColorData : Type := mkColorData {
  format : ColorFormat;
  value : string;
  hexValue : string;
  gamut : Space;
  fallbackSpace : Space;
  warnings : Warnings
}.

Record ColorSpaceResult : Type := mkColorSpaceResult {
  originalSpace : Space;
  csr_fallbackSpace : Space;
  p3Values : option Color;
  rgbValues : option Color;
  inGamut : bool;
  needsFallback : bool
}.

Record ColorCache : Type := mkColorCache {
  cache_p3 : option Color;
  cache_rgb : option Color;
  cache_oklch : option Color
}.

Record VisibleValue : Type := mkVisibleValue {
  vv_color : Color;
  vv_fallback : string;
  vv_real : string;
  vv_space : Space;
  vv_fallbackSpace : Space
}.

(* ===================================================================== *)
(** ** The environment: culori and the JavaScript built-ins *)
(* ===================================================================== *)

(** A culori converter returns a colour or [undefined]; the code wraps
    the calls in [try]/[catch], so a converter may also throw. *)
Definition converter : Type := Color -> outcome (option Color).

Record Env : Type := mkEnv {
  rgb : converter;
  p3 : converter;
  oklch : converter;
  oklab : converter;
  xyz65 : converter;
  (** culori's [parse]. *)
  parse : string -> outcome (option Color);
  Math_pow : num -> num -> num;
  (** [JSON.stringify({ mode: color.mode, values: color })]. *)
  cacheKey : Color -> outcome string
}.

(* ===================================================================== *)
(** ** Computations on the cache *)
(* ===================================================================== *)

(** [colorSpaceCache], a [Map<string, ColorSpaceResult>]. *)
Abbreviation Cache := (gmap string ColorSpaceResult).

Definition M (A : Type) : Type := Cache -> outcome A * Cache.

Definition retM {A} (a : A) : M A := fun s => (Ret a, s).

(** [x <<- m ;; k]: sequencing of computations on the cache. *)
Definition bindM {A B} (m : M A) (k : A -> M B) : M B := fun s =>
  match m s with
  | (Ret a, s') => k a s'
  | (Throw e, s') => (Throw e, s')
  end.

Notation "x <<- m ;; k" := (bindM m (fun x => k))
  (at level 100, m at next level, right associativity).

Definition lift {A} (o : outcome A) : M A := fun s => (o, s).

(** [try { m } catch (e) { h e }]: the handler runs on the cache the body
    left. *)
Definition try_catchM {A} (m : M A) (h : string -> M A) : M A := fun s =>
  match m s with
  | (Ret a, s') => (Ret a, s')
  | (Throw e, s') => h e s'
  end.

Definition cache_get (k : string) : M (option ColorSpaceResult) :=
  fun s => (Ret (s !! k), s).
Definition cache_set (k : string) (v : ColorSpaceResult) : M unit :=
  fun s => (Ret tt, <[k := v]> s).

(** A culori converter applied to [undefined] returns [undefined]. *)
Definition conv_opt (f : converter) (x : option Color) : outcome (option Color) :=
  match x with
  | Some color => f color
  | None => Ret None
  end.

(* ===================================================================== *)
(** ** Gamut detection *)
(* ===================================================================== *)

Definition EPSILON : num := #0.000001. (* 1e-6 *)

(** The depth at which a runaway recursion ends in a [RangeError]. *)
Definition stack_depth : nat := 64.

Section Gamut.

Variable E : Env.

Definition is_white_oklch (color : Color) : bool :=
  bool_decide (mode color = Moklch)
  && (toNum color.["l"] === #1)%num
  && (toNum color.["c"] === #0)%num.

Definition getProxyColor (color : Color) : outcome (option Color) :=
  (* Handle edge case for pure white in OKLCH *)
  if is_white_oklch color then Ret (Some color)
  else
    (* Always convert through XYZ D65 *)
    xyzColor <- xyz65 E color ;;
    match xyzColor with
    | None => Ret None
    | Some xyzColor =>
        (* Convert to OKLCH for better gamut mapping *)
        oklchColor <- oklch E xyzColor ;;
        match oklchColor with
        | None => Ret None
        | Some oklchColor =>
            Ret (Some (with_alpha (alpha color) (with_mode Moklch oklchColor)))
        end
    end.

(** The test of one channel list against [[-epsilon, hi + epsilon]]; a
    missing channel counts as 0. *)
Definition channels_within (hi epsilon : num) (color : Color) : bool :=
  let r := default #0 color.["r"] in
  let g := default #0 color.["g"] in
  let b := default #0 color.["b"] in
  ((r >=? - epsilon) && (r <=? hi + epsilon) &&
   (g >=? - epsilon) && (g <=? hi + epsilon) &&
   (b >=? - epsilon) && (b <=? hi + epsilon))%num.

Fixpoint isInGamut_rec (depth : nat) (color : Color) (epsilon : num)
  : outcome bool :=
  if bool_decide (mode color = Mp3) then
    (* P3 values can go up to 1.6 according to docs *)
    Ret (channels_within #1.6 epsilon color)
  else if bool_decide (mode color = Mrgb) then
    (* sRGB must be strictly within 0-1 *)
    Ret (channels_within #1 epsilon color)
  else
    rgbColor <- rgb E color ;;
    match rgbColor with
    | None => Ret false
    | Some rgbColor =>
        match depth with
        | O => Throw "RangeError: Maximum call stack size exceeded"
        | S depth' => isInGamut_rec depth' rgbColor epsilon
        end
    end.

Definition isInGamut (color : Color) (epsilon : num) : outcome bool :=
  isInGamut_rec stack_depth color epsilon.

(** [rgbColor && isInGamut(rgbColor, epsilon)] as a condition. *)
Definition present_in_gamut (c : option Color) (epsilon : num) : outcome bool :=
  match c with
  | None => Ret false
  | Some c => isInGamut c epsilon
  end.

Definition checkColorSpace (color : Color) : outcome Space :=
  proxyColor <- getProxyColor color ;;
  match proxyColor with
  | None => Ret Sout
  | Some proxyColor =>
      (* Handle edge case for pure white in OKLCH *)
      if is_white_oklch color then Ret Ssrgb
      else
        (* Check sRGB first *)
        rgbColor <- rgb E proxyColor ;;
        inRGB <- present_in_gamut rgbColor EPSILON ;;
        if inRGB then
          (* the values logged: r.toFixed(4), g.toFixed(4), b.toFixed(4) *)
          _ <- method_of "toFixed" (rgbColor ≫= prop "r") ;;
          _ <- method_of "toFixed" (rgbColor ≫= prop "g") ;;
          _ <- method_of "toFixed" (rgbColor ≫= prop "b") ;;
          Ret Ssrgb
        else
          (* Check P3 if not in sRGB *)
          p3Color <- p3 E proxyColor ;;
          inP3 <- present_in_gamut p3Color EPSILON ;;
          if inP3 then
            _ <- method_of "toFixed" (p3Color ≫= prop "r") ;;
            _ <- method_of "toFixed" (p3Color ≫= prop "g") ;;
            _ <- method_of "toFixed" (p3Color ≫= prop "b") ;;
            Ret Sp3
          else Ret Sout
  end.

(** The report of the [catch] clause of [detectColorSpace]. *)
Definition detection_failed : ColorSpaceResult :=
  mkColorSpaceResult Ssrgb Ssrgb None None false true.

(** The body of the [try] of [detectColorSpace] after the cache lookup
    missed: the report, before it is stored. *)
Definition classify (color : Color) : outcome ColorSpaceResult :=
  proxyColor <- getProxyColor color ;;
  match proxyColor with
  | None => Ret (mkColorSpaceResult Sout Ssrgb None None false true)
  | Some proxyColor =>
      (* Check sRGB first *)
      rgbValues <- rgb E proxyColor ;;
      inRGB <- present_in_gamut rgbValues EPSILON ;;
      if inRGB then
        p3Values <- p3 E proxyColor ;;
        Ret (mkColorSpaceResult Ssrgb Ssrgb p3Values rgbValues true false)
      else
        (* Check P3 if not in sRGB *)
        p3Values <- p3 E proxyColor ;;
        inP3 <- present_in_gamut p3Values EPSILON ;;
        if inP3 then
          (* Always need fallback for P3 in Raycast *)
          Ret (mkColorSpaceResult Sp3 Ssrgb p3Values rgbValues true true)
        else
          Ret (mkColorSpaceResult Sout Ssrgb p3Values rgbValues false true)
  end.

(** Color space detection with caching. *)
Definition detectColorSpace (color : Color) : M ColorSpaceResult :=
  try_catchM
    (key <<- lift (cacheKey E color) ;;
     cached <<- cache_get key ;;
     match cached with
     | Some cached => retM cached
     | None =>
         result <<- lift (classify color) ;;
         _ <<- cache_set key result ;;
         retM result
     end)
    (fun _ => (* Provide fallback values if detection fails *)
       retM detection_failed).

(* --------------------------------------------------------------------- *)
(** *** Gamut mapping *)

(** An upper bound of the number of halvings that take [step] to
    [1e-6] or below. *)
Definition loop_fuel (step : num) : nat :=
  match step with
  | Fin q => Z.to_nat (Z.log2_up (Qceiling (q * 1000000)))
  | NaN => O
  end.

(** One iteration of the loop up to its test: the converted test colour
    and whether it is present and in gamut. *)
Definition probe (l : option num) (c : num) (h : option num)
  : outcome (option Color * bool) :=
  testColor <- oklch E (mkColor Moklch l (Some c) h None) ;;
  rgbTest <- conv_opt (rgb E) testColor ;;
  ok <- present_in_gamut rgbTest EPSILON ;;
  Ret (rgbTest, ok).

(** The [while] loop of [findClosestInGamut]; [None] when [fuel]
    iterations did not end it. *)
Fixpoint search (fuel : nat) (l : option num) (c : num) (h : option num)
  (step : num) : option (outcome Color) :=
  if (step >? #0.000001)%num then (* step > 1e-6 *)
    match fuel with
    | O => None
    | S fuel' =>
        match probe l c h with
        | Throw e => Some (Throw e)
        | Ret (Some rgbTest, true) => Some (Ret rgbTest) (* break *)
        | Ret _ => search fuel' l (c - step)%num h (step / #2)%num
        end
    end
  else Some (Ret black).

Definition findClosestInGamut (color : Color) : outcome Color :=
  (* Convert to OKLCH for better gamut mapping *)
  oklchColor <- oklch E color ;;
  match oklchColor with
  | None => Ret black
  | Some oklchColor =>
      let l := oklchColor.["l"] in
      let c := toNum oklchColor.["c"] in
      let h := oklchColor.["h"] in
      let step := (c / #2)%num in
      (* Binary search for closest in-gamut sRGB color *)
      match search (loop_fuel step) l c h step with
      | Some result => result
      | None => Ret black
      end
  end.

End Gamut.


(* --------------------------------------------------------------------- *)
(** *** The loop with the infinities of JavaScript

    A [num] is finite or [NaN], so that no [Color] of the model carries
    an infinite chroma.  The loop of [findClosestInGamut] is written here
    a second time, on numbers that have the two infinities, with the
    three operations it applies to [c] and [step]. *)

Inductive xnum : Type :=
| XNum (x : num)
| PosInf
| NegInf.

(** [x - y]: the difference of two infinities of the same sign is not a
    number, and neither is a difference with [NaN]. *)
Definition xnum_sub (x y : xnum) : xnum :=
  match x with
  | XNum a =>
      match y with
      | XNum b => XNum (a - b)%num
      | PosInf => match a with Fin _ => NegInf | NaN => XNum NaN end
      | NegInf => match a with Fin _ => PosInf | NaN => XNum NaN end
      end
  | PosInf =>
      match y with
      | XNum (Fin _) | NegInf => PosInf
      | XNum NaN | PosInf => XNum NaN
      end
  | NegInf =>
      match y with
      | XNum (Fin _) | PosInf => NegInf
      | XNum NaN | NegInf => XNum NaN
      end
  end.

(** [x / 2]. *)
Definition xnum_half (x : xnum) : xnum :=
  match x with
  | XNum a => XNum (a / #2)%num
  | PosInf => PosInf
  | NegInf => NegInf
  end.

(** [x > 1e-6]. *)
Definition xnum_above (x : xnum) : bool :=
  match x with
  | XNum a => (a >? #0.000001)%num
  | PosInf => true
  | NegInf => false
  end.

(** The [while] loop of [findClosestInGamut] on these numbers.  [xprobe]
    is the first part of its body: the conversions of the test colour of
    chroma [c] and the gamut test. *)
Fixpoint xsearch (xprobe : xnum -> outcome (option Color * bool))
  (fuel : nat) (c step : xnum) : option (outcome Color) :=
  if xnum_above step then (* step > 1e-6 *)
    match fuel with
    | O => None
    | S fuel' =>
        match xprobe c with
        | Throw e => Some (Throw e)
        | Ret (Some rgbTest, true) => Some (Ret rgbTest) (* break *)
        | Ret _ => xsearch xprobe fuel' (xnum_sub c step) (xnum_half step)
        end
    end
  else Some (Ret black).

(** The body of the loop in the environment [E]: [probe] on a chroma of
    the model, and [inf] for what the conversions and the gamut test give
    on an infinite chroma. *)
Definition xprobe (E : Env) (l h : option num)
  (inf : outcome (option Color * bool)) (c : xnum)
  : outcome (option Color * bool) :=
  match c with
  | XNum x => probe E l x h
  | PosInf | NegInf => inf
  end.

(* ===================================================================== *)
(** ** Formatting *)
(* ===================================================================== *)

(** The local [toHex] of [formatHex], [formatHexRGBA] and [formatFigmaP3]. *)
Definition toHex (n : num) : string :=
  toUpperCase (* Always uppercase per rules *)
    (padStart 2 "0"
       (toString16 (Math_round (Math_max #0 (Math_min #1 n) * #255)%num))).

Definition srgbFormats : list ColorFormat := [Frgb; Fhex; Fhex_rgba; Fhsl].

(** Helper function to check if format is sRGB. *)
Definition isSRGBFormat (format : ColorFormat) : bool :=
  bool_decide (format ∈ srgbFormats).

Section Format.

Variable E : Env.

(** The text both branches of [formatRGB] build from the converted
    colour. *)
Definition rgb_text (rgbColor : Color) : string :=
  let values :=
    map (fun v =>
           (* First clamp to valid range *)
           let clamped := Math_max #0 (Math_min #1 (toNum v)) in
           (* Then multiply by 255 and round *)
           Math_round (clamped * #255)%num)
        [rgbColor.["r"]; rgbColor.["g"]; rgbColor.["b"]] in
  let joined := String.concat ", " (map JS.toString values) in
  match alpha rgbColor with
  | Some a =>
      if (a <? #1)%num then "rgb(" ++ joined ++ " / " ++ toFixed 3 a ++ ")"
      else "rgb(" ++ joined ++ ")"
  | None => "rgb(" ++ joined ++ ")"
  end.

(** RGB formatting according to rules. *)
Definition formatRGB (color : Color) : outcome string :=
  if bool_decide (mode color = Moklch) then
    (* Proper conversion chain: oklch -> xyz65 -> rgb *)
    xyzColor <- xyz65 E color ;;
    match xyzColor with
    | Some xyzColor =>
        rgbColor <- rgb E xyzColor ;;
        match rgbColor with
        | Some rgbColor => Ret (rgb_text rgbColor)
        | None => Ret "Invalid RGB"
        end
    | None => Ret "Invalid RGB" (* Return invalid if conversion fails *)
    end
  else
    (* Non-OKLCH handling *)
    rgbColor <- rgb E color ;;
    match rgbColor with
    | None => Ret "Invalid RGB"
    | Some rgbColor => Ret (rgb_text rgbColor)
    end.

(** HEX formatting according to rules. *)
Definition formatHex (color : Color) : outcome string :=
  rgbColor <- rgb E color ;;
  match rgbColor with
  | None => Ret "#000000"
  | Some rgbColor =>
      Ret ("#" ++ toHex (toNum rgbColor.["r"])
               ++ toHex (toNum rgbColor.["g"])
               ++ toHex (toNum rgbColor.["b"]))
  end.

(** RGBA HEX formatting according to rules. *)
Definition formatHexRGBA (color : Color) : outcome string :=
  rgbColor <- rgb E color ;;
  match rgbColor with
  | None => Ret "#00000000"
  | Some rgbColor =>
      let a := default #1 (alpha rgbColor) in
      Ret ("#" ++ toHex (toNum rgbColor.["r"])
               ++ toHex (toNum rgbColor.["g"])
               ++ toHex (toNum rgbColor.["b"])
               ++ toHex a)
  end.

(** P3 formatting according to rules. *)
Definition formatP3 (color : Color) : outcome string :=
  p3Color <- p3 E color ;;
  match p3Color with
  | None => Ret "Invalid P3"
  | Some p3Color =>
      let formatValue (v : option num) : outcome string :=
        v <- method_of "toFixed" v ;; Ret (padEnd 6 "0" (toFixed 4 v)) in
      r <- formatValue p3Color.["r"] ;;
      g <- formatValue p3Color.["g"] ;;
      b <- formatValue p3Color.["b"] ;;
      Ret ("color(display-p3 " ++ r ++ " " ++ g ++ " " ++ b ++ ")")
  end.

(** OKLCH formatting according to rules. *)
Definition formatOKLCH (color : Color) : outcome string :=
  oklchColor <-
    (if bool_decide (mode color = Moklch) then Ret (Some color)
     else oklch E color) ;;
  match oklchColor with
  | None => Ret "Invalid OKLCH"
  | Some oklchColor =>
      let l := default #0 oklchColor.["l"] in
      let c := default #0 oklchColor.["c"] in
      let h := default #0 oklchColor.["h"] in
      let lightness := padEnd 5 "0" (toFixed 2 (l * #100)%num) in
      let chroma := padEnd 6 "0" (toFixed 4 c) in
      let hue := toFixed 2 h in
      Ret ("oklch(" ++ lightness ++ "% " ++ chroma ++ " " ++ hue ++ ")")
  end.

(** OKLAB formatting according to rules. *)
Definition formatOKLAB (color : Color) : outcome string :=
  oklabColor <- oklab E color ;;
  match oklabColor with
  | None => Ret "Invalid OKLAB"
  | Some oklabColor =>
      let lightness := toFixed 2 (toNum oklabColor.["l"] * #100)%num in
      a <- method_of "toFixed" oklabColor.["a"] ;;
      let aValue := toFixed 2 a in
      b <- method_of "toFixed" oklabColor.["b"] ;;
      let bValue := toFixed 1 b in (* Use one decimal for b value *)
      Ret ("oklab(" ++ lightness ++ "% " ++ aValue ++ " " ++ bValue ++ ")")
  end.

(** The local [toLinear] of [formatLinearRGB]. *)
Definition toLinear_abs (v : num) : num :=
  if (Math_abs v <? #0.04045)%num then (v / #12.92)%num
  else Math_pow E ((v + #0.055) / #1.055)%num #2.4.

(** VEC formatting according to rules. *)
Definition formatLinearRGB (color : Color) : outcome string :=
  rgbColor <- rgb E color ;;
  match rgbColor with
  | None => Ret "Invalid Linear RGB"
  | Some rgbColor =>
      (* For this specific green, return reference values *)
      let g := toNum rgbColor.["g"] in
      if (g >? #0.9)%num then (* This is our bright green case *)
        Ret "vec(-0.10584, 0.96562, -0.07085, 1)"
      else
        (* For other colors, use standard conversion *)
        let r := toNum rgbColor.["r"] in
        let b := toNum rgbColor.["b"] in
        let a := default #1 (alpha rgbColor) in
        let formatValue (v : num) := padEnd 7 "0" (toFixed 5 v) in
        Ret ("vec(" ++ formatValue (toLinear_abs r) ++ ", "
                    ++ formatValue (toLinear_abs g) ++ ", "
                    ++ formatValue (toLinear_abs b) ++ ", "
                    ++ formatValue a ++ ")")
  end.

(** The test of the first branch of [formatFigmaP3]. *)
Definition is_reference_orange (color : Color) : bool :=
  bool_decide (mode color = Mp3)
  && (Math_abs (toNum color.["r"] - #1) <? #0.001)%num
  && (Math_abs (toNum color.["g"] - #0.502) <? #0.001)%num
  && (toNum color.["b"] <? #0.001)%num.

(** The text [formatFigmaP3] builds from the converted colour. *)
Definition figmaP3_text (p3Color : Color) : string :=
  let a := default #1 (alpha p3Color) in
  let clampedR := Math_max #0 (Math_min #1.6 (toNum p3Color.["r"])) in
  let clampedG := Math_max #0 (Math_min #1.6 (toNum p3Color.["g"])) in
  let clampedB := Math_max #0 (Math_min #1.6 (toNum p3Color.["b"])) in
  "#" ++ toHex clampedR ++ toHex clampedG ++ toHex clampedB ++ toHex a.

(** Figma P3 formatting according to rules. *)
Definition formatFigmaP3 (color : Color) : outcome string :=
  (* If input was Figma P3, preserve original values *)
  if is_reference_orange color then
    Ret "#FF8000FF" (* Return original Figma P3 value *)
  else
    (* For other colors, convert through P3 *)
    p3Color <- p3 E color ;;
    match p3Color with
    | None => Ret "#000000FF"
    | Some p3Color => Ret (figmaP3_text p3Color)
    end.

Definition formatHSL (color : Color) : outcome string :=
  rgbColor <- rgb E color ;;
  match rgbColor with
  | None => Ret "Invalid HSL"
  | Some rgbColor =>
      let r := toNum rgbColor.["r"] in
      let g := toNum rgbColor.["g"] in
      let b := toNum rgbColor.["b"] in
      let max := Math_max (Math_max r g) b in
      let min := Math_min (Math_min r g) b in
      let delta := (max - min)%num in
      (* Calculate actual HSL values *)
      let l := ((max + min) / #2)%num in
      let '(h, s) :=
        if (delta !== #0)%num then
          let s := (delta / (#1 - Math_abs (#2 * l - #1)))%num in
          let h :=
            if (max === r)%num then (((g - b) / delta) %% #6)%num
            else if (max === g)%num then ((b - r) / delta + #2)%num
            else ((r - g) / delta + #4)%num in
          (* Convert to degrees with 2 decimal places *)
          let h := (Math_round (h * #60 * #100) / #100)%num in
          let h := if (h <? #0)%num then (h + #360)%num else h in
          (h, s)
        else (#0, #0) in
      (* Format with proper precision *)
      let sPercent := (Math_round (s * #1000) / #10)%num in
      let lPercent := (Math_round (l * #1000) / #10)%num in
      Ret ("hsl(" ++ JS.toString h ++ " " ++ JS.toString sPercent ++ "% "
                  ++ JS.toString lPercent ++ "%)")
  end.

(** Format color based on space. *)
Definition formatForSpace (color : Color) (format : ColorFormat) : outcome string :=
  match format with
  | Frgb => formatRGB color
  | Fhex => formatHex color
  | Fhex_rgba => formatHexRGBA color
  | Fhsl => formatHSL color
  | Fp3 => formatP3 color
  | Foklch => formatOKLCH color
  | Foklab => formatOKLAB color
  | Fvec | Flrgb => formatLinearRGB color
  | FfigmaP3 => formatFigmaP3 color
  end.

End Format.

(* ===================================================================== *)
(** ** Fallback resolution *)
(* ===================================================================== *)

Section Resolve.

Variable E : Env.

(** 1. Input Color -> Intermediate Space (OKLCH). *)
Definition toIntermediate (color : Color) : outcome Color :=
  (* Always use OKLCH as intermediate space *)
  if bool_decide (mode color = Moklch) then Ret color
  else
    (* Convert through XYZ D65 for accuracy *)
    xyzColor <- xyz65 E color ;;
    match xyzColor with
    | None => Ret color
    | Some xyzColor =>
        oklchColor <- oklch E xyzColor ;;
        Ret (default color oklchColor)
    end.

Definition toRgb (color : Color) : outcome Color :=
  (* Always convert through OKLCH for accuracy *)
  oklchColor <- oklch E color ;;
  match oklchColor with
  | None => Ret black
  | Some oklchColor =>
      rgbColor <- rgb E oklchColor ;;
      match rgbColor with
      | None => Ret black
      | Some rgbColor =>
          (* Proper rounding for RGB values *)
          let q (v : option num) : option num :=
            Some (Math_round (Math_max #0 (Math_min #1 (toNum v)) * #255)
                  / #255)%num in
          Ret (mkColor Mrgb (q rgbColor.["r"]) (q rgbColor.["g"])
                 (q rgbColor.["b"]) (alpha rgbColor))
      end
  end.

(** The local [toLinearValue] of [toLinear]. *)
Definition toLinearValue (v : num) : num :=
  if (v <=? #0.03928)%num then (v / #12.92)%num
  else Math_pow E ((v + #0.055) / #1.055)%num #2.4.

Definition toLinear (color : Color) : outcome Color :=
  rgbColor <- rgb E color ;;
  match rgbColor with
  | None => Ret black
  | Some rgbColor =>
      Ret (mkColor Mrgb
             (Some (toLinearValue (toNum rgbColor.["r"])))
             (Some (toLinearValue (toNum rgbColor.["g"])))
             (Some (toLinearValue (toNum rgbColor.["b"])))
             (alpha rgbColor))
  end.

(** [detectColorSpaceAndFallback].  Between the detection and the result
    the source only logs (when the key is not in the cache); the logged
    values are built without a call that can throw. *)
Definition detectColorSpaceAndFallback (color : Color) : M VisibleValue :=
  _ <<- lift (cacheKey E color) ;;
  spaceResult <<- detectColorSpace E color ;;
  (* Handle results based on color space *)
  if bool_decide (originalSpace spaceResult = Ssrgb) then
    let c := default color (rgbValues spaceResult) in
    fallback <<- lift (formatRGB E c) ;;
    real <<- lift (formatRGB E c) ;;
    retM (mkVisibleValue c fallback real Ssrgb Ssrgb)
  else
    fallback <<- lift (formatRGB E (default color (rgbValues spaceResult))) ;;
    real <<- lift (formatP3 E (default color (p3Values spaceResult))) ;;
    retM (mkVisibleValue (default color (p3Values spaceResult)) fallback real
            (originalSpace spaceResult) (csr_fallbackSpace spaceResult)).

(** The [switch] over the four sRGB formats in [getFallback]; [None] when
    no [case] matches and control falls out of the [switch]. *)
Definition switch_srgb (rgbColor : Color) (format : ColorFormat)
  : option (outcome string) :=
  match format with
  | Frgb => Some (formatRGB E rgbColor)
  | Fhex => Some (formatHex E rgbColor)
  | Fhex_rgba => Some (formatHexRGBA E rgbColor)
  | Fhsl => Some (formatHSL E rgbColor)
  | _ => None
  end.

(** The statements of the [try] of [getFallback] after the first one. *)
Definition getFallback_choose (color : Color) (format : ColorFormat)
  (cache : ColorCache) (result : VisibleValue) : outcome string :=
  (* Use cached values if available to prevent recalculation errors *)
  match (if isSRGBFormat format
         then rgbColor ← cache_rgb cache; switch_srgb rgbColor format
         else None) with
  | Some text => text
  | None =>
  (* For sRGB formats, use RGB fallback *)
  sw <- (if isSRGBFormat format
         then rgbColor <- toRgb color ;; Ret (switch_srgb rgbColor format)
         else Ret None) ;;
  match sw with
  | Some text => text
  | None =>
  (* For Figma P3, handle specially *)
  if bool_decide (format = FfigmaP3) then
    (* If already in P3 format, just format it *)
    if bool_decide (mode color = Mp3) then formatFigmaP3 E color
    else
      (* Convert only if needed *)
      match cache_p3 cache with
      | Some c => formatFigmaP3 E c
      | None =>
          converted <- p3 E color ;;
          formatFigmaP3 E (default color converted)
      end
  (* For wide gamut formats, preserve original values *)
  else if bool_decide (format ∈ [Foklch; Foklab; Fp3]) then
    formatForSpace E color format
  (* For linear formats, use original color *)
  else if bool_decide (format ∈ [Fvec; Flrgb]) then
    linearColor <- toLinear color ;;
    formatLinearRGB E linearColor
  else Ret (vv_fallback result)
  end end.

(** Keep only the latest version of getFallback. *)
Definition getFallback (color : Color) (format : ColorFormat)
  (cache : ColorCache) : M string :=
  try_catchM
    (result <<- detectColorSpaceAndFallback color ;;
     lift (getFallback_choose color format cache result))
    (fun _ =>
       (* Return safe default values based on format *)
       retM (if bool_decide (format = Fhex) then "#000000" else "rgb(0, 0, 0)")).

(** The record of the [catch] clause of [formatColor]. *)
Definition invalid_color (format : ColorFormat) : ColorData :=
  mkColorData format "Invalid Color" "#000000" Sout Ssrgb
    (mkWarnings false true true).

(** The body of the [try] of [formatColor]. *)
Definition formatColor_try (color : Color) (format : ColorFormat) : M ColorData :=
  spaceResult <<- detectColorSpace E color ;;
  (* Force sRGB space for RGB-based formats *)
  let actualSpace :=
    if isSRGBFormat format then Ssrgb else originalSpace spaceResult in
  let actualFallback :=
    if isSRGBFormat format then Ssrgb else csr_fallbackSpace spaceResult in
  (* Use cached values for preview *)
  previewRGB <<- lift (match rgbValues spaceResult with
                       | Some c => Ret c
                       | None => findClosestInGamut E color
                       end) ;;
  hexValue <<- lift (formatHexRGBA E previewRGB) ;;
  oklchColor <<- lift (oklch E color) ;;
  value <<- getFallback color format
              (mkColorCache (p3Values spaceResult) (rgbValues spaceResult)
                 oklchColor) ;;
  retM (mkColorData format value hexValue
          actualSpace (* Use corrected space *)
          actualFallback
          (mkWarnings false
             (bool_decide (originalSpace spaceResult = Sout)
              && isSRGBFormat format)
             (bool_decide (originalSpace spaceResult = Sout)
              && bool_decide (format ∈ [Fp3; Fvec; Flrgb])))).

(** Update formatColor to use cached results. *)
Definition formatColor (color : Color) (format : ColorFormat) : M ColorData :=
  try_catchM (formatColor_try color format)
    (fun _ => retM (invalid_color format)).

Definition getWarnings (color : Color) (format : ColorFormat) : M Warnings :=
  spaceResult <<- detectColorSpace E color ;;
  (* Only show P3 fallback for actual P3 formats *)
  let needsP3Fallback := bool_decide (format ∈ [Fp3; Fvec; Flrgb]) in
  retM (mkWarnings false
          (bool_decide (originalSpace spaceResult = Sout) && isSRGBFormat format)
          (bool_decide (originalSpace spaceResult = Sout) && needsP3Fallback)).

End Resolve.

(* ===================================================================== *)
(** ** The command: parsing the search text and converting *)
(* ===================================================================== *)

(** [/[0-9A-F]/i] on one character. *)
Definition is_hex_digit (c : ascii) : bool :=
  let n := nat_of_ascii c in
  ((48 <=? n) && (n <=? 57) || (65 <=? n) && (n <=? 70)
   || (97 <=? n) && (n <=? 102))%nat.

Fixpoint all_chars (p : ascii -> bool) (s : string) : bool :=
  match s with
  | EmptyString => true
  | String c s' => p c && all_chars p s'
  end.

(** [/^#[0-9A-F]{8}$/i.test(input)]. *)
Definition is_hash_hex8 (input : string) : bool :=
  match input with
  | String "#" digits8 =>
      (String.length digits8 =? 8)%nat && all_chars is_hex_digit digits8
  | _ => false
  end.

(** Add helper to detect if input is a P3 hex value. *)
Definition isP3HexFormat (input : string) : bool := is_hash_hex8 input.

(** White space of [String.prototype.trim] among the ASCII characters.
    The texts of the model are ASCII: the no-break space and the other
    Unicode spaces that [trim] removes too are not characters of it. *)
Definition is_space (c : ascii) : bool :=
  let n := nat_of_ascii c in
  ((9 <=? n) && (n <=? 13) || (n =? 32))%nat.

Fixpoint trimStart (s : string) : string :=
  match s with
  | String c s' => if is_space c then trimStart s' else s
  | EmptyString => EmptyString
  end.

Fixpoint trimEnd (s : string) : string :=
  match s with
  | EmptyString => EmptyString
  | String c s' =>
      match trimEnd s' with
      | EmptyString => if is_space c then EmptyString else String c EmptyString
      | t => String c t
      end
  end.

Definition trim (s : string) : string := trimEnd (trimStart s).

(** [s.startsWith(p)]. *)
Definition startsWith (p s : string) : bool := String.prefix p s.

(** [s.replace(/^(Figma P3) /, '')]. *)
Definition strip_figma_prefix (s : string) : string :=
  if startsWith "Figma P3 " s
  then substring 9 (String.length s - 9) s
  else s.

Definition hex_digit_value (c : ascii) : Z :=
  let n := Z.of_nat (nat_of_ascii c) in
  (if (n <=? 57) then n - 48 else if (n <=? 70) then n - 55 else n - 87)%Z.

(** [parseInt(s, 16)] on a string of hexadecimal digits. *)
Fixpoint parseInt16_acc (acc : Z) (s : string) : Z :=
  match s with
  | EmptyString => acc
  | String c s' => parseInt16_acc (16 * acc + hex_digit_value c)%Z s'
  end.
Definition parseInt16 (s : string) : num := Fin (inject_Z (parseInt16_acc 0 s)).

(** [s.slice(i, j)] for [0 <= i <= j]. *)
Definition slice (i j : nat) (s : string) : string := substring i (j - i) s.

Definition black_p3 : Color :=
  mkColor Mp3 (Some #0) (Some #0) (Some #0) (Some #1).

Definition processFigmaP3 (figmaP3Color : string) : Color :=
  let body : outcome Color :=
    if negb (startsWith "Figma P3" figmaP3Color) then
      Throw "Invalid Figma P3 format"
    else
      let cleanValue := trim (strip_figma_prefix figmaP3Color) in
      if negb (is_hash_hex8 cleanValue) then Ret black_p3
      else
        (* Parse components; create P3 color *)
        Ret (mkColor Mp3
               (Some (parseInt16 (slice 1 3 cleanValue) / #255)%num)
               (Some (parseInt16 (slice 3 5 cleanValue) / #255)%num)
               (Some (parseInt16 (slice 5 7 cleanValue) / #255)%num)
               (Some (parseInt16 (slice 7 9 cleanValue) / #255)%num)) in
  try_value body (fun _ => black_p3).

Section Command.

Variable E : Env.

Fixpoint mapM {A B} (f : A -> M B) (l : list A) : M (list B) :=
  match l with
  | [] => retM []
  | a :: l' => b <<- f a ;; bs <<- mapM f l' ;; retM (b :: bs)
  end.

Definition formats : list ColorFormat :=
  [FfigmaP3; Foklch; Fp3; Foklab; Fvec; Fhex; Frgb; Fhsl].

(** The effect of [Command] for a search text: the list it passes to
    [setColors]. *)
Definition convertAll (searchText : string) : M (list ColorData) :=
  if String.eqb searchText "" then retM []
  else
    try_catchM
      (color <<- (if startsWith "Figma P3" searchText then
                    retM (Some (processFigmaP3 searchText))
                  else if isP3HexFormat searchText then
                    retM (Some (processFigmaP3 ("Figma P3 " ++ searchText)))
                  else lift (parse E searchText)) ;;
       match color with
       | None => retM []
       | Some color => mapM (fun format => formatColor E color format) formats
       end)
      (fun _ => retM []).

End Command.

(* ===================================================================== *)
(** ** The first screen, [color-converter.tsx] *)
(* ===================================================================== *)

Module ColorConverter.

(** What this screen takes from culori besides the converters of [Env]. *)
Record Text : Type := mkText {
  hsl : converter;
  formatRgb : Color -> outcome string;
  (** culori's [formatHex] on a colour. *)
  culori_formatHex : Color -> outcome string
}.

Inductive ColorFormat : Type :=
| rgb_ | hex_ | hsl_ | p3_ | oklch_ | oklab_ | vec_ | figma_.

Definition format_name (f : ColorFormat) : string :=
  match f with
  | rgb_ => "rgb" | hex_ => "hex" | hsl_ => "hsl" | p3_ => "p3"
  | oklch_ => "oklch" | oklab_ => "oklab" | vec_ => "vec" | figma_ => "figma"
  end.

(** [ColorData]; [format] holds the name because the placeholder of a
    rejected input carries a text that is no format. *)
Record ColorData : Type := mkColorData {
  format : string;
  value : string;
  hexValue : string
}.

(** [Number(value.toFixed(decimals))], and 0 for [undefined]. *)
Definition round (value : option num) (decimals : nat) : num :=
  match value with
  | None => #0
  | Some NaN => NaN
  | Some (Fin q) =>
      let n := Qfloor (Qabs q * inject_Z (10 ^ Z.of_nat decimals) + 0.5) in
      let m := Fin (inject_Z n / inject_Z (10 ^ Z.of_nat decimals)) in
      if Qltb q 0 then (- m)%num else m
  end.

Section Screen.

Variable E : Env.
Variable T : Text.

(** Destructuring the result of a converter: a [TypeError] on
    [undefined]. *)
Definition destructure (c : option Color) : outcome Color :=
  match c with
  | Some c => Ret c
  | None => Throw "TypeError: Cannot destructure 'undefined'"
  end.

(** [alpha !== undefined && alpha < 1 ? ` / ${round(alpha, 3)}` : '']. *)
Definition alpha_suffix (c : Color) : string :=
  match alpha c with
  | Some a =>
      if (a <? #1)%num then " / " ++ JS.toString (round (Some a) 3) else ""
  | None => ""
  end.

(** [v * 100] on an optional property. *)
Definition times100 (v : option num) : option num := Some (toNum v * #100)%num.

Definition formatColor (color : option Color) (format : ColorFormat)
  : outcome string :=
  match color with
  | None => Ret "Invalid color"
  | Some color =>
      match format with
      | rgb_ => formatRgb T color
      | hex_ => s <- culori_formatHex T color ;; Ret (toUpperCase s)
      | hsl_ =>
          hslColor <- hsl T color ;;
          c <- destructure hslColor ;;
          Ret ("hsl(" ++ JS.toString (round c.["h"] 2) ++ " "
                 ++ JS.toString (round (times100 c.["s"]) 1) ++ "% "
                 ++ JS.toString (round (times100 c.["l"]) 1) ++ "%"
                 ++ alpha_suffix c ++ ")")
      | oklch_ =>
          converted <- oklch E color ;;
          c <- destructure converted ;;
          Ret ("oklch(" ++ JS.toString (round (times100 c.["l"]) 2) ++ "% "
                 ++ JS.toString (round c.["c"] 3) ++ " "
                 ++ JS.toString (round c.["h"] 2)
                 ++ alpha_suffix c ++ ")")
      | oklab_ =>
          converted <- oklab E color ;;
          c <- destructure converted ;;
          Ret ("oklab(" ++ JS.toString (round (times100 c.["l"]) 2) ++ "% "
                 ++ JS.toString (round c.["a"] 2) ++ " "
                 ++ JS.toString (round c.["b"] 2)
                 ++ alpha_suffix c ++ ")")
      | p3_ =>
          converted <- p3 E color ;;
          c <- destructure converted ;;
          Ret ("color(display-p3 " ++ JS.toString (round c.["r"] 4) ++ " "
                 ++ JS.toString (round c.["g"] 4) ++ " "
                 ++ JS.toString (round c.["b"] 4)
                 ++ alpha_suffix c ++ ")")
      | vec_ =>
          converted <- rgb E color ;;
          c <- destructure converted ;;
          let toLinear (x : option num) : option num :=
            let x := toNum x in
            Some (if (x >? #0.04045)%num
                  then Math_pow E ((x + #0.055) / #1.055)%num #2.4
                  else (x / #12.92)%num) in
          Ret ("Linear RGB vec(" ++ JS.toString (round (toLinear c.["r"]) 5)
                 ++ ", " ++ JS.toString (round (toLinear c.["g"]) 5)
                 ++ ", " ++ JS.toString (round (toLinear c.["b"]) 5) ++ ")")
      | figma_ =>
          p3Color <- p3 E color ;;
          match p3Color with
          | Some p3Color =>
              s <- culori_formatHex T p3Color ;; Ret (toUpperCase s ++ "FF")
          | None =>
              Throw "TypeError: Cannot read properties of undefined (reading 'toUpperCase')"
          end
      end
  end.

Fixpoint mapO {A B} (f : A -> outcome B) (l : list A) : outcome (list B) :=
  match l with
  | [] => Ret []
  | a :: l' => b <- f a ;; bs <- mapO f l' ;; Ret (b :: bs)
  end.

Definition formats : list ColorFormat :=
  [rgb_; hex_; hsl_; p3_; oklch_; oklab_; vec_; figma_].

(** The list [handleColorConversion] passes to [setConvertedColors]. *)
Definition handleColorConversion (input : string) : outcome (list ColorData) :=
  parsedColor <- parse E input ;;
  match parsedColor with
  | Some parsedColor =>
      hex <- culori_formatHex T parsedColor ;;
      let hexColor := toUpperCase hex in
      mapO (fun format =>
              v <- formatColor (Some parsedColor) format ;;
              Ret (mkColorData (format_name format) v hexColor))
           formats
  | None => Ret [mkColorData "Invalid color input" "" "#808080"]
  end.

(** [onSearchTextChange]. *)
Definition onSearchTextChange (text : string) : outcome (list ColorData) :=
  if String.eqb text "" then Ret [] else handleColorConversion text.

End Screen.

End ColorConverter.

(* ===================================================================== *)
(** ** Environments for running the model *)
(* ===================================================================== *)

Module Fixture.

(** A converter as culori's on a colour already in the target mode, which
    it returns unchanged; a colour of another mode keeps its channel
    values under the new tag (the numeric transforms of culori are not
    part of the model). *)
Definition retag (m : Mode) : converter := fun color =>
  Ret (Some (if bool_decide (mode color = m) then color else with_mode m color)).

(** culori's [parse] on [#rrggbb]; every other text is rejected. *)
Definition parse_hex6 (text : string) : outcome (option Color) :=
  match text with
  | String "#" ds =>
      if (String.length ds =? 6)%nat && all_chars is_hex_digit ds then
        Ret (Some (mkColor Mrgb
                     (Some (parseInt16 (slice 0 2 ds) / #255)%num)
                     (Some (parseInt16 (slice 2 4 ds) / #255)%num)
                     (Some (parseInt16 (slice 4 6 ds) / #255)%num)
                     None))
      else Ret None
  | _ => Ret None
  end.

Definition show_num (v : option num) : string :=
  match v with
  | None => "undefined"
  | Some NaN => "null"
  | Some (Fin q) => Z_to_string 10 (Qnum q) ++ "/" ++ digits 10 (Npos (Qden q))
  end.

Definition mode_name (m : Mode) : string :=
  match m with
  | Mrgb => "rgb" | Mhsl => "hsl" | Moklch => "oklch" | Moklab => "oklab"
  | Mp3 => "p3" | Mxyz65 => "xyz65" | Mlrgb => "lrgb" | Mother n => n
  end.

(** A cache key in the manner of [JSON.stringify]. *)
Definition key_of (color : Color) : outcome string :=
  Ret (mode_name (mode color) ++ "," ++ show_num (ch1 color) ++ ","
         ++ show_num (ch2 color) ++ "," ++ show_num (ch3 color) ++ ","
         ++ show_num (alpha color)).

(** [Math.pow] is left undetermined: no example evaluates it. *)
Definition no_pow : num -> num -> num := fun _ _ => NaN.

Definition env : Env :=
  mkEnv (retag Mrgb) (retag Mp3) (retag Moklch) (retag Moklab) (retag Mxyz65)
        parse_hex6 no_pow key_of.

(** An environment whose conversion to XYZ D65 throws. *)
Definition throwing_env : Env :=
  mkEnv (retag Mrgb) (retag Mp3) (retag Moklch) (retag Moklab)
        (fun _ => Throw "TypeError: converters[color.mode] is undefined")
        parse_hex6 no_pow key_of.

Definition text : ColorConverter.Text :=
  ColorConverter.mkText (retag Mhsl) (fun _ => Ret "rgb(0, 0, 0)")
    (fun _ => Ret "#000000").

End Fixture.

(* ===================================================================== *)
(** ** Vocabulary of the statements *)
(* ===================================================================== *)

(** A channel lies in [[lo, hi]]; a missing channel reads as 0, as in
    [isInGamut]. *)
Definition in_interval (lo hi : Q) (v : option num) : Prop :=
  match default #0 v with
  | Fin q => lo <= q <= hi
  | NaN => False
  end.

(** Every channel of [color] lies in [[-1e-6, hi + 1e-6]]. *)
Definition channels_in (hi : Q) (color : Color) : Prop :=
  in_interval (- 0.000001) (hi + 0.000001) color.["r"]
  /\ in_interval (- 0.000001) (hi + 0.000001) color.["g"]
  /\ in_interval (- 0.000001) (hi + 0.000001) color.["b"].

(** The projection [v] exists and has every channel in range. *)
Definition projected_within (hi : Q) (v : option Color) : Prop :=
  exists c, v = Some c /\ channels_in hi c.

(** Every entry of the cache under the key of a colour is the report
    [classify] computes for that colour. *)
Definition cache_consistent (E : Env) (cache : Cache) : Prop :=
  forall color key report,
    cacheKey E color = Ret key ->
    cache !! key = Some report ->
    classify E color = Ret report.

(** The caches the module can hold: the empty one at start, then the
    ones detection leaves. *)
Inductive reachable (E : Env) : Cache -> Prop :=
| reachable_empty : reachable E ∅
| reachable_detect cache color report cache' :
    reachable E cache ->
    detectColorSpace E color cache = (Ret report, cache') ->
    reachable E cache'.

(** The cache keys tell the colours apart. *)
Definition keys_injective (E : Env) : Prop :=
  forall c1 c2 k, cacheKey E c1 = Ret k -> cacheKey E c2 = Ret k -> c1 = c2.

(** A converter that never throws. *)
Definition returns (f : converter) : Prop :=
  forall c, exists v, f c = Ret v.

(** A converter whose results carry the mode [m]. *)
Definition respects (m : Mode) (f : converter) : Prop :=
  forall c c', f c = Ret (Some c') -> mode c' = m.

(** A converter that carries alpha through: the channels it returns do
    not depend on the alpha of its argument. *)
Definition carries_alpha (f : converter) : Prop :=
  forall a c, f (with_alpha a c) = outcome_map (option_map (with_alpha a)) (f c).






(** The character that introduces the alpha component, as in
    [rgb(255, 126, 0 / 0.500)]. *)
Definition not_slash (c : ascii) : bool := negb (Ascii.eqb c "/").

Definition no_alpha_part (s : string) : bool := all_chars not_slash s.

(** A digit of upper-case hexadecimal. *)
Definition is_upper_hex (c : ascii) : bool :=
  let n := nat_of_ascii c in
  ((48 <=? n) && (n <=? 57) || (65 <=? n) && (n <=? 70))%nat.

(** The text of a byte: the chain [toString(16).padStart(2, "0").toUpperCase()]. *)
Definition hex_byte (z : Z) : string :=
  toUpperCase (padStart 2 "0" (Z_to_string 16 z)).

Definition hex_byte_ok (n : nat) : bool :=
  (String.length (hex_byte (Z.of_nat n)) =? 2)%nat
  && all_chars is_upper_hex (hex_byte (Z.of_nat n)).

(* ===================================================================== *)
(** ** Inputs of the examples *)
(* ===================================================================== *)

(** The P3-only colour of the witness: [oklch] channels that the fixture
    converters carry over to RGB and P3. *)
Definition wide_color : Color :=
  mkColor Moklch (Some #1.2) (Some #0.5) (Some #0.3) None.

Definition grey10 : Color :=
  mkColor Mrgb (Some (#10 / #255)%num) (Some (#10 / #255)%num)
    (Some (#10 / #255)%num) None.

Definition white_oklch : Color :=
  mkColor Moklch (Some #1) (Some #0) (Some #0) None.

(** An OKLCH colour whose chroma is in range after two halvings. *)
Definition vivid_color : Color :=
  mkColor Moklch (Some #0.5) (Some #3) (Some #0.5) None.

(** The RGB colour the fixture converters give [vivid_color] at the
    third chroma tested. *)
Definition vivid_mapped : Color :=
  mkColor Mrgb (Some #0.5)
    (Some (#3 - #3 / #2 - #3 / #2 / #2)%num) (Some #0.5) None.


(** A P3 colour without a red channel, as [color(display-p3 none 0.5 0.5)]. *)
Definition p3_without_red : Color :=
  mkColor Mp3 None (Some #0.5) (Some #0.5) None.

(** An environment in which every conversion throws. *)
Definition broken_env : Env :=
  let fail : converter := fun _ => Throw "TypeError: conversion failed" in
  mkEnv fail fail fail fail fail Fixture.parse_hex6 Fixture.no_pow
    Fixture.key_of.

(** An OKLCH colour that the fixture converters place outside sRGB and
    P3. *)
Definition far_color : Color :=
  mkColor Moklch (Some #5) (Some #5) (Some #5) None.

Definition far_color_p3 : ColorData :=
  mkColorData Fp3 "color(display-p3 5.0000 5.0000 5.0000)" "#FFFFFFFF"
    Sout Ssrgb (mkWarnings false false true).

(** The colour of the text [Figma P3 #FF800080]. *)
Definition orange_half : Color := processFigmaP3 "Figma P3 #FF800080".

(** The orange of the reference scenario at half opacity. *)
Definition half_orange : Color :=
  mkColor Moklch (Some #0.7432) (Some #0.2194) (Some #51.36) (Some #0.5).

(** [rgb(255, 126, 0)], the sRGB orange of the reference tables. *)
Definition orange_rgb (a : option num) : Color :=
  mkColor Mrgb (Some (#255 / #255)%num) (Some (#126 / #255)%num)
    (Some (#0 / #255)%num) a.

(* ===================================================================== *)
(** ** Further definitions *)
(* ===================================================================== *)

(** A property of the cache that a computation keeps. *)
Definition keeps {A} (P : Cache -> Prop) (m : M A) : Prop :=
  forall cache, P cache -> P (snd (m cache)).

(** The cache is left as it is or gains one entry. *)
Definition at_most_one_entry (cache cache' : Cache) : Prop :=
  cache' = cache
  \/ exists key report, cache !! key = None /\ cache' = <[key := report]> cache.

(** *** An environment with exact cache keys *)

Definition num_code (x : num) : option (Z * positive) :=
  match x with
  | Fin q => Some (Qnum q, Qden q)
  | NaN => None
  end.

Definition mode_code (m : Mode) : nat + string :=
  match m with
  | Mrgb => inl 0%nat | Mhsl => inl 1%nat | Moklch => inl 2%nat
  | Moklab => inl 3%nat | Mp3 => inl 4%nat | Mxyz65 => inl 5%nat
  | Mlrgb => inl 6%nat
  | Mother name => inr name
  end.

Definition color_code (color : Color)
  : (nat + string) * (option (option (Z * positive))
                      * option (option (Z * positive))
                      * option (option (Z * positive))
                      * option (option (Z * positive))) :=
  (mode_code (mode color),
   (option_map num_code (ch1 color), option_map num_code (ch2 color),
    option_map num_code (ch3 color), option_map num_code (alpha color))).

(** A serialisation of the colour that, unlike [Fixture.key_of], tells
    every two colours apart (a mode named ["rgb"] from the mode [rgb],
    too). *)
Definition exact_key (color : Color) : outcome string :=
  Ret (pretty (encode (color_code color))).

Definition exact_env : Env :=
  mkEnv (Fixture.retag Mrgb) (Fixture.retag Mp3) (Fixture.retag Moklch)
        (Fixture.retag Moklab) (Fixture.retag Mxyz65)
        Fixture.parse_hex6 Fixture.no_pow exact_key.

(** *** The accessories of a list item *)

(** The text of a [Space] value. *)
Definition space_name (s : Space) : string :=
  match s with
  | Sout => "out" | Sp3 => "p3" | Srec2020 => "rec2020" | Ssrgb => "srgb"
  end.

(** An accessory of a [List.Item]: its text, whether it carries
    [Icon.ExclamationMark], and its tooltip. *)
Record Accessory : Type := mkAccessory {
  acc_text : string;
  acc_icon : bool;
  acc_tooltip : option string
}.

(** The [accessories] of the item [Command] renders for a record. *)
Definition accessories (color : ColorData) : list Accessory :=
  mkAccessory
    (if fallback (warnings color) then
       "fallback in " ++ space_name (fallbackSpace color)
     else if bool_decide (gamut color = Sout) then "out of p3"
     else space_name (gamut color))
    false None
  :: (if outOfGamut (warnings color) then
        [mkAccessory "Using P3 fallback" true
           (Some "Color is outside P3 gamut, using closest P3 value")]
      else if fallback (warnings color) then
        [mkAccessory "Using fallback" true
           (Some ("Original color converted to "
                    ++ space_name (fallbackSpace color)))]
      else []).

(** The shape of a report [classify] returns. *)
Definition report_shape (report : ColorSpaceResult) : Prop :=
  csr_fallbackSpace report = Ssrgb
  /\ originalSpace report <> Srec2020
  /\ (inGamut report = true <-> originalSpace report <> Sout)
  /\ (needsFallback report = false <-> originalSpace report = Ssrgb)
  /\ (originalSpace report = Ssrgb -> is_Some (rgbValues report))
  /\ (originalSpace report = Sp3 -> is_Some (p3Values report)).

(** *** Checks by enumeration *)

(** A hexadecimal digit is no white space and has a value below 16. *)
Definition hex_digit_ok (c : ascii) : bool :=
  if is_hex_digit c then
    negb (is_space c) && (0 <=? hex_digit_value c)%Z
    && (hex_digit_value c <=? 15)%Z
  else true.

(** The byte two hexadecimal digits denote is written with the same two
    digits in upper case. *)
Definition hex_pair_ok (c1 c2 : ascii) : bool :=
  if is_hex_digit c1 && is_hex_digit c2 then
    String.eqb (hex_byte (parseInt16_acc 0 (String c1 (String c2 ""))))
      (String (upper_char c1) (String (upper_char c2) ""))
  else true.

(** The steps [Math.round(Math.max(0, Math.min(hi, n)) * 255)] of [toHex]
    (with [hi = 1]) and of the clamp of [formatFigmaP3] before it, on the
    byte [k] divided by 255: the result is [k]. *)
Definition requantise_ok (k : nat) : bool :=
  let x := (Fin (inject_Z (Z.of_nat k)) / #255)%num in
  match Math_round (Math_max #0 (Math_min #1 x) * #255)%num,
        Math_round (Math_max #0 (Math_min #1
                      (Math_max #0 (Math_min #1.6 x))) * #255)%num with
  | Fin q, Fin q' =>
      (Qnum q =? Z.of_nat k)%Z && (Qden q =? 1)%positive
      && (Qnum q' =? Z.of_nat k)%Z && (Qden q' =? 1)%positive
  | _, _ => false
  end.

(** The tests of [is_reference_orange] on the bytes 255, 128 and 0
    divided by 255, against the texts of these bytes. *)
Definition orange_ok (k : nat) : bool :=
  let x := Some (Fin (inject_Z (Z.of_nat k)) / #255)%num in
  Bool.eqb (Math_abs (toNum x - #1) <? #0.001)%num
    (String.eqb (hex_byte (Z.of_nat k)) "FF")
  && Bool.eqb (Math_abs (toNum x - #0.502) <? #0.001)%num
       (String.eqb (hex_byte (Z.of_nat k)) "80")
  && Bool.eqb (toNum x <? #0.001)%num
       (String.eqb (hex_byte (Z.of_nat k)) "00").

(** A channel of a colour read from hexadecimal digits: a byte divided
    by 255. *)
Definition byte_fraction (v : option num) : Prop :=
  exists (k : Z) (q : Q),
    (0 <= k <= 255)%Z /\ v = Some #q /\ q == inject_Z k / 255.

(** The clamp [Math.max(0, Math.min(1, q))] on a rational. *)
Definition clamp01 (q : Q) : Q :=
  if Qle_bool 0 (if Qle_bool 1 q then 1 else q)
  then (if Qle_bool 1 q then 1 else q) else 0.

(** The byte [toHex] writes for [q]. *)
Definition byte_of (q : Q) : Z := Qfloor (clamp01 q * 255 + Qmake 1 2).

(** The quantisation of a channel in [toRgb]. *)
Definition quantise (v : option num) : option num :=
  Some (Math_round (Math_max #0 (Math_min #1 (toNum v)) * #255) / #255)%num.

(** An OKLCH colour inside the fixture's sRGB range. *)
Definition mild_color : Color :=
  mkColor Moklch (Some #0.5) (Some #0.5) (Some #0.5) (Some #0.25).


(* ===================================================================== *)
(** ** The first screen: the state and the list items *)
(* ===================================================================== *)

Module ColorConverterView.

Import ColorConverter.

(** The format [handleColorConversion] passes to [setInputFormat] after a
    successful conversion. *)
Definition detectInputFormat (input : string) : ColorFormat :=
  if startsWith "#" input then hex_
  else if startsWith "rgb" input then rgb_
  else if startsWith "hsl" input then hsl_
  else if startsWith "oklch" input then oklch_
  else if startsWith "oklab" input then oklab_
  else if startsWith "color(display-p3" input then p3_
  else if startsWith "vec" input then vec_
  else rgb_.

(** [handleColorConversion] with both pieces of state it sets: the list
    of [setConvertedColors] and the format of [setInputFormat], which a
    rejected input leaves as it was. *)
Definition handleColorConversion_state (E : Env) (T : Text) (input : string)
  (inputFormat : ColorFormat) : outcome (list ColorData * ColorFormat) :=
  parsedColor <- parse E input ;;
  match parsedColor with
  | Some parsedColor =>
      hex <- culori_formatHex T parsedColor ;;
      let hexColor := toUpperCase hex in
      formattedColors <-
        mapO (fun format =>
                v <- formatColor E T (Some parsedColor) format ;;
                Ret (mkColorData (format_name format) v hexColor))
             formats ;;
      Ret (formattedColors, detectInputFormat input)
  | None =>
      Ret ([mkColorData "Invalid color input" "" "#808080"], inputFormat)
  end.

(** The [title] of a list item. *)
Definition item_title (format : string) : string :=
  if String.eqb format "rgb" then "RGB"
  else if String.eqb format "hex" then "HEX"
  else if String.eqb format "hsl" then "HSL"
  else if String.eqb format "p3" then "CSS P3"
  else if String.eqb format "oklch" then "OKLCH"
  else if String.eqb format "oklab" then "OKLAB"
  else if String.eqb format "vec" then "VEC"
  else if String.eqb format "figma" then "FIGMA"
  else format.

(** [format === inputFormat]: the item carries [Icon.CheckCircle] and the
    tooltip [Input format]. *)
Definition is_input_format (inputFormat : ColorFormat) (d : ColorData) : bool :=
  String.eqb (format d) (format_name inputFormat).

End ColorConverterView.

(** An environment whose conversion to P3 returns nothing. *)
Definition no_p3_env : Env :=
  mkEnv (Fixture.retag Mrgb) (fun _ => Ret None) (Fixture.retag Moklch)
        (Fixture.retag Moklab) (Fixture.retag Mxyz65)
        Fixture.parse_hex6 Fixture.no_pow Fixture.key_of.

(** The hue in degrees and the saturation and lightness in percent that
    [formatHSL] prints for a converted colour. *)
Definition hsl_values (rgbColor : Color) : num * num * num :=
  let r := toNum rgbColor.["r"] in
  let g := toNum rgbColor.["g"] in
  let b := toNum rgbColor.["b"] in
  let max := Math_max (Math_max r g) b in
  let min := Math_min (Math_min r g) b in
  let delta := (max - min)%num in
  let l := ((max + min) / #2)%num in
  let '(h, s) :=
    if (delta !== #0)%num then
      let s := (delta / (#1 - Math_abs (#2 * l - #1)))%num in
      let h :=
        if (max === r)%num then (((g - b) / delta) %% #6)%num
        else if (max === g)%num then ((b - r) / delta + #2)%num
        else ((r - g) / delta + #4)%num in
      let h := (Math_round (h * #60 * #100) / #100)%num in
      let h := if (h <? #0)%num then (h + #360)%num else h in
      (h, s)
    else (#0, #0) in
  (h, (Math_round (s * #1000) / #10)%num, (Math_round (l * #1000) / #10)%num).

(** [Math.max] and [Math.min] on rationals. *)
Definition qmax (a b : Q) : Q := if Qle_bool a b then b else a.
Definition qmin (a b : Q) : Q := if Qle_bool a b then a else b.

(** An environment whose conversion to RGB returns its argument as it
    is, without the tag [rgb]. *)
Definition untagged_rgb_env : Env :=
  mkEnv (fun color => Ret (Some color)) (Fixture.retag Mp3)
        (Fixture.retag Moklch) (Fixture.retag Moklab) (Fixture.retag Mxyz65)
        Fixture.parse_hex6 Fixture.no_pow Fixture.key_of.

(** The verdict of a report: its space and its two flags. *)
Definition verdict (report : ColorSpaceResult) : Space * bool * bool :=
  (originalSpace report, inGamut report, needsFallback report).

(** The statements of [formatColor] that compute the swatch of a record
    from the report, up to the call of [getFallback]. *)
Definition preview_swatch (E : Env) (color : Color) (report : ColorSpaceResult)
  : outcome string :=
  previewRGB <- match rgbValues report with
                | Some c => Ret c
                | None => findClosestInGamut E color
                end ;;
  hexValue <- formatHexRGBA E previewRGB ;;
  _ <- oklch E color ;;
  Ret hexValue.

(** The rows of the search for [#0a0a0a] on the empty cache. *)
Definition grey_rows : list ColorData :=
  try_value (fst (convertAll Fixture.env "#0a0a0a" ∅)) (fun _ => []).

(** The digits [toFixed] splits, for the scaled and rounded magnitude
    [n] and [d] decimals. *)
Definition fixed_digits (d : nat) (n : N) : string :=
  padStart (S d) "0" (digits 10 n).

(** The numbers below [1e21] in magnitude, which [x.toFixed(d)] writes
    with positional digits.  From [1e21] on JavaScript answers with the
    exponent notation of [String(x)], which [toFixed] of the model does
    not follow. *)
Definition positional (q : Q) : Prop := Qabs q < 1000000000000000000000.

(** With two decimals, a magnitude below 1000 (a number below 9.995) has
    three digits, and one from 1000 to 10000 has four or more. *)
Definition lightness_digits_ok (n : nat) : bool :=
  if (n <? 1000)%nat
  then (String.length (fixed_digits 2 (N.of_nat n)) =? 3)%nat
  else (4 <=? String.length (fixed_digits 2 (N.of_nat n)))%nat.

(** A dark OKLCH colour: lightness 5.3%. *)
Definition dark_oklch : Color :=
  mkColor Moklch (Some #0.053) (Some #0.1) (Some #20) None.

(* ===================================================================== *)
(** * Properties *)
(* ===================================================================== *)

(** ** Reference values *)

(** The texts of the reference tables of the source, on the model. *)
Example reference_rgb :
  formatRGB Fixture.env (orange_rgb None) = Ret "rgb(255, 126, 0)"
  /\ formatRGB Fixture.env (orange_rgb (Some #0.5))
     = Ret "rgb(255, 126, 0 / 0.500)".
Proof. split; vm_compute; reflexivity. Qed.

Example reference_hex :
  formatHex Fixture.env (orange_rgb None) = Ret "#FF7E00"
  /\ formatHexRGBA Fixture.env (orange_rgb None) = Ret "#FF7E00FF"
  /\ formatHexRGBA Fixture.env (orange_rgb (Some #0.5)) = Ret "#FF7E0080".
Proof. repeat split; vm_compute; reflexivity. Qed.

Example reference_hsl :
  formatHSL Fixture.env (orange_rgb None) = Ret "hsl(29.65 100% 50%)"
  /\ formatHSL Fixture.env (mkColor Mrgb (Some #0) (Some #0) (Some #1) None)
     = Ret "hsl(240 100% 50%)"
  /\ formatHSL Fixture.env (mkColor Mrgb (Some #1) (Some #0) (Some #0.5) None)
     = Ret "hsl(330 100% 50%)".
Proof. repeat split; vm_compute; reflexivity. Qed.

Example reference_wide :
  formatP3 Fixture.env (mkColor Mp3 (Some #1) (Some #0.502) (Some #0) None)
  = Ret "color(display-p3 1.0000 0.5020 0.0000)"
  /\ formatOKLCH Fixture.env
       (mkColor Moklch (Some #0.7432) (Some #0.2194) (Some #51.36) None)
     = Ret "oklch(74.32% 0.2194 51.36)"
  /\ formatOKLAB Fixture.env
       (mkColor Moklab (Some #0.7432) (Some #0.14) (Some #0.17) None)
     = Ret "oklab(74.32% 0.14 0.2)".
Proof. repeat split; vm_compute; reflexivity. Qed.

Example reference_toFixed :
  toFixed 5 #1.17638 = "1.17638" /\ toFixed 5 #(-0.03661) = "-0.03661"
  /\ toFixed 2 #(-0.001) = "-0.00" /\ toFixed 0 #2.5 = "3"
  /\ toFixed 3 NaN = "NaN" /\ padEnd 6 "0" (toFixed 4 NaN) = "NaN000".
Proof. repeat split; vm_compute; reflexivity. Qed.

(** ** Texts *)

Lemma all_chars_app (p : ascii -> bool) (s t : string) :
  all_chars p (s ++ t) = all_chars p s && all_chars p t.
Proof.
  induction s as [|c s IH]; [reflexivity|].
  change (String c s ++ t) with (String c (s ++ t)).
  cbn [all_chars]. rewrite IH. apply andb_assoc.
Qed.

Lemma all_chars_substring (p : ascii -> bool) (s : string) :
  all_chars p s = true ->
  forall n m, all_chars p (substring n m s) = true.
Proof.
  induction s as [|c s IH]; intros H n m.
  - destruct n, m; reflexivity.
  - cbn [all_chars] in H. apply andb_true_iff in H as [Hc Hs].
    destruct n as [|n]; destruct m as [|m]; cbn [substring all_chars];
      try reflexivity; try (now apply IH).
    rewrite Hc. now apply IH.
Qed.

Lemma all_chars_repeat (p : ascii -> bool) (c : ascii) (n : nat) :
  p c = true -> all_chars p (repeat_char c n) = true.
Proof. intros H. induction n; cbn [repeat_char all_chars]; [|rewrite H]; auto. Qed.

Lemma length_append (s t : string) :
  String.length (s ++ t) = (String.length s + String.length t)%nat.
Proof.
  induction s as [|c s IH]; [reflexivity|].
  change (String c s ++ t) with (String c (s ++ t)).
  cbn [String.length]. now rewrite IH.
Qed.

(** ** Channel ranges *)

Lemma in_interval_spec (hi : Q) (v : option num) :
  ((default #0 v >=? - EPSILON) && (default #0 v <=? #hi + EPSILON))%num = true
  <-> in_interval (- 0.000001) (hi + 0.000001) v.
Proof.
  unfold in_interval, EPSILON. destruct (default #0 v) as [q|].
  - cbn [JS.num_neg JS.num_ge JS.num_le JS.num_add lift1 lift2 cmp].
    rewrite andb_true_iff, !Qle_bool_iff. reflexivity.
  - split; [discriminate | tauto].
Qed.

Lemma channels_within_spec (hi : Q) (color : Color) :
  channels_within #hi EPSILON color = true <-> channels_in hi color.
Proof.
  unfold channels_within, channels_in.
  rewrite <- !in_interval_spec, !andb_true_iff. tauto.
Qed.

Lemma isInGamut_rec_eq (E : Env) (depth : nat) (color : Color) (epsilon : num) :
  isInGamut_rec E depth color epsilon
  = if bool_decide (mode color = Mp3) then
      Ret (channels_within #1.6 epsilon color)
    else if bool_decide (mode color = Mrgb) then
      Ret (channels_within #1 epsilon color)
    else
      rgbColor <- rgb E color ;;
      match rgbColor with
      | None => Ret false
      | Some rgbColor =>
          match depth with
          | O => Throw "RangeError: Maximum call stack size exceeded"
          | S depth' => isInGamut_rec E depth' rgbColor epsilon
          end
      end.
Proof. destruct depth; reflexivity. Qed.

Lemma isInGamut_rgb (E : Env) (color : Color) (epsilon : num) :
  mode color = Mrgb ->
  isInGamut E color epsilon = Ret (channels_within #1 epsilon color).
Proof. intros H. unfold isInGamut. rewrite isInGamut_rec_eq. now rewrite H. Qed.

Lemma isInGamut_p3 (E : Env) (color : Color) (epsilon : num) :
  mode color = Mp3 ->
  isInGamut E color epsilon = Ret (channels_within #1.6 epsilon color).
Proof. intros H. unfold isInGamut. rewrite isInGamut_rec_eq. now rewrite H. Qed.

(** [present_in_gamut] decides [projected_within] on a projection that
    carries the mode it was converted to. *)
Lemma present_in_gamut_rgb (E : Env) (v : option Color) :
  (forall c, v = Some c -> mode c = Mrgb) ->
  exists b, present_in_gamut E v EPSILON = Ret b
            /\ (b = true <-> projected_within 1 v).
Proof.
  intros Hm. destruct v as [c|]; cbn [present_in_gamut].
  - rewrite isInGamut_rgb by auto. eexists; split; [reflexivity|].
    rewrite channels_within_spec. unfold projected_within. split.
    + eauto.
    + intros (c' & [= <-] & H). exact H.
  - exists false. split; [reflexivity|]. split; [discriminate|].
    intros (c & [=] & _).
Qed.

Lemma present_in_gamut_p3 (E : Env) (v : option Color) :
  (forall c, v = Some c -> mode c = Mp3) ->
  exists b, present_in_gamut E v EPSILON = Ret b
            /\ (b = true <-> projected_within 1.6 v).
Proof.
  intros Hm. destruct v as [c|]; cbn [present_in_gamut].
  - rewrite isInGamut_p3 by auto. eexists; split; [reflexivity|].
    rewrite channels_within_spec. unfold projected_within. split.
    + eauto.
    + intros (c' & [= <-] & H). exact H.
  - exists false. split; [reflexivity|]. split; [discriminate|].
    intros (c & [=] & _).
Qed.

(** ** Detection and its cache *)

Section Detection.

Variable E : Env.

Lemma cache_consistent_empty : cache_consistent E ∅.
Proof. intros color key report _ H. rewrite lookup_empty in H. discriminate. Qed.

Lemma detectColorSpace_hit color cache key report :
  cacheKey E color = Ret key ->
  cache !! key = Some report ->
  detectColorSpace E color cache = (Ret report, cache).
Proof.
  intros Hk Hc. unfold detectColorSpace, try_catchM, bindM, lift, cache_get.
  now rewrite Hk, Hc.
Qed.

Lemma detectColorSpace_miss color cache key report :
  cacheKey E color = Ret key ->
  cache !! key = None ->
  classify E color = Ret report ->
  detectColorSpace E color cache = (Ret report, <[key := report]> cache).
Proof.
  intros Hk Hc Hr.
  unfold detectColorSpace, try_catchM, bindM, lift, cache_get, cache_set.
  now rewrite Hk, Hc, Hr.
Qed.

(** An exception in the body of the [try] ends in the report of the
    [catch] clause, and the cache is left as it was. *)
Lemma detectColorSpace_key_throws color cache e :
  cacheKey E color = Throw e ->
  detectColorSpace E color cache = (Ret detection_failed, cache).
Proof.
  intros Hk. unfold detectColorSpace, try_catchM, bindM, lift.
  now rewrite Hk.
Qed.

Lemma detectColorSpace_classify_throws color cache key e :
  cacheKey E color = Ret key ->
  cache !! key = None ->
  classify E color = Throw e ->
  detectColorSpace E color cache = (Ret detection_failed, cache).
Proof.
  intros Hk Hc Hr.
  unfold detectColorSpace, try_catchM, bindM, lift, cache_get.
  now rewrite Hk, Hc, Hr.
Qed.

(** Detection returns a report whatever the converters do. *)
Lemma detectColorSpace_total color cache :
  exists report cache', detectColorSpace E color cache = (Ret report, cache').
Proof.
  destruct (cacheKey E color) as [key|e] eqn:Hk.
  - destruct (cache !! key) as [r|] eqn:Hc.
    + erewrite detectColorSpace_hit by eauto. eauto.
    + destruct (classify E color) as [r|e] eqn:Hr.
      * erewrite detectColorSpace_miss by eauto. eauto.
      * erewrite detectColorSpace_classify_throws by eauto. eauto.
  - erewrite detectColorSpace_key_throws by eauto. eauto.
Qed.

(** On a consistent cache a returned report is the one [classify]
    computes, unless the body of the [try] threw. *)
Lemma detectColorSpace_consistent color cache key report :
  cache_consistent E cache ->
  cacheKey E color = Ret key ->
  classify E color = Ret report ->
  exists cache', detectColorSpace E color cache = (Ret report, cache').
Proof.
  intros Hcons Hk Hr. destruct (cache !! key) as [r|] eqn:Hc.
  - pose proof (Hcons _ _ _ Hk Hc) as Hr'. rewrite Hr in Hr'.
    injection Hr' as <-. erewrite detectColorSpace_hit by eauto. eauto.
  - erewrite detectColorSpace_miss by eauto. eauto.
Qed.

(** Detection keeps the cache consistent when the keys tell the colours
    apart. *)
Lemma detectColorSpace_preserves color cache report cache' :
  keys_injective E ->
  cache_consistent E cache ->
  detectColorSpace E color cache = (Ret report, cache') ->
  cache_consistent E cache'.
Proof.
  intros Hinj Hcons Hd.
  destruct (cacheKey E color) as [key|e] eqn:Hk.
  - destruct (cache !! key) as [r|] eqn:Hc.
    + erewrite detectColorSpace_hit in Hd by eauto. now injection Hd as _ <-.
    + destruct (classify E color) as [r|e] eqn:Hr.
      * erewrite detectColorSpace_miss in Hd by eauto. injection Hd as <- <-.
        intros c k r' Hk' Hl. destruct (decide (k = key)) as [->|Hne].
        -- rewrite lookup_insert_eq in Hl. injection Hl as <-.
           now rewrite (Hinj _ _ _ Hk' Hk).
        -- rewrite lookup_insert_ne in Hl by auto. eauto.
      * erewrite detectColorSpace_classify_throws in Hd by eauto.
        now injection Hd as _ <-.
  - erewrite detectColorSpace_key_throws in Hd by eauto. now injection Hd as _ <-.
Qed.

(** Every cache the module can hold is consistent. *)
Lemma reachable_consistent cache :
  keys_injective E -> reachable E cache -> cache_consistent E cache.
Proof.
  intros Hinj Hr. induction Hr as [|cache color report cache' _ IH Hd].
  - apply cache_consistent_empty.
  - eapply detectColorSpace_preserves; eauto.
Qed.

(** The report of [classify] when the proxy and its two projections are
    available. *)
Lemma classify_projected color proxy rgbV p3V :
  getProxyColor E color = Ret (Some proxy) ->
  rgb E proxy = Ret rgbV ->
  p3 E proxy = Ret p3V ->
  (forall c, rgbV = Some c -> mode c = Mrgb) ->
  (forall c, p3V = Some c -> mode c = Mp3) ->
  exists inRGB inP3,
    (inRGB = true <-> projected_within 1 rgbV)
    /\ (inP3 = true <-> projected_within 1.6 p3V)
    /\ classify E color =
         Ret (if inRGB then mkColorSpaceResult Ssrgb Ssrgb p3V rgbV true false
              else if inP3 then mkColorSpaceResult Sp3 Ssrgb p3V rgbV true true
              else mkColorSpaceResult Sout Ssrgb p3V rgbV false true).
Proof.
  intros Hp Hr Hp3 Hmr Hmp.
  destruct (present_in_gamut_rgb E rgbV Hmr) as (inRGB & HeR & HR).
  destruct (present_in_gamut_p3 E p3V Hmp) as (inP3 & HeP & HP).
  exists inRGB, inP3. split; [exact HR|]. split; [exact HP|].
  unfold classify. rewrite Hp. cbn [bind]. rewrite Hr. cbn [bind].
  rewrite HeR. cbn [bind].
  destruct inRGB; rewrite Hp3; cbn [bind]; [reflexivity|].
  rewrite HeP. cbn [bind]. now destruct inP3.
Qed.

End Detection.

(** ** Classification (C1) *)

(** C1.  For a colour whose OKLCH proxy projection succeeds, with the
    proxy converted to RGB and to P3 (the projections carrying the mode
    they were converted to) and a cache that holds only reports of
    [classify]: detection reports [srgb] exactly when the RGB projection
    has every channel in [[-1e-6, 1 + 1e-6]]; otherwise it needs a
    fallback, and reports [p3] exactly when the P3 projection has every
    channel in [[-1e-6, 1.6 + 1e-6]], and [out] otherwise; the fallback
    space is [srgb] in every case. *)
Theorem detectColorSpace_classification
  (E : Env) (color : Color) (cache : Cache) (key : string)
  (proxy : Color) (rgbV p3V : option Color) :
  cache_consistent E cache ->
  cacheKey E color = Ret key ->
  getProxyColor E color = Ret (Some proxy) ->
  rgb E proxy = Ret rgbV ->
  p3 E proxy = Ret p3V ->
  (forall c, rgbV = Some c -> mode c = Mrgb) ->
  (forall c, p3V = Some c -> mode c = Mp3) ->
  exists report cache',
    detectColorSpace E color cache = (Ret report, cache')
    /\ csr_fallbackSpace report = Ssrgb
    /\ (originalSpace report = Ssrgb <-> projected_within 1 rgbV)
    /\ (~ projected_within 1 rgbV ->
        needsFallback report = true
        /\ (originalSpace report = Sp3 <-> projected_within 1.6 p3V)
        /\ (~ projected_within 1.6 p3V -> originalSpace report = Sout)).
Proof.
  intros Hcons Hk Hp Hr Hp3 Hmr Hmp.
  destruct (classify_projected E color proxy rgbV p3V Hp Hr Hp3 Hmr Hmp)
    as (inRGB & inP3 & HR & HP & Hc).
  destruct (detectColorSpace_consistent E color cache key _ Hcons Hk Hc)
    as (cache' & Hd).
  eexists; exists cache'. split; [exact Hd|].
  destruct inRGB.
  - simpl. split; [reflexivity|]. split.
    + split; [intros _; now apply HR | reflexivity].
    + intros Hn. exfalso. apply Hn. now apply HR.
  - assert (HnR : ~ projected_within 1 rgbV) by (intros H; apply HR in H; discriminate).
    destruct inP3; simpl.
    + split; [reflexivity|]. split; [split; [discriminate | tauto]|].
      intros _. split; [reflexivity|]. split.
      * split; [intros _; now apply HP | reflexivity].
      * intros Hn. exfalso. apply Hn. now apply HP.
    + assert (HnP : ~ projected_within 1.6 p3V) by (intros H; apply HP in H; discriminate).
      split; [reflexivity|]. split; [split; [discriminate | tauto]|].
      intros _. split; [reflexivity|]. split.
      * split; [discriminate | tauto].
      * reflexivity.
Qed.

(** The classification of [wide_color], which the fixture places in P3
    only, on the empty cache. *)
Lemma detectColorSpace_classification_witness :
  exists report cache',
    detectColorSpace Fixture.env wide_color ∅ = (Ret report, cache')
    /\ csr_fallbackSpace report = Ssrgb
    /\ (originalSpace report = Ssrgb
        <-> projected_within 1 (Some (with_mode Mrgb wide_color)))
    /\ (~ projected_within 1 (Some (with_mode Mrgb wide_color)) ->
        needsFallback report = true
        /\ (originalSpace report = Sp3
            <-> projected_within 1.6 (Some (with_mode Mp3 wide_color)))
        /\ (~ projected_within 1.6 (Some (with_mode Mp3 wide_color)) ->
            originalSpace report = Sout)).
Proof.
  eapply (detectColorSpace_classification Fixture.env wide_color ∅ _
            wide_color).
  - apply cache_consistent_empty.
  - reflexivity.
  - reflexivity.
  - reflexivity.
  - reflexivity.
  - intros c [= <-]. reflexivity.
  - intros c [= <-]. reflexivity.
Defined.

(** ** Failures during detection (C6) *)

(** C6, as stated, fails: when the conversion to XYZ D65 throws, the
    report of the [catch] clause has [originalSpace = srgb], not [out]. *)
Lemma detectColorSpace_thrown_error_not_out :
  (exists e, classify Fixture.throwing_env grey10 = Throw e)
  /\ exists report,
       detectColorSpace Fixture.throwing_env grey10 ∅ = (Ret report, ∅)
       /\ originalSpace report <> Sout.
Proof.
  split; [eexists; reflexivity|].
  exists detection_failed. split; [reflexivity | discriminate].
Qed.

(** C6, amended.  Detection always returns a report and never throws.
    When the proxy projection fails it reports [out] with
    [needsFallback = true]; when an error is thrown in the body of its
    [try] (by the cache key or by a converter) it returns the report of
    its [catch] clause, which has [originalSpace = srgb],
    [inGamut = false] and [needsFallback = true], and leaves the cache
    unchanged. *)
Theorem detectColorSpace_degrades (E : Env) (color : Color) (cache : Cache) :
  (exists report cache', detectColorSpace E color cache = (Ret report, cache'))
  /\ (forall key,
        cache_consistent E cache ->
        cacheKey E color = Ret key ->
        getProxyColor E color = Ret None ->
        exists report cache',
          detectColorSpace E color cache = (Ret report, cache')
          /\ originalSpace report = Sout
          /\ needsFallback report = true)
  /\ (forall e,
        cacheKey E color = Throw e
        \/ (exists key, cacheKey E color = Ret key /\ cache !! key = None
                        /\ classify E color = Throw e) ->
        detectColorSpace E color cache = (Ret detection_failed, cache)
        /\ originalSpace detection_failed = Ssrgb
        /\ inGamut detection_failed = false
        /\ needsFallback detection_failed = true).
Proof.
  split; [apply detectColorSpace_total|]. split.
  - intros key Hcons Hk Hp.
    assert (Hc : classify E color
                 = Ret (mkColorSpaceResult Sout Ssrgb None None false true))
      by (unfold classify; now rewrite Hp).
    destruct (detectColorSpace_consistent E color cache key _ Hcons Hk Hc)
      as (cache' & Hd).
    eexists; exists cache'. split; [exact Hd|]. split; reflexivity.
  - intros e [Hk | (key & Hk & Hc & Hr)].
    + split; [now apply detectColorSpace_key_throws with e|].
      repeat split.
    + split; [now apply detectColorSpace_classify_throws with key e|].
      repeat split.
Qed.

(** Detection of [grey10] when the conversion to XYZ D65 throws. *)
Lemma detectColorSpace_degrades_witness :
  detectColorSpace Fixture.throwing_env grey10 ∅ = (Ret detection_failed, ∅)
  /\ originalSpace detection_failed = Ssrgb
  /\ inGamut detection_failed = false
  /\ needsFallback detection_failed = true.
Proof.
  apply (proj2 (proj2 (detectColorSpace_degrades Fixture.throwing_env grey10 ∅))
           "TypeError: converters[color.mode] is undefined").
  right. eexists. split; [reflexivity|]. split; reflexivity.
Defined.

(** ** Pure white in OKLCH (C9) *)

(** C9.  A colour in OKLCH with lightness 1 and chroma 0 is its own
    proxy, whatever the converters are: no conversion to XYZ D65 (or any
    other) is made for it.  [checkColorSpace] then answers [srgb] at
    once, and [detectColorSpace] reports [srgb] as soon as the RGB
    conversion of this white is in the sRGB range. *)
Theorem white_oklch_short_circuit
  (E : Env) (color : Color) (l c : Q) :
  mode color = Moklch ->
  ch1 color = Some #l -> l == 1 ->
  ch2 color = Some #c -> c == 0 ->
  getProxyColor E color = Ret (Some color)
  /\ checkColorSpace E color = Ret Ssrgb
  /\ (forall cache key w,
        cache_consistent E cache ->
        cacheKey E color = Ret key ->
        rgb E color = Ret (Some w) ->
        mode w = Mrgb ->
        channels_in 1 w ->
        exists report cache',
          detectColorSpace E color cache = (Ret report, cache')
          /\ originalSpace report = Ssrgb).
Proof.
  intros Hm Hl Hl1 Hc Hc0.
  assert (Hw : is_white_oklch color = true).
  { unfold is_white_oklch, prop. rewrite Hm, Hl, Hc.
    cbn [channel_names String.eqb Ascii.eqb Bool.eqb toNum JS.num_eq cmp].
    rewrite bool_decide_eq_true_2 by reflexivity.
    rewrite !andb_true_iff, !Qeq_bool_iff. tauto. }
  assert (Hp : getProxyColor E color = Ret (Some color))
    by (unfold getProxyColor; now rewrite Hw).
  split; [exact Hp|]. split.
  - unfold checkColorSpace. rewrite Hp. cbn [bind]. now rewrite Hw.
  - intros cache key w Hcons Hk Hr Hmw Hin.
    assert (HinB : present_in_gamut E (Some w) EPSILON = Ret true).
    { cbn [present_in_gamut]. rewrite isInGamut_rgb by exact Hmw. f_equal.
      now apply channels_within_spec. }
    destruct (p3 E color) as [p3V|e] eqn:Hp3.
    + assert (Hcl : classify E color
                    = Ret (mkColorSpaceResult Ssrgb Ssrgb p3V (Some w) true false)).
      { unfold classify. rewrite Hp. cbn [bind]. rewrite Hr. cbn [bind].
        rewrite HinB. cbn [bind]. now rewrite Hp3. }
      destruct (detectColorSpace_consistent E color cache key _ Hcons Hk Hcl)
        as (cache' & Hd).
      eexists; exists cache'. split; [exact Hd | reflexivity].
    + assert (Hcl : classify E color = Throw e).
      { unfold classify. rewrite Hp. cbn [bind]. rewrite Hr. cbn [bind].
        rewrite HinB. cbn [bind]. now rewrite Hp3. }
      destruct (cache !! key) as [r|] eqn:Hc'.
      * pose proof (Hcons _ _ _ Hk Hc') as Hr'. rewrite Hcl in Hr'. discriminate.
      * exists detection_failed, cache. split; [|reflexivity].
        now apply detectColorSpace_classify_throws with key e.
Qed.

(** Pure white where the conversion to XYZ D65 would throw. *)
Lemma white_oklch_short_circuit_witness :
  getProxyColor Fixture.throwing_env white_oklch = Ret (Some white_oklch)
  /\ checkColorSpace Fixture.throwing_env white_oklch = Ret Ssrgb
  /\ exists report cache',
       detectColorSpace Fixture.throwing_env white_oklch ∅ = (Ret report, cache')
       /\ originalSpace report = Ssrgb.
Proof.
  destruct (white_oklch_short_circuit Fixture.throwing_env white_oklch 1 0)
    as (Hp & Hc & Hd); try reflexivity.
  split; [exact Hp|]. split; [exact Hc|].
  eapply (Hd ∅ _ (mkColor Mrgb (Some #1) (Some #0) (Some #0) None)).
  - apply cache_consistent_empty.
  - reflexivity.
  - reflexivity.
  - reflexivity.
  - unfold channels_in, in_interval. simpl. repeat split; lra.
Defined.

(** ** Gamut mapping (C4) *)

Section Mapping.

Variable E : Env.

Lemma gt_Fin (a b : Q) : (#a >? #b)%num = true <-> b < a.
Proof.
  unfold num_gt, num_lt, cmp, Qltb. rewrite negb_true_iff.
  rewrite <- not_true_iff_false, Qle_bool_iff. split.
  - apply Qnot_le_lt.
  - apply Qlt_not_le.
Qed.

Lemma half_Fin (q : Q) : (#q / #2)%num = #(q / 2).
Proof. reflexivity. Qed.

Lemma pow2_succ (n : nat) :
  inject_Z (2 ^ Z.of_nat (S n)) == 2 * inject_Z (2 ^ Z.of_nat n).
Proof.
  rewrite Nat2Z.inj_succ, Z.pow_succ_r by apply Nat2Z.is_nonneg.
  now rewrite inject_Z_mult.
Qed.

Lemma search_0 l c h step :
  search E 0 l c h step
  = if (step >? #0.000001)%num then None else Some (Ret black).
Proof. reflexivity. Qed.

Lemma search_S fuel l c h step :
  search E (S fuel) l c h step
  = if (step >? #0.000001)%num then
      match probe E l c h with
      | Throw e => Some (Throw e)
      | Ret (Some rgbTest, true) => Some (Ret rgbTest)
      | Ret _ => search E fuel l (c - step)%num h (step / #2)%num
      end
    else Some (Ret black).
Proof. reflexivity. Qed.

(** [fuel] iterations end the loop when [step <= 1e-6 * 2^fuel]. *)
Lemma search_enough (fuel : nat) :
  forall l c h (q : Q),
    q * 1000000 <= inject_Z (2 ^ Z.of_nat fuel) ->
    exists r, search E fuel l c h #q = Some r.
Proof.
  induction fuel as [|fuel IH]; intros l c h q Hq.
  - rewrite search_0. destruct (#q >? #0.000001)%num eqn:Hg; [|eauto].
    apply gt_Fin in Hg. exfalso.
    change (inject_Z (2 ^ Z.of_nat 0)) with 1 in Hq. lra.
  - rewrite search_S. destruct (#q >? #0.000001)%num eqn:Hg; [|eauto].
    assert (Hhalf : q / 2 * 1000000 <= inject_Z (2 ^ Z.of_nat fuel)).
    { rewrite pow2_succ in Hq.
      assert (Hh : q / 2 == q * 0.5) by field.
      rewrite Hh. lra. }
    destruct (probe E l c h) as [[[t|] [|]]|e]; eauto;
      rewrite half_Fin; now apply IH.
Qed.

(** More fuel does not change a result. *)
Lemma search_mono (fuel : nat) :
  forall l c h step r,
    search E fuel l c h step = Some r ->
    forall fuel', (fuel <= fuel')%nat -> search E fuel' l c h step = Some r.
Proof.
  induction fuel as [|fuel IH]; intros l c h step r Hs fuel' Hle.
  - rewrite search_0 in Hs. destruct fuel'; [now rewrite search_0|].
    rewrite search_S. now destruct (step >? #0.000001)%num.
  - destruct fuel' as [|fuel']; [lia|].
    rewrite search_S in Hs. rewrite search_S.
    destruct (step >? #0.000001)%num; [|exact Hs].
    destruct (probe E l c h) as [[[t|] [|]]|e]; try exact Hs;
      apply IH with (fuel' := fuel') in Hs; try exact Hs; lia.
Qed.

Lemma loop_fuel_bound (q : Q) :
  q * 1000000 <= inject_Z (2 ^ Z.of_nat (loop_fuel #q)).
Proof.
  unfold loop_fuel.
  set (z := Qceiling (q * 1000000)).
  assert (Hz : q * 1000000 <= inject_Z z) by apply Qle_ceiling.
  rewrite Z2Nat.id by apply Z.log2_up_nonneg.
  assert (Hp : (z <= 2 ^ Z.log2_up z)%Z).
  { destruct (Z_lt_le_dec 1 z) as [H1|H1].
    - apply Z.log2_up_spec. exact H1.
    - rewrite Z.log2_up_eqn0 by exact H1. simpl. exact H1. }
  rewrite Zle_Qle in Hp. lra.
Qed.

(** The loop of [findClosestInGamut] ends within [loop_fuel step]
    iterations, and any larger bound gives the same result. *)
Lemma search_terminates l c h step :
  exists r, forall fuel, (loop_fuel step <= fuel)%nat ->
                         search E fuel l c h step = Some r.
Proof.
  destruct step as [q|].
  - destruct (search_enough (loop_fuel #q) l c h q (loop_fuel_bound q)) as (r & Hr).
    exists r. intros fuel Hle. now apply search_mono with (loop_fuel #q).
  - exists (Ret black). intros [|fuel] _; reflexivity.
Qed.

End Mapping.

Lemma search_returns (E : Env) (fuel : nat) :
  returns (oklch E) -> returns (rgb E) -> respects Mrgb (rgb E) ->
  forall l c h step r,
    search E fuel l c h step = Some r -> exists result, r = Ret result.
Proof.
  intros Ho Hr Hm. induction fuel as [|fuel IH]; intros l c h step r Hs.
  - rewrite search_0 in Hs. destruct (step >? #0.000001)%num; [discriminate|].
    injection Hs as <-. eauto.
  - rewrite search_S in Hs. destruct (step >? #0.000001)%num.
    2:{ injection Hs as <-. eauto. }
    unfold probe in Hs.
    destruct (Ho (mkColor Moklch l (Some c) h None)) as ([test|] & Het);
      rewrite Het in Hs; cbn [bind conv_opt present_in_gamut] in Hs.
    + destruct (Hr test) as ([rgbTest|] & Her); rewrite Her in Hs;
        cbn [bind present_in_gamut] in Hs.
      * rewrite isInGamut_rgb in Hs by (eapply Hm; eauto). cbn [bind] in Hs.
        destruct (channels_within #1 EPSILON rgbTest).
        -- injection Hs as <-. eauto.
        -- eauto.
      * eauto.
    + eauto.
Qed.


Lemma findClosestInGamut_returns (E : Env) (color : Color) :
  returns (oklch E) -> returns (rgb E) -> respects Mrgb (rgb E) ->
  exists result, findClosestInGamut E color = Ret result.
Proof.
  intros Ho Hr Hm. unfold findClosestInGamut.
  destruct (Ho color) as ([o|] & ->); cbn [bind]; [|eauto].
  destruct (search_terminates E o.["l"] (toNum o.["c"]) o.["h"]
              (toNum o.["c"] / #2)%num) as (r & Hfuel).
  rewrite (Hfuel _ (Nat.le_refl _)).
  eapply search_returns; eauto.
Qed.



Section Loop.

Variable E : Env.







End Loop.

(** On the numbers of the model the two loops are the same. *)
Lemma xsearch_finite (E : Env) (l h : option num)
  (inf : outcome (option Color * bool)) (fuel : nat) :
  forall c step,
    xsearch (xprobe E l h inf) fuel (XNum c) (XNum step)
    = search E fuel l c h step.
Proof.
  induction fuel as [|fuel IH]; intros c step; [reflexivity|].
  rewrite search_S.
  change (xsearch (xprobe E l h inf) (S fuel) (XNum c) (XNum step))
    with (if (step >? #0.000001)%num then
            match probe E l c h with
            | Throw e => Some (Throw e)
            | Ret (Some rgbTest, true) => Some (Ret rgbTest)
            | Ret _ => xsearch (xprobe E l h inf) fuel
                         (XNum (c - step)%num) (XNum (step / #2)%num)
            end
          else Some (Ret black)).
  now rewrite IH.
Qed.

(** [findClosestInGamut] runs this loop from the chroma of the converted
    input. *)
Lemma findClosestInGamut_xsearch (E : Env) (color o : Color)
  (inf : outcome (option Color * bool)) :
  oklch E color = Ret (Some o) ->
  findClosestInGamut E color
  = match xsearch (xprobe E o.["l"] o.["h"] inf)
            (loop_fuel (toNum o.["c"] / #2)%num)
            (XNum (toNum o.["c"])) (xnum_half (XNum (toNum o.["c"]))) with
    | Some result => result
    | None => Ret black
    end.
Proof.
  intros Ho. unfold findClosestInGamut. rewrite Ho. cbn [bind xnum_half].
  now rewrite xsearch_finite.
Qed.








Example findClosestInGamut_vivid :
  findClosestInGamut Fixture.env vivid_color = Ret vivid_mapped.
Proof. reflexivity. Qed.

(** ** Resolution never throws (C3) *)

Section Resolution.

Variable E : Env.

Lemma getFallback_total color fmt cc cache :
  exists text cache', getFallback E color fmt cc cache = (Ret text, cache').
Proof.
  unfold getFallback, try_catchM, retM.
  destruct (bindM _ _ cache) as [[text|e] cache']; eauto.
Qed.

Lemma formatColor_total color fmt cache :
  exists d cache',
    formatColor E color fmt cache = (Ret d, cache')
    /\ (formatColor_try E color fmt cache = (Ret d, cache')
        \/ d = invalid_color fmt).
Proof.
  unfold formatColor, try_catchM, retM.
  destruct (formatColor_try E color fmt cache) as [[d|e] cache'] eqn:Ht;
    eauto.
Qed.

Lemma formatColor_try_format color fmt cache d cache' :
  formatColor_try E color fmt cache = (Ret d, cache') ->
  format d = fmt.
Proof.
  unfold formatColor_try, bindM, lift, retM.
  destruct (detectColorSpace E color cache) as [[report|e] c1]; [|discriminate].
  destruct (match rgbValues report with Some c => _ | None => _ end)
    as [previewRGB|e]; [|discriminate].
  destruct (formatHexRGBA E previewRGB) as [hex|e]; [|discriminate].
  destruct (oklch E color) as [o|e]; [|discriminate].
  destruct (getFallback E color fmt _ c1) as [[text|e] c2]; [|discriminate].
  now intros [= <- <-].
Qed.

(** Where an exception that reaches the [catch] clause of [formatColor]
    comes from: detection and [getFallback] return, so it is thrown by
    [findClosestInGamut], by [formatHexRGBA] on the preview or by the
    OKLCH conversion of the colour. *)
Lemma formatColor_try_throws color fmt cache e cache' :
  formatColor_try E color fmt cache = (Throw e, cache') ->
  exists report,
    detectColorSpace E color cache = (Ret report, cache')
    /\ ((rgbValues report = None /\ findClosestInGamut E color = Throw e)
        \/ (exists previewRGB,
              (rgbValues report = Some previewRGB
               \/ (rgbValues report = None
                   /\ findClosestInGamut E color = Ret previewRGB))
              /\ (formatHexRGBA E previewRGB = Throw e
                  \/ oklch E color = Throw e))).
Proof.
  unfold formatColor_try, bindM, lift, retM.
  destruct (detectColorSpace_total E color cache) as (report & c1 & Hd).
  rewrite Hd.
  destruct (rgbValues report) as [c|] eqn:Hv.
  - destruct (formatHexRGBA E c) as [hex|e1] eqn:Hh.
    + destruct (oklch E color) as [o|e2] eqn:Ho.
      * destruct (getFallback_total color fmt
                    (mkColorCache (p3Values report) (Some c) o) c1)
          as (text & c2 & Hg).
        rewrite Hg. discriminate.
      * intros [= <- <-]. exists report. split; [reflexivity|].
        right. exists c. split; [now left | now right].
    + intros [= <- <-]. exists report. split; [reflexivity|].
      right. exists c. split; [now left | now left].
  - destruct (findClosestInGamut E color) as [c|e0] eqn:Hf.
    + destruct (formatHexRGBA E c) as [hex|e1] eqn:Hh.
      * destruct (oklch E color) as [o|e2] eqn:Ho.
        -- destruct (getFallback_total color fmt
                       (mkColorCache (p3Values report) None o) c1)
             as (text & c2 & Hg).
           rewrite Hg. discriminate.
        -- intros [= <- <-]. exists report. split; [reflexivity|].
           right. exists c. split; [right; now split | now right].
      * intros [= <- <-]. exists report. split; [reflexivity|].
        right. exists c. split; [right; now split | now left].
    + intros [= <- <-]. exists report. split; [reflexivity|].
      left. now split.
Qed.

(** With converters that return, the [catch] clause of [formatColor] is
    not reached. *)
Lemma formatColor_try_returns color fmt cache :
  returns (oklch E) -> returns (rgb E) -> respects Mrgb (rgb E) ->
  exists d cache', formatColor_try E color fmt cache = (Ret d, cache').
Proof.
  intros Ho Hr Hm.
  destruct (formatColor_try E color fmt cache) as [[d|e] c] eqn:Ht; [eauto|].
  exfalso. apply formatColor_try_throws in Ht as (report & _ & Hcase).
  assert (Hhex : forall c0 e0, formatHexRGBA E c0 <> Throw e0).
  { intros c0 e0. unfold formatHexRGBA.
    destruct (Hr c0) as ([c1|] & ->); discriminate. }
  assert (Hok : forall e0, oklch E color <> Throw e0).
  { intros e0. destruct (Ho color) as (v & ->). discriminate. }
  destruct Hcase as [(_ & Hf) | (c0 & _ & [Hh | Hk])].
  - destruct (findClosestInGamut_returns E color Ho Hr Hm) as (result & Hres).
    congruence.
  - now apply Hhex in Hh.
  - now apply Hok in Hk.
Qed.

Lemma mapM_formatColor color (fs : list ColorFormat) :
  forall cache,
    exists l cache',
      mapM (fun fmt => formatColor E color fmt) fs cache = (Ret l, cache')
      /\ map format l = fs.
Proof.
  induction fs as [|f fs IH]; intros cache.
  - exists [], cache. split; reflexivity.
  - destruct (formatColor_total color f cache) as (d & c1 & Hd & Hcase).
    destruct (IH c1) as (l & c2 & Hl & Hm).
    exists (d :: l), c2. split.
    + cbn [mapM]. unfold bindM, retM in *. now rewrite Hd, Hl.
    + cbn [map]. f_equal; [|exact Hm].
      destruct Hcase as [Ht| ->]; [|reflexivity].
      now apply formatColor_try_format in Ht.
Qed.

End Resolution.

(** C3, as stated, fails: rendering [p3_without_red] as [p3] throws a
    [TypeError] during resolution ([formatP3] calls [toFixed] on the
    missing channel), [getFallback] catches it, and the record carries
    the text ["rgb(0, 0, 0)"] and no warning, not the degraded record. *)
Lemma formatColor_inner_exception_not_degraded :
  formatForSpace Fixture.env p3_without_red Fp3
  = Throw "TypeError: Cannot read properties of undefined (reading 'toFixed')"
  /\ outcome_map (fun d => (value d, fallback (warnings d),
                             outOfGamut (warnings d)))
       (fst (formatColor Fixture.env p3_without_red Fp3 ∅))
     = Ret ("rgb(0, 0, 0)", false, false).
Proof. split; [reflexivity | vm_compute; reflexivity]. Qed.

(** C3, amended.  [formatColor] never throws and returns one record for
    the requested notation, so the command receives one record per
    notation, in the order of [formats].  When an exception reaches the
    [catch] clause of [formatColor] (it is thrown while the preview is
    computed or rendered, or by the OKLCH conversion of the cache
    argument) the record has the text ["Invalid Color"], the preview
    ["#000000"], the gamut [out] and both warnings set.  An exception
    thrown inside [getFallback] is caught there and replaced by the text
    ["#000000"] for [hex] and ["rgb(0, 0, 0)"] otherwise. *)
Theorem formatColor_never_throws (E : Env) (color : Color) (fmt : ColorFormat)
  (cache : Cache) :
  (exists d cache',
      formatColor E color fmt cache = (Ret d, cache') /\ format d = fmt)
  /\ (forall e cache',
        formatColor_try E color fmt cache = (Throw e, cache') ->
        exists d,
          formatColor E color fmt cache = (Ret d, cache')
          /\ value d = "Invalid Color"
          /\ hexValue d = "#000000"
          /\ gamut d = Sout
          /\ fallback (warnings d) = true
          /\ outOfGamut (warnings d) = true)
  /\ (forall cc,
        exists text cache',
          getFallback E color fmt cc cache = (Ret text, cache')
          /\ forall e,
               bindM (detectColorSpaceAndFallback E color)
                 (fun result => lift (getFallback_choose E color fmt cc result))
                 cache = (Throw e, cache') ->
               text = if bool_decide (fmt = Fhex) then "#000000"
                      else "rgb(0, 0, 0)")
  /\ (exists l cache',
        mapM (fun f => formatColor E color f) formats cache = (Ret l, cache')
        /\ map format l = formats).
Proof.
  split; [|split; [|split]].
  - destruct (formatColor_total E color fmt cache) as (d & c1 & Hd & Hcase).
    exists d, c1. split; [exact Hd|].
    destruct Hcase as [Ht| ->]; [|reflexivity].
    now apply formatColor_try_format in Ht.
  - intros e cache' Ht. exists (invalid_color fmt).
    split; [|repeat split].
    unfold formatColor, try_catchM. now rewrite Ht.
  - intros cc. unfold getFallback, try_catchM, retM.
    destruct (bindM _ _ cache) as [[text|e] cache'] eqn:Hb.
    + exists text, cache'. split; [reflexivity|]. intros e [=].
    + eexists. exists cache'. split; [reflexivity|]. intros e' _. reflexivity.
  - apply mapM_formatColor.
Qed.

(** The degraded record, where every conversion throws. *)
Lemma formatColor_never_throws_witness :
  exists d,
    formatColor broken_env grey10 Frgb ∅ = (Ret d, ∅)
    /\ value d = "Invalid Color"
    /\ hexValue d = "#000000"
    /\ gamut d = Sout
    /\ fallback (warnings d) = true
    /\ outOfGamut (warnings d) = true.
Proof.
  apply (proj1 (proj2 (formatColor_never_throws broken_env grey10 Frgb ∅))
           "TypeError: conversion failed").
  reflexivity.
Defined.

(** ** The warnings (C2) *)

(** C2, as stated, fails for [figma-p3]: the colour is detected outside
    both gamuts, and the record of the [figmaP3] notation, which carries
    the gamut [out], has [outOfGamut = false].  It also fails when
    resolution ends in its error handler: with converters that throw,
    detection answers [srgb] and the record has both flags set. *)
Lemma formatColor_figmaP3_not_outOfGamut :
  outcome_map originalSpace (fst (detectColorSpace Fixture.env far_color ∅))
  = Ret Sout
  /\ outcome_map (fun d => (format d, gamut d, outOfGamut (warnings d)))
       (fst (formatColor Fixture.env far_color FfigmaP3 ∅))
     = Ret (FfigmaP3, Sout, false)
  /\ outcome_map originalSpace (fst (detectColorSpace broken_env grey10 ∅))
     = Ret Ssrgb
  /\ outcome_map (fun d => (fallback (warnings d), outOfGamut (warnings d)))
       (fst (formatColor broken_env grey10 Frgb ∅))
     = Ret (true, true).
Proof. repeat split; vm_compute; reflexivity. Qed.

(** C2, amended.  When resolution completes without reaching its own
    error handler, [usedFallback] is set exactly when the detected
    [originalSpace] is [out] and the notation is sRGB-native ([rgb],
    [hex], [hex/rgba], [hsl]), and [outOfGamut] exactly when it is [out]
    and the notation is [p3], [vec] or [lrgb]: for [figmaP3] (and [oklch],
    [oklab]) both flags are false whatever the gamut, and for a colour
    detected as [srgb] or [p3] both flags are false for every notation.
    [getWarnings] computes the same flags. *)
Theorem formatColor_warnings (E : Env) (color : Color) (fmt : ColorFormat)
  (cache : Cache) (d : ColorData) (cache' : Cache) :
  formatColor_try E color fmt cache = (Ret d, cache') ->
  exists report cache1,
    detectColorSpace E color cache = (Ret report, cache1)
    /\ formatColor E color fmt cache = (Ret d, cache')
    /\ getWarnings E color fmt cache = (Ret (warnings d), cache1)
    /\ (fallback (warnings d) = true
        <-> originalSpace report = Sout /\ fmt ∈ [Frgb; Fhex; Fhex_rgba; Fhsl])
    /\ (outOfGamut (warnings d) = true
        <-> originalSpace report = Sout /\ fmt ∈ [Fp3; Fvec; Flrgb])
    /\ (fmt ∈ [FfigmaP3; Foklch; Foklab] ->
        fallback (warnings d) = false /\ outOfGamut (warnings d) = false)
    /\ (originalSpace report <> Sout ->
        fallback (warnings d) = false /\ outOfGamut (warnings d) = false).
Proof.
  intros Ht.
  assert (Hf : formatColor E color fmt cache = (Ret d, cache'))
    by (unfold formatColor, try_catchM; now rewrite Ht).
  revert Ht. unfold formatColor_try, getWarnings, bindM, lift, retM.
  destruct (detectColorSpace E color cache) as [[report|e] c1]; [|discriminate].
  destruct (match rgbValues report with Some c => _ | None => _ end)
    as [previewRGB|e]; [|discriminate].
  destruct (formatHexRGBA E previewRGB) as [hex|e]; [|discriminate].
  destruct (oklch E color) as [o|e]; [|discriminate].
  destruct (getFallback E color fmt _ c1) as [[text|e] c2]; [|discriminate].
  intros [= <- <-]. exists report, c1. cbn [warnings fallback outOfGamut].
  split; [reflexivity|]. split; [exact Hf|]. split; [reflexivity|].
  unfold isSRGBFormat, srgbFormats.
  rewrite !andb_true_iff, !bool_decide_eq_true.
  split; [reflexivity|]. split; [reflexivity|]. split.
  - intros Hin. split; apply andb_false_iff; right;
      apply bool_decide_eq_false; intros Hin';
      repeat (apply elem_of_cons in Hin as [->|Hin]);
      try (now apply elem_of_nil in Hin);
      repeat (apply elem_of_cons in Hin' as [[=]|Hin']);
      now apply elem_of_nil in Hin'.
  - intros Hne. split; apply andb_false_iff; left;
      now apply bool_decide_eq_false.
Qed.

(** The flags of [far_color] rendered as [p3]. *)
Lemma formatColor_warnings_witness :
  formatColor_try Fixture.env far_color Fp3 ∅
  = (Ret far_color_p3, snd (formatColor_try Fixture.env far_color Fp3 ∅))
  /\ exists report cache1,
       detectColorSpace Fixture.env far_color ∅ = (Ret report, cache1)
       /\ (outOfGamut (warnings far_color_p3) = true
           <-> originalSpace report = Sout /\ Fp3 ∈ [Fp3; Fvec; Flrgb]).
Proof.
  assert (Ht : formatColor_try Fixture.env far_color Fp3 ∅
               = (Ret far_color_p3,
                  snd (formatColor_try Fixture.env far_color Fp3 ∅)))
    by (vm_compute; reflexivity).
  split; [exact Ht|].
  destruct (formatColor_warnings Fixture.env far_color Fp3 ∅ _ _ Ht)
    as (report & cache1 & Hd & _ & _ & _ & Hog & _).
  exists report, cache1. split; [exact Hd | exact Hog].
Defined.

(** ** Linear RGB (C5) *)

(** C5 at [#0a0a0a] (each channel 10/255): [getFallback] decodes the
    channels in [toLinear] and [formatLinearRGB] decodes the result once
    more, so the [vec] text is ["vec(0.00023, ...)"].  One application of
    the transfer function, which [formatLinearRGB] performs on the colour
    itself and the first screen performs for its [vec] line, gives
    0.00304. *)
Theorem linear_rgb_decoded_twice :
  (forall cc result,
      getFallback_choose Fixture.env grey10 Fvec cc result
      = Ret "vec(0.00023, 0.00023, 0.00023, 1.00000)")
  /\ outcome_map value (fst (formatColor Fixture.env grey10 Fvec ∅))
     = Ret "vec(0.00023, 0.00023, 0.00023, 1.00000)"
  /\ Fixture.parse_hex6 "#0a0a0a" = Ret (Some grey10)
  /\ formatLinearRGB Fixture.env grey10
     = Ret "vec(0.00304, 0.00304, 0.00304, 1.00000)"
  /\ ColorConverter.formatColor Fixture.env Fixture.text (Some grey10)
       ColorConverter.vec_
     = Ret "Linear RGB vec(0.00304, 0.00304, 0.00304)".
Proof.
  split; [intros cc result; vm_compute; reflexivity|].
  split; [vm_compute; reflexivity|].
  repeat split; vm_compute; reflexivity.
Qed.

(** [getFallback] renders [vec] and [lrgb] from the colour [toLinear]
    returns, whatever the converters are: the transfer function of
    [formatLinearRGB] is applied to channels that [toLinearValue] already
    decoded. *)
Lemma getFallback_choose_linear (E : Env) (color : Color) (fmt : ColorFormat)
  (cc : ColorCache) (result : VisibleValue) :
  fmt = Fvec \/ fmt = Flrgb ->
  getFallback_choose E color fmt cc result
  = (linearColor <- toLinear E color ;; formatLinearRGB E linearColor).
Proof. intros [-> | ->]; reflexivity. Qed.

(** ** Figma P3 (C7) *)

(** C7 at [Figma P3 #FF800080]: the colour is P3 with alpha 128/255, and
    the hard-coded branch of [formatFigmaP3] renders it as ["#FF8000FF"],
    whatever the converters are; the rendering of its channels and alpha
    with two hexadecimal digits each is ["#FF800080"]. *)
Theorem figmaP3_reference_branch_drops_alpha (E : Env) (cc : ColorCache)
  (result : VisibleValue) :
  orange_half
  = mkColor Mp3 (Some (#255 / #255)%num) (Some (#128 / #255)%num)
      (Some (#0 / #255)%num) (Some (#128 / #255)%num)
  /\ formatFigmaP3 E orange_half = Ret "#FF8000FF"
  /\ getFallback_choose E orange_half FfigmaP3 cc result = Ret "#FF8000FF"
  /\ figmaP3_text orange_half = "#FF800080".
Proof. repeat split. Qed.

Example figmaP3_general_branch :
  formatFigmaP3 Fixture.env (processFigmaP3 "Figma P3 #FF810080")
  = Ret "#FF810080".
Proof. reflexivity. Qed.

Lemma hex_byte_ok_all : forallb hex_byte_ok (List.seq 0 256) = true.
Proof. vm_compute. reflexivity. Qed.

Lemma hex_byte_shape (z : Z) :
  (0 <= z <= 255)%Z ->
  String.length (hex_byte z) = 2%nat
  /\ all_chars is_upper_hex (hex_byte z) = true.
Proof.
  intros Hz.
  assert (Hin : In (Z.to_nat z) (List.seq 0 256)) by (apply in_seq; lia).
  pose proof (proj1 (forallb_forall _ _) hex_byte_ok_all _ Hin) as H.
  unfold hex_byte_ok in H. rewrite Z2Nat.id in H by lia.
  apply andb_true_iff in H as [Hl Hc]. split; [|exact Hc].
  now apply Nat.eqb_eq.
Qed.

(** [toHex] of a number is the text of a byte. *)
Lemma toHex_Fin (q : Q) :
  exists z, (0 <= z <= 255)%Z /\ toHex #q = hex_byte z.
Proof.
  unfold toHex, hex_byte, Math_round, Math_max, Math_min, num_mul, lift1, lift2,
    toString16.
  eexists. split; [|rewrite Qfloor_Z; reflexivity].
  set (c := if Qle_bool 0 _ then _ else _).
  assert (Hc : 0 <= c <= 1).
  { subst c. destruct (Qle_bool 1 q) eqn:H1.
    - change (Qle_bool 0 1) with true. cbv iota. lra.
    - destruct (Qle_bool 0 q) eqn:H0.
      + apply Qle_bool_iff in H0. split; [exact H0|].
        apply Qlt_le_weak, Qnot_le_lt. intros H. apply Qle_bool_iff in H.
        congruence.
      + lra. }
  split.
  - apply (Qfloor_resp_le 0.5). lra.
  - apply (Qfloor_resp_le _ 255.5). lra.
Qed.

(** The text of [formatFigmaP3] outside its hard-coded branch, for a
    colour whose channels and alpha are numbers: [#] and four bytes in
    upper-case hexadecimal, the last one [FF] when alpha is missing. *)
Lemma figmaP3_text_shape (c : Color) (r g b : Q) :
  c.["r"] = Some #r -> c.["g"] = Some #g -> c.["b"] = Some #b ->
  alpha c = None \/ (exists a, alpha c = Some #a) ->
  exists z1 z2 z3 z4,
    figmaP3_text c = "#" ++ hex_byte z1 ++ hex_byte z2 ++ hex_byte z3 ++ hex_byte z4
    /\ String.length (figmaP3_text c) = 9%nat
    /\ all_chars is_upper_hex
         (hex_byte z1 ++ hex_byte z2 ++ hex_byte z3 ++ hex_byte z4) = true
    /\ (alpha c = None -> hex_byte z4 = "FF").
Proof.
  intros Hr Hg Hb Ha. unfold figmaP3_text. rewrite Hr, Hg, Hb. cbn [toNum].
  unfold Math_max, Math_min. cbn [lift2].
  destruct (toHex_Fin (if Qle_bool 0 (if Qle_bool 1.6 r then 1.6 else r)
                       then if Qle_bool 1.6 r then 1.6 else r else 0))
    as (z1 & Hz1 & ->).
  destruct (toHex_Fin (if Qle_bool 0 (if Qle_bool 1.6 g then 1.6 else g)
                       then if Qle_bool 1.6 g then 1.6 else g else 0))
    as (z2 & Hz2 & ->).
  destruct (toHex_Fin (if Qle_bool 0 (if Qle_bool 1.6 b then 1.6 else b)
                       then if Qle_bool 1.6 b then 1.6 else b else 0))
    as (z3 & Hz3 & ->).
  assert (H4 : exists z4, (0 <= z4 <= 255)%Z
                          /\ toHex (default #1 (alpha c)) = hex_byte z4
                          /\ (alpha c = None -> hex_byte z4 = "FF")).
  { destruct Ha as [Ha | (a & Ha)]; rewrite Ha; cbn [default].
    - exists 255%Z. repeat split; (lia || reflexivity).
    - destruct (toHex_Fin a) as (z4 & Hz4 & E4). exists z4.
      split; [exact Hz4|]. split; [exact E4 | discriminate]. }
  destruct H4 as (z4 & Hz4 & -> & Hff).
  exists z1, z2, z3, z4.
  destruct (hex_byte_shape z1 Hz1) as (L1 & C1).
  destruct (hex_byte_shape z2 Hz2) as (L2 & C2).
  destruct (hex_byte_shape z3 Hz3) as (L3 & C3).
  destruct (hex_byte_shape z4 Hz4) as (L4 & C4).
  split; [reflexivity|]. split; [|split; [|exact Hff]].
  - rewrite !length_append, L1, L2, L3, L4. reflexivity.
  - rewrite !all_chars_app, C1, C2, C3, C4. reflexivity.
Qed.

(** ** Rejected input (C8) *)

(** The command never throws. *)
Lemma convertAll_total (E : Env) (searchText : string) (cache : Cache) :
  exists l cache', convertAll E searchText cache = (Ret l, cache').
Proof.
  unfold convertAll. destruct (String.eqb searchText ""); [unfold retM; eauto|].
  unfold try_catchM, retM. destruct (bindM _ _ cache) as [[l|e] c]; eauto.
Qed.

(** A colour the command obtained is converted to one record per
    notation. *)
Lemma convertAll_color (E : Env) (searchText : string) (cache : Cache)
  (color : Color) :
  String.eqb searchText "" = false ->
  (if startsWith "Figma P3" searchText then
     Ret (Some (processFigmaP3 searchText))
   else if isP3HexFormat searchText then
     Ret (Some (processFigmaP3 ("Figma P3 " ++ searchText)))
   else parse E searchText) = Ret (Some color) ->
  exists l cache',
    convertAll E searchText cache = (Ret l, cache')
    /\ mapM (fun fmt => formatColor E color fmt) formats cache = (Ret l, cache')
    /\ map format l = formats.
Proof.
  intros Hne Hc.
  destruct (mapM_formatColor E color formats cache) as (l & c & Hl & Hm).
  exists l, c. split; [|split; [exact Hl | exact Hm]].
  unfold convertAll. rewrite Hne. unfold try_catchM, bindM, lift, retM in *.
  destruct (startsWith "Figma P3" searchText).
  - injection Hc as <-. now rewrite Hl.
  - destruct (isP3HexFormat searchText).
    + injection Hc as <-. now rewrite Hl.
    + rewrite Hc. now rewrite Hl.
Qed.

(** C8, as stated, fails.  The text [Figma P3 zzz] is rejected by the
    parser and is no [Figma P3 #RRGGBBAA] either, and the command
    returns eight records (those of opaque black P3); on the first screen
    a rejected text yields one placeholder record. *)
Lemma rejected_input_not_empty :
  parse Fixture.env "Figma P3 zzz" = Ret None
  /\ is_hash_hex8 (trim (strip_figma_prefix "Figma P3 zzz")) = false
  /\ outcome_map (map format) (fst (convertAll Fixture.env "Figma P3 zzz" ∅))
     = Ret [FfigmaP3; Foklch; Fp3; Foklab; Fvec; Fhex; Frgb; Fhsl]
  /\ parse Fixture.env "not-a-color" = Ret None
  /\ ColorConverter.onSearchTextChange Fixture.env Fixture.text "not-a-color"
     = Ret [ColorConverter.mkColorData "Invalid color input" "" "#808080"].
Proof.
  repeat split; vm_compute; reflexivity.
Qed.

(** C8, amended.  No exception surfaces from the command.  For a
    non-empty text that does not start with [Figma P3], is not a bare
    [#RRGGBBAA] and is rejected by the parser, the command returns the
    empty list.  A text that starts with [Figma P3] is never rejected:
    when it is not followed by [#RRGGBBAA] it is read as opaque black P3,
    and the command returns one record per notation.  On the first
    screen a rejected text yields the single placeholder record
    ["Invalid color input"] with the swatch [#808080]. *)
Theorem convertAll_rejected (E : Env) (text : string) (cache : Cache) :
  parse E text = Ret None ->
  (exists l cache', convertAll E text cache = (Ret l, cache'))
  /\ (startsWith "Figma P3" text = false ->
      isP3HexFormat text = false ->
      convertAll E text cache = (Ret [], cache))
  /\ (startsWith "Figma P3" text = true ->
      (is_hash_hex8 (trim (strip_figma_prefix text)) = false ->
       processFigmaP3 text = black_p3)
      /\ exists l cache',
           convertAll E text cache = (Ret l, cache')
           /\ map format l = formats)
  /\ (forall T,
        ColorConverter.handleColorConversion E T text
        = Ret [ColorConverter.mkColorData "Invalid color input" "" "#808080"]).
Proof.
  intros Hp. split; [apply convertAll_total|]. split; [|split].
  - intros Hf Hh. unfold convertAll.
    destruct (String.eqb text ""); [reflexivity|].
    unfold try_catchM, bindM, lift, retM. now rewrite Hf, Hh, Hp.
  - intros Hf. split.
    + intros Hbad. unfold processFigmaP3. now rewrite Hf, Hbad.
    + assert (Hne : String.eqb text "" = false).
      { destruct text; [discriminate Hf | reflexivity]. }
      destruct (convertAll_color E text cache (processFigmaP3 text) Hne)
        as (l & c & Hl & _ & Hm).
      * now rewrite Hf.
      * eauto.
  - intros T. unfold ColorConverter.handleColorConversion.
    now rewrite Hp.
Qed.

(** The text [not-a-color] on both screens. *)
Lemma convertAll_rejected_witness :
  convertAll Fixture.env "not-a-color" ∅ = (Ret [], ∅)
  /\ ColorConverter.handleColorConversion Fixture.env Fixture.text "not-a-color"
     = Ret [ColorConverter.mkColorData "Invalid color input" "" "#808080"].
Proof.
  destruct (convertAll_rejected Fixture.env "not-a-color" ∅ eq_refl)
    as (_ & Hempty & _ & Hfirst).
  split; [apply Hempty; reflexivity | apply Hfirst].
Defined.

(** ** No alpha in the P3, OKLCH and OKLAB texts (C10) *)

Lemma digit_char_not_slash (d : N) : not_slash (digit_char d) = true.
Proof.
  unfold digit_char. destruct d as [|p]; [reflexivity|].
  do 4 (destruct p as [p|p|]; try reflexivity).
Qed.

Lemma digits_fuel_not_slash (fuel : nat) :
  forall base n acc,
    no_alpha_part acc = true ->
    no_alpha_part (digits_fuel fuel base n acc) = true.
Proof.
  unfold no_alpha_part.
  induction fuel as [|fuel IH]; intros base n acc H; [exact H|].
  cbn [digits_fuel].
  assert (H' : all_chars not_slash (String (digit_char (n mod base)) acc) = true).
  { cbn [all_chars]. now rewrite digit_char_not_slash. }
  destruct (n <? base)%N; [exact H' | now apply IH].
Qed.

Lemma toFixed_not_slash (d : nat) (x : num) : no_alpha_part (toFixed d x) = true.
Proof.
  unfold no_alpha_part, toFixed. destruct x as [q|]; [|reflexivity].
  set (ds := padStart _ _ _).
  assert (Hds : all_chars not_slash ds = true).
  { unfold ds, padStart. rewrite all_chars_app, all_chars_repeat by reflexivity.
    apply digits_fuel_not_slash. reflexivity. }
  cbv zeta. rewrite !all_chars_app.
  rewrite (all_chars_substring _ _ Hds).
  destruct (Qltb q 0); destruct d; cbn [all_chars andb]; try reflexivity;
    rewrite ?all_chars_app, (all_chars_substring _ _ Hds); reflexivity.
Qed.

Lemma padEnd_not_slash (n : nat) (s : string) :
  no_alpha_part s = true -> no_alpha_part (padEnd n "0" s) = true.
Proof.
  unfold no_alpha_part, padEnd. intros H.
  now rewrite all_chars_app, H, all_chars_repeat.
Qed.

Lemma prop_with_alpha (name : string) (a : option num) (c : Color) :
  (with_alpha a c).[name] = c.[name].
Proof. reflexivity. Qed.

Section WideGamutTexts.

Variable E : Env.

Lemma formatP3_not_slash color text :
  formatP3 E color = Ret text -> no_alpha_part text = true.
Proof.
  unfold formatP3.
  destruct (p3 E color) as [[c|]|e]; cbn [bind]; [| now intros [= <-] | discriminate].
  destruct (c.["r"]) as [r|]; cbn [bind method_of]; [|discriminate].
  destruct (c.["g"]) as [g|]; cbn [bind method_of]; [|discriminate].
  destruct (c.["b"]) as [b|]; cbn [bind method_of]; [|discriminate].
  intros [= <-]. unfold no_alpha_part.
  rewrite !all_chars_app.
  pose proof (padEnd_not_slash 6 _ (toFixed_not_slash 4 r)) as Hr.
  pose proof (padEnd_not_slash 6 _ (toFixed_not_slash 4 g)) as Hg.
  pose proof (padEnd_not_slash 6 _ (toFixed_not_slash 4 b)) as Hb.
  unfold no_alpha_part in Hr, Hg, Hb. rewrite Hr, Hg, Hb. reflexivity.
Qed.

Lemma formatOKLCH_not_slash color text :
  formatOKLCH E color = Ret text -> no_alpha_part text = true.
Proof.
  unfold formatOKLCH.
  destruct (if bool_decide (mode color = Moklch) then _ else _)
    as [[c|]|e]; cbn [bind]; [| now intros [= <-] | discriminate].
  intros [= <-]. unfold no_alpha_part.
  rewrite !all_chars_app.
  pose proof (padEnd_not_slash 5 _
                (toFixed_not_slash 2 (default #0 c.["l"] * #100)%num)) as Hl.
  pose proof (padEnd_not_slash 6 _ (toFixed_not_slash 4 (default #0 c.["c"]))) as Hc.
  pose proof (toFixed_not_slash 2 (default #0 c.["h"])) as Hh.
  unfold no_alpha_part in Hl, Hc, Hh. rewrite Hl, Hc, Hh. reflexivity.
Qed.

Lemma formatOKLAB_not_slash color text :
  formatOKLAB E color = Ret text -> no_alpha_part text = true.
Proof.
  unfold formatOKLAB.
  destruct (oklab E color) as [[c|]|e]; cbn [bind]; [| now intros [= <-] | discriminate].
  destruct (c.["a"]) as [a|]; cbn [bind method_of]; [|discriminate].
  destruct (c.["b"]) as [b|]; cbn [bind method_of]; [|discriminate].
  intros [= <-]. unfold no_alpha_part.
  rewrite !all_chars_app.
  pose proof (toFixed_not_slash 2 (toNum c.["l"] * #100)%num) as Hl.
  pose proof (toFixed_not_slash 2 a) as Ha.
  pose proof (toFixed_not_slash 1 b) as Hb.
  unfold no_alpha_part in Hl, Ha, Hb. rewrite Hl, Ha, Hb. reflexivity.
Qed.

Lemma formatP3_alpha color a :
  carries_alpha (p3 E) ->
  formatP3 E (with_alpha a color) = formatP3 E color.
Proof.
  intros H. unfold formatP3. rewrite H.
  now destruct (p3 E color) as [[c|]|e].
Qed.

Lemma formatOKLCH_alpha color a :
  carries_alpha (oklch E) ->
  formatOKLCH E (with_alpha a color) = formatOKLCH E color.
Proof.
  intros H. unfold formatOKLCH. cbn [mode with_alpha].
  destruct (bool_decide (mode color = Moklch)); [reflexivity|].
  rewrite H. now destruct (oklch E color) as [[c|]|e].
Qed.

Lemma formatOKLAB_alpha color a :
  carries_alpha (oklab E) ->
  formatOKLAB E (with_alpha a color) = formatOKLAB E color.
Proof.
  intros H. unfold formatOKLAB. rewrite H.
  now destruct (oklab E color) as [[c|]|e].
Qed.

End WideGamutTexts.

(** C10.  For the notations [p3], [oklch] and [oklab] the text
    [getFallback] returns has no alpha component (no ["/"] occurs in it),
    whatever the alpha of the colour is: the text is the one of
    [formatP3], [formatOKLCH] or [formatOKLAB], or ["rgb(0, 0, 0)"] after
    an exception; these formatters read the channels only, so that with
    converters that carry alpha through the text of a colour does not
    change with its alpha. *)
Theorem wide_gamut_texts_without_alpha (E : Env) (color : Color)
  (fmt : ColorFormat) (cc : ColorCache) (cache : Cache) :
  fmt ∈ [Fp3; Foklch; Foklab] ->
  (exists text cache',
      getFallback E color fmt cc cache = (Ret text, cache')
      /\ no_alpha_part text = true)
  /\ (forall result,
        getFallback_choose E color fmt cc result
        = match fmt with
          | Fp3 => formatP3 E color
          | Foklch => formatOKLCH E color
          | _ => formatOKLAB E color
          end)
  /\ (forall text,
        formatForSpace E color fmt = Ret text -> no_alpha_part text = true)
  /\ (carries_alpha (p3 E) -> carries_alpha (oklch E) ->
      carries_alpha (oklab E) ->
      forall a,
        formatForSpace E (with_alpha a color) fmt = formatForSpace E color fmt).
Proof.
  intros Hin.
  assert (Hfmt : fmt = Fp3 \/ fmt = Foklch \/ fmt = Foklab).
  { repeat (apply elem_of_cons in Hin as [->|Hin]); auto.
    now apply elem_of_nil in Hin. }
  assert (Htext : forall text,
             formatForSpace E color fmt = Ret text -> no_alpha_part text = true).
  { intros text. destruct Hfmt as [-> | [-> | ->]]; cbn [formatForSpace].
    - apply formatP3_not_slash.
    - apply formatOKLCH_not_slash.
    - apply formatOKLAB_not_slash. }
  assert (Hchoose : forall result,
             getFallback_choose E color fmt cc result = formatForSpace E color fmt).
  { intros result. destruct Hfmt as [-> | [-> | ->]]; reflexivity. }
  split; [|split; [|split]].
  - unfold getFallback, try_catchM, bindM, lift, retM.
    destruct (detectColorSpaceAndFallback E color cache) as [[result|e] c1].
    + rewrite Hchoose.
      destruct (formatForSpace E color fmt) as [text|e] eqn:Hf.
      * exists text, c1. split; [reflexivity | now apply Htext].
      * eexists. exists c1. split; [reflexivity|].
        now destruct Hfmt as [-> | [-> | ->]].
    + eexists. exists c1. split; [reflexivity|].
      now destruct Hfmt as [-> | [-> | ->]].
  - intros result. rewrite Hchoose.
    now destruct Hfmt as [-> | [-> | ->]].
  - exact Htext.
  - intros Hp Ho Hl a. destruct Hfmt as [-> | [-> | ->]]; cbn [formatForSpace].
    + now apply formatP3_alpha.
    + now apply formatOKLCH_alpha.
    + now apply formatOKLAB_alpha.
Qed.

Lemma retag_carries_alpha (m : Mode) : carries_alpha (Fixture.retag m).
Proof.
  intros a c. unfold Fixture.retag. cbn [mode with_alpha outcome_map option_map].
  now destruct (bool_decide (mode c = m)).
Qed.

(** The OKLCH text of the reference orange at half opacity. *)
Lemma wide_gamut_texts_without_alpha_witness :
  formatForSpace Fixture.env half_orange Foklch = Ret "oklch(74.32% 0.2194 51.36)"
  /\ no_alpha_part "oklch(74.32% 0.2194 51.36)" = true
  /\ formatForSpace Fixture.env (with_alpha None half_orange) Foklch
     = formatForSpace Fixture.env half_orange Foklch.
Proof.
  assert (Hin : Foklch ∈ [Fp3; Foklch; Foklab])
    by (apply elem_of_cons; right; apply elem_of_cons; now left).
  destruct (wide_gamut_texts_without_alpha Fixture.env half_orange Foklch
              (mkColorCache None None None) ∅ Hin)
    as (_ & _ & Htext & Halpha).
  assert (Hf : formatForSpace Fixture.env half_orange Foklch
               = Ret "oklch(74.32% 0.2194 51.36)") by (vm_compute; reflexivity).
  split; [exact Hf|]. split; [exact (Htext _ Hf)|].
  apply Halpha; apply retag_carries_alpha.
Defined.

(* ===================================================================== *)
(** * Further properties *)
(* ===================================================================== *)

(** ** What the command does to the cache *)

Section Frame.

Variable P : Cache -> Prop.

Lemma keeps_retM {A} (a : A) : keeps P (retM a).
Proof. intros cache H. exact H. Qed.

Lemma keeps_lift {A} (o : outcome A) : keeps P (lift o).
Proof. intros cache H. exact H. Qed.

Lemma keeps_bindM {A B} (m : M A) (k : A -> M B) :
  keeps P m -> (forall a, keeps P (k a)) -> keeps P (bindM m k).
Proof.
  intros Hm Hk cache H. unfold bindM. specialize (Hm cache H).
  destruct (m cache) as [[a|e] s]; cbn [snd] in *; [now apply Hk | exact Hm].
Qed.

Lemma keeps_try_catchM {A} (m : M A) (h : string -> M A) :
  keeps P m -> (forall e, keeps P (h e)) -> keeps P (try_catchM m h).
Proof.
  intros Hm Hh cache H. unfold try_catchM. specialize (Hm cache H).
  destruct (m cache) as [[a|e] s]; cbn [snd] in *; [exact Hm | now apply Hh].
Qed.

Lemma keeps_mapM {A B} (f : A -> M B) (l : list A) :
  (forall a, keeps P (f a)) -> keeps P (mapM f l).
Proof.
  intros Hf. induction l as [|a l IH]; cbn [mapM].
  - apply keeps_retM.
  - apply keeps_bindM; [apply Hf|]. intros b.
    apply keeps_bindM; [exact IH|]. intros bs. apply keeps_retM.
Qed.

Variable E : Env.
Variable color : Color.
Hypothesis detection_keeps : keeps P (detectColorSpace E color).

Lemma keeps_detectColorSpaceAndFallback :
  keeps P (detectColorSpaceAndFallback E color).
Proof.
  unfold detectColorSpaceAndFallback.
  apply keeps_bindM; [apply keeps_lift|]. intros _.
  apply keeps_bindM; [apply detection_keeps|]. intros r.
  destruct (bool_decide (originalSpace r = Ssrgb));
    (apply keeps_bindM; [apply keeps_lift|]; intros f;
     apply keeps_bindM; [apply keeps_lift|]; intros f'; apply keeps_retM).
Qed.

Lemma keeps_getFallback fmt cc : keeps P (getFallback E color fmt cc).
Proof.
  unfold getFallback. apply keeps_try_catchM.
  - apply keeps_bindM; [apply keeps_detectColorSpaceAndFallback|].
    intros r. apply keeps_lift.
  - intros _. apply keeps_retM.
Qed.

Lemma keeps_formatColor fmt : keeps P (formatColor E color fmt).
Proof.
  unfold formatColor, formatColor_try. apply keeps_try_catchM.
  - apply keeps_bindM; [apply detection_keeps|]. intros r.
    apply keeps_bindM; [apply keeps_lift|]. intros previewRGB.
    apply keeps_bindM; [apply keeps_lift|]. intros hex.
    apply keeps_bindM; [apply keeps_lift|]. intros o.
    apply keeps_bindM; [apply keeps_getFallback|]. intros v.
    apply keeps_retM.
  - intros _. apply keeps_retM.
Qed.

Lemma keeps_getWarnings fmt : keeps P (getWarnings E color fmt).
Proof.
  unfold getWarnings. apply keeps_bindM; [apply detection_keeps|].
  intros r. apply keeps_retM.
Qed.

End Frame.

(** The four outcomes of a detection. *)
Lemma detectColorSpace_cases (E : Env) (color : Color) (cache : Cache) :
  (exists report, detectColorSpace E color cache = (Ret report, cache)
     /\ forall key, cacheKey E color = Ret key ->
                    cache !! key = Some report
                    \/ (cache !! key = None /\ report = detection_failed))
  \/ (exists key report,
        cacheKey E color = Ret key /\ cache !! key = None
        /\ classify E color = Ret report
        /\ detectColorSpace E color cache = (Ret report, <[key := report]> cache)).
Proof.
  destruct (cacheKey E color) as [key|e] eqn:Hk.
  - destruct (cache !! key) as [r|] eqn:Hc.
    + left. exists r. split; [now apply detectColorSpace_hit with key|].
      intros k [= <-]. now left.
    + destruct (classify E color) as [r|e] eqn:Hr.
      * right. exists key, r. repeat split; auto.
        now apply detectColorSpace_miss.
      * left. exists detection_failed.
        split; [now apply detectColorSpace_classify_throws with key e|].
        intros k [= <-]. now right.
  - left. exists detection_failed.
    split; [now apply detectColorSpace_key_throws with e|]. discriminate.
Qed.

(** A second detection of the same colour finds the cache settled. *)
Lemma detectColorSpace_again (E : Env) (color : Color) (cache : Cache) :
  detectColorSpace E color (snd (detectColorSpace E color cache))
  = detectColorSpace E color cache.
Proof.
  destruct (detectColorSpace_cases E color cache)
    as [(r & Hd & _) | (key & r & Hk & Hc & Hr & Hd)].
  - rewrite Hd. cbn [snd]. exact Hd.
  - rewrite Hd. cbn [snd].
    apply detectColorSpace_hit with key; [exact Hk|].
    apply lookup_insert_eq.
Qed.

(** X1.  Detection is idempotent on the cache: it returns a report, and
    a second detection of the same colour on the cache the first one
    left returns the same report and leaves that cache as it is. *)
Theorem detectColorSpace_idempotent (E : Env) (color : Color) (cache : Cache) :
  exists report cache',
    detectColorSpace E color cache = (Ret report, cache')
    /\ detectColorSpace E color cache' = (Ret report, cache').
Proof.
  destruct (detectColorSpace_total E color cache) as (report & cache' & Hd).
  exists report, cache'. split; [exact Hd|].
  pose proof (detectColorSpace_again E color cache) as H.
  now rewrite Hd in H.
Qed.

Lemma bindM_eq {A B} (m : M A) (k : A -> M B) (c c' : Cache) :
  m c = m c' -> bindM m k c = bindM m k c'.
Proof. unfold bindM. now intros ->. Qed.

Lemma try_catchM_eq {A} (m : M A) (h : string -> M A) (c c' : Cache) :
  m c = m c' -> try_catchM m h c = try_catchM m h c'.
Proof. unfold try_catchM. now intros ->. Qed.

(** Detection leaves the cache as it is or adds the report of [classify]
    under the key of the colour. *)
Lemma detectColorSpace_one_entry (E : Env) (color : Color) (cache : Cache) :
  at_most_one_entry cache (snd (detectColorSpace E color cache)).
Proof.
  destruct (detectColorSpace_cases E color cache)
    as [(r & Hd & _) | (key & r & Hk & Hc & Hr & Hd)]; rewrite Hd; cbn [snd].
  - now left.
  - right. eauto.
Qed.

Lemma at_most_one_entry_subseteq (cache cache' : Cache) :
  at_most_one_entry cache cache' -> cache ⊆ cache'.
Proof.
  intros [-> | (key & r & Hk & ->)]; [reflexivity|].
  now apply insert_subseteq.
Qed.

Section Settled.

Variable E : Env.
Variable color : Color.

(** On the cache a detection of [color] left, a detection of [color]
    changes nothing. *)
Lemma detection_settled (cache : Cache) :
  keeps (fun c => c = snd (detectColorSpace E color cache))
    (detectColorSpace E color).
Proof.
  intros c ->. now rewrite detectColorSpace_again.
Qed.

Lemma formatColor_start (fmt : ColorFormat) (cache : Cache) :
  formatColor E color fmt cache
  = formatColor E color fmt (snd (detectColorSpace E color cache)).
Proof.
  unfold formatColor, formatColor_try.
  apply try_catchM_eq, bindM_eq. symmetry. apply detectColorSpace_again.
Qed.

Lemma formatColor_cache (fmt : ColorFormat) (cache : Cache) :
  snd (formatColor E color fmt cache) = snd (detectColorSpace E color cache).
Proof.
  rewrite formatColor_start.
  apply (keeps_formatColor _ E color (detection_settled cache) fmt).
  reflexivity.
Qed.

Lemma mapM_formatColor_cache (fs : list ColorFormat) (cache : Cache) :
  fs <> [] ->
  snd (mapM (fun fmt => formatColor E color fmt) fs cache)
  = snd (detectColorSpace E color cache).
Proof.
  intros Hne.
  assert (Hk : keeps (fun c => c = snd (detectColorSpace E color cache))
                 (mapM (fun fmt => formatColor E color fmt) fs)).
  { apply keeps_mapM. intros fmt.
    apply keeps_formatColor, detection_settled. }
  destruct fs as [|fmt fs]; [contradiction|].
  cbn [mapM]. unfold bindM at 1.
  pose proof (formatColor_cache fmt cache) as Hc.
  destruct (formatColor_total E color fmt cache) as (d & c1 & Hd & _).
  rewrite Hd in Hc |- *. cbn [snd] in Hc. subst c1.
  change (snd (bindM (mapM (fun fmt => formatColor E color fmt) fs)
                 (fun bs => retM (d :: bs))
                 (snd (detectColorSpace E color cache)))
          = snd (detectColorSpace E color cache)).
  apply (keeps_bindM _ _ _
           (keeps_mapM _ _ fs
              (fun f => keeps_formatColor _ E color (detection_settled cache) f))
           (fun bs => keeps_retM _ _)).
  reflexivity.
Qed.

Lemma mapM_formatColor_start (fs : list ColorFormat) (cache : Cache) :
  mapM (fun fmt => formatColor E color fmt) fs
    (snd (detectColorSpace E color cache))
  = (fst (mapM (fun fmt => formatColor E color fmt) fs cache),
     snd (detectColorSpace E color cache)).
Proof.
  destruct fs as [|fmt fs]; [reflexivity|].
  pose proof (mapM_formatColor_cache (fmt :: fs) cache) as Hc.
  assert (Hs : mapM (fun fmt => formatColor E color fmt) (fmt :: fs) cache
               = mapM (fun fmt => formatColor E color fmt) (fmt :: fs)
                   (snd (detectColorSpace E color cache))).
  { cbn [mapM]. apply bindM_eq, formatColor_start. }
  rewrite <- Hs. rewrite <- Hc by discriminate.
  now destruct (mapM _ _ cache).
Qed.

Lemma detectColorSpaceAndFallback_start (cache : Cache) :
  detectColorSpaceAndFallback E color cache
  = detectColorSpaceAndFallback E color (snd (detectColorSpace E color cache)).
Proof.
  unfold detectColorSpaceAndFallback.
  destruct (cacheKey E color) as [key|e] eqn:Hk.
  - change (bindM (lift (Ret key)) ?k ?c) with (k key c). cbv beta.
    apply bindM_eq. symmetry. apply detectColorSpace_again.
  - now rewrite (detectColorSpace_key_throws E color cache e Hk).
Qed.

Lemma detectColorSpaceAndFallback_cache (cache : Cache) :
  snd (detectColorSpaceAndFallback E color cache)
  = snd (detectColorSpace E color cache).
Proof.
  rewrite detectColorSpaceAndFallback_start.
  apply (keeps_detectColorSpaceAndFallback _ E color (detection_settled cache)).
  reflexivity.
Qed.

Lemma getFallback_cache (fmt : ColorFormat) (cc : ColorCache) (cache : Cache) :
  snd (getFallback E color fmt cc cache) = snd (detectColorSpace E color cache).
Proof.
  assert (Hs : getFallback E color fmt cc cache
               = getFallback E color fmt cc
                   (snd (detectColorSpace E color cache))).
  { unfold getFallback. apply try_catchM_eq, bindM_eq.
    apply detectColorSpaceAndFallback_start. }
  rewrite Hs.
  apply (keeps_getFallback _ E color (detection_settled cache)).
  reflexivity.
Qed.

End Settled.

Lemma num_code_inj (x y : num) : num_code x = num_code y -> x = y.
Proof.
  destruct x as [[a b]|], y as [[c d]|]; cbn; intros H;
    try discriminate; [|reflexivity].
  now injection H as -> ->.
Qed.

Lemma option_num_code_inj (x y : option num) :
  option_map num_code x = option_map num_code y -> x = y.
Proof.
  destruct x, y; cbn; intros H; try discriminate; [|reflexivity].
  injection H as H. f_equal. now apply num_code_inj.
Qed.

Lemma mode_code_inj (m m' : Mode) : mode_code m = mode_code m' -> m = m'.
Proof. destruct m, m'; cbn; intros H; try discriminate; congruence. Qed.

Lemma exact_env_keys_injective : keys_injective exact_env.
Proof.
  intros c1 c2 k Hk1 Hk2. cbn [cacheKey exact_env] in Hk1, Hk2.
  unfold exact_key in Hk1, Hk2. rewrite <- Hk2 in Hk1. injection Hk1 as H.
  apply (inj pretty), (inj encode) in H. unfold color_code in H.
  injection H as Hm H1 H2 H3 H4.
  apply mode_code_inj in Hm. apply option_num_code_inj in H1, H2, H3, H4.
  destruct c1, c2; cbn in *. congruence.
Qed.

(** The command on a search text either leaves the cache alone or
    resolves one colour in every notation. *)
Lemma convertAll_cases (E : Env) (text : string) :
  (forall cache, exists l, convertAll E text cache = (Ret l, cache))
  \/ (exists color, forall cache,
        convertAll E text cache
        = mapM (fun fmt => formatColor E color fmt) formats cache).
Proof.
  assert (Hmap : forall color cache,
             try_catchM (mapM (fun fmt => formatColor E color fmt) formats)
               (fun _ => retM []) cache
             = mapM (fun fmt => formatColor E color fmt) formats cache).
  { intros color cache. unfold try_catchM.
    destruct (mapM_formatColor E color formats cache) as (l & c & Hl & _).
    now rewrite Hl. }
  unfold convertAll. destruct (String.eqb text "").
  { left. intros cache. now exists []. }
  destruct (startsWith "Figma P3" text).
  { right. eexists. intros cache. apply Hmap. }
  destruct (isP3HexFormat text).
  { right. eexists. intros cache. apply Hmap. }
  destruct (parse E text) as [[color|]|e].
  - right. exists color. intros cache. apply Hmap.
  - left. intros cache. now exists [].
  - left. intros cache. now exists [].
Qed.

Lemma formats_nonempty : formats <> [].
Proof. discriminate. Qed.

(** X2.  Resolving a colour touches the cache exactly as one detection
    of that colour does: whatever the notation, [formatColor],
    [getWarnings], [getFallback] and [detectColorSpaceAndFallback] leave
    the cache [detectColorSpace] leaves, which is the cache they started
    from or that cache with one more entry. *)
Theorem resolution_cache_effect (E : Env) (color : Color) (fmt : ColorFormat)
  (cc : ColorCache) (cache : Cache) :
  snd (formatColor E color fmt cache) = snd (detectColorSpace E color cache)
  /\ snd (getWarnings E color fmt cache) = snd (detectColorSpace E color cache)
  /\ snd (getFallback E color fmt cc cache)
     = snd (detectColorSpace E color cache)
  /\ snd (detectColorSpaceAndFallback E color cache)
     = snd (detectColorSpace E color cache)
  /\ at_most_one_entry cache (snd (detectColorSpace E color cache)).
Proof.
  split; [apply formatColor_cache|]. split.
  - unfold getWarnings, bindM.
    destruct (detectColorSpace_total E color cache) as (r & c1 & Hd).
    now rewrite Hd.
  - split; [apply getFallback_cache|].
    split; [apply detectColorSpaceAndFallback_cache|].
    apply detectColorSpace_one_entry.
Qed.

(** X3.  A search adds at most one entry to the cache and never drops or
    replaces one. *)
Theorem convertAll_cache_effect (E : Env) (text : string) (cache : Cache) :
  at_most_one_entry cache (snd (convertAll E text cache))
  /\ cache ⊆ snd (convertAll E text cache).
Proof.
  assert (H : at_most_one_entry cache (snd (convertAll E text cache))).
  { destruct (convertAll_cases E text) as [Hl | (color & Hc)].
    - destruct (Hl cache) as (l & ->). now left.
    - rewrite Hc, mapM_formatColor_cache by apply formats_nonempty.
      apply detectColorSpace_one_entry. }
  split; [exact H | now apply at_most_one_entry_subseteq].
Qed.

(** X4.  Searching the same text again gives the same records and leaves
    the cache as the first search left it. *)
Theorem convertAll_repeat (E : Env) (text : string) (cache : Cache) :
  convertAll E text (snd (convertAll E text cache)) = convertAll E text cache.
Proof.
  destruct (convertAll_cases E text) as [Hl | (color & Hc)].
  - destruct (Hl cache) as (l & H). rewrite H. cbn [snd]. exact H.
  - rewrite !Hc, mapM_formatColor_cache by apply formats_nonempty.
    rewrite mapM_formatColor_start.
    rewrite <- (mapM_formatColor_cache E color formats cache)
      by apply formats_nonempty.
    now destruct (mapM _ _ cache).
Qed.

(** X5.  When the cache keys tell the colours apart, a search keeps the
    cache consistent: every entry is still the report [classify]
    computes for the colour of its key. *)
Theorem convertAll_keeps_consistent (E : Env) (text : string) (cache : Cache) :
  keys_injective E ->
  cache_consistent E cache ->
  cache_consistent E (snd (convertAll E text cache)).
Proof.
  intros Hinj Hcons.
  destruct (convertAll_cases E text) as [Hl | (color & Hc)].
  - destruct (Hl cache) as (l & ->). exact Hcons.
  - rewrite Hc, mapM_formatColor_cache by apply formats_nonempty.
    destruct (detectColorSpace_total E color cache) as (r & c1 & Hd).
    rewrite Hd. cbn [snd]. now apply (detectColorSpace_preserves E color cache r).
Qed.

Lemma convertAll_keeps_consistent_witness :
  cache_consistent exact_env (snd (convertAll exact_env "#0a0a0a" ∅)).
Proof.
  apply (convertAll_keeps_consistent exact_env "#0a0a0a" ∅).
  - apply exact_env_keys_injective.
  - apply cache_consistent_empty.
Defined.

(** ** Reports and records *)

Lemma present_in_gamut_true (E : Env) (v : option Color) (epsilon : num) :
  present_in_gamut E v epsilon = Ret true -> is_Some v.
Proof. destruct v; [eauto | discriminate]. Qed.

Lemma classify_report_shape (E : Env) (color : Color) (report : ColorSpaceResult) :
  classify E color = Ret report -> report_shape report.
Proof.
  unfold classify, report_shape.
  destruct (getProxyColor E color) as [[proxy|]|e]; cbn [bind];
    [| intros [= <-]; cbn; intuition (discriminate || congruence)
     | discriminate].
  destruct (rgb E proxy) as [rgbV|e]; cbn [bind]; [|discriminate].
  destruct (present_in_gamut E rgbV EPSILON) as [[|]|e] eqn:HR; cbn [bind];
    [| | discriminate].
  - destruct (p3 E proxy) as [p3V|e]; cbn [bind]; [|discriminate].
    intros [= <-]. cbn. apply present_in_gamut_true in HR.
    intuition (discriminate || congruence).
  - destruct (p3 E proxy) as [p3V|e]; cbn [bind]; [|discriminate].
    destruct (present_in_gamut E p3V EPSILON) as [[|]|e] eqn:HP; cbn [bind];
      [| | discriminate]; intros [= <-]; cbn.
    + apply present_in_gamut_true in HP.
      intuition (discriminate || congruence).
    + intuition (discriminate || congruence).
Qed.

(** The spaces of a report detection returns on a consistent cache. *)
Lemma detected_report_spaces (E : Env) (color : Color) (cache : Cache)
  (report : ColorSpaceResult) (cache' : Cache) :
  cache_consistent E cache ->
  detectColorSpace E color cache = (Ret report, cache') ->
  csr_fallbackSpace report = Ssrgb /\ originalSpace report <> Srec2020.
Proof.
  intros Hcons Hd.
  assert (Hshape : report = detection_failed \/ report_shape report).
  { destruct (detectColorSpace_cases E color cache)
      as [(r & Hd' & Hk) | (key & r & Hk & Hc & Hr & Hd')];
      rewrite Hd in Hd'; injection Hd' as -> _.
    - destruct (cacheKey E color) as [key|e] eqn:Hkey.
      + destruct (Hk key eq_refl) as [Hhit | (_ & ->)]; [|now left].
        right. apply (classify_report_shape E color). eauto.
      + rewrite (detectColorSpace_key_throws E color cache e Hkey) in Hd.
        injection Hd as <-. now left.
    - right. now apply (classify_report_shape E color). }
  destruct Hshape as [-> | (H1 & H2 & _)];
    [split; [reflexivity | discriminate] | now split].
Qed.

(** X6.  On a cache that holds only reports of [classify], detection
    returns the report of its [catch] clause (and leaves the cache alone)
    or a report of the shape [classify] builds: the fallback space is
    [srgb], the space is never [rec2020], [inGamut] holds exactly when
    the space is not [out], a fallback is needed exactly when the space
    is not [srgb], and the projection into the reported space is
    present. *)
Theorem detectColorSpace_report_shape (E : Env) (color : Color) (cache : Cache) :
  cache_consistent E cache ->
  exists report cache',
    detectColorSpace E color cache = (Ret report, cache')
    /\ ((report = detection_failed /\ cache' = cache) \/ report_shape report).
Proof.
  intros Hcons.
  destruct (detectColorSpace_cases E color cache)
    as [(r & Hd & Hk) | (key & r & Hk & Hc & Hr & Hd)].
  - exists r, cache. split; [exact Hd|].
    destruct (cacheKey E color) as [key|e] eqn:Hkey.
    + destruct (Hk key eq_refl) as [Hhit | (_ & ->)]; [|now left].
      right. apply (classify_report_shape E color). eauto.
    + rewrite (detectColorSpace_key_throws E color cache e Hkey) in Hd.
      injection Hd as <-. now left.
  - eexists _, _. split; [exact Hd|]. right.
    now apply (classify_report_shape E color).
Qed.

Lemma detectColorSpace_report_shape_witness :
  exists report cache',
    detectColorSpace Fixture.env wide_color ∅ = (Ret report, cache')
    /\ ((report = detection_failed /\ cache' = ∅) \/ report_shape report).
Proof.
  apply (detectColorSpace_report_shape Fixture.env wide_color ∅).
  apply cache_consistent_empty.
Defined.

Section Records.

Variable E : Env.

(** The record the body of the [try] of [formatColor] returns. *)
Lemma formatColor_try_record color fmt cache d cache' :
  formatColor_try E color fmt cache = (Ret d, cache') ->
  exists report c1 previewRGB hex text,
    detectColorSpace E color cache = (Ret report, c1)
    /\ match rgbValues report with
       | Some c => previewRGB = c
       | None => findClosestInGamut E color = Ret previewRGB
       end
    /\ formatHexRGBA E previewRGB = Ret hex
    /\ d = mkColorData fmt text hex
             (if isSRGBFormat fmt then Ssrgb else originalSpace report)
             (if isSRGBFormat fmt then Ssrgb else csr_fallbackSpace report)
             (mkWarnings false
                (bool_decide (originalSpace report = Sout) && isSRGBFormat fmt)
                (bool_decide (originalSpace report = Sout)
                 && bool_decide (fmt ∈ [Fp3; Fvec; Flrgb]))).
Proof.
  unfold formatColor_try, bindM, lift, retM.
  destruct (detectColorSpace E color cache) as [[report|e] c1]; [|discriminate].
  destruct (match rgbValues report with Some c => _ | None => _ end)
    as [previewRGB|e] eqn:Hp; [|discriminate].
  destruct (formatHexRGBA E previewRGB) as [hex|e] eqn:Hh; [|discriminate].
  destruct (oklch E color) as [o|e]; [|discriminate].
  destruct (getFallback E color fmt _ c1) as [[text|e] c2]; [|discriminate].
  intros [= <- <-]. exists report, c1, previewRGB, hex, text.
  split; [reflexivity|]. split; [|split; [exact Hh | reflexivity]].
  destruct (rgbValues report); [now injection Hp | exact Hp].
Qed.

(** The two records [formatColor] can return on a consistent cache. *)
Lemma formatColor_record_cases color fmt cache :
  cache_consistent E cache ->
  exists d cache',
    formatColor E color fmt cache = (Ret d, cache')
    /\ (d = invalid_color fmt
        \/ exists text hex sp,
             sp <> Srec2020
             /\ d = mkColorData fmt text hex
                      (if isSRGBFormat fmt then Ssrgb else sp) Ssrgb
                      (mkWarnings false
                         (bool_decide (sp = Sout) && isSRGBFormat fmt)
                         (bool_decide (sp = Sout)
                          && bool_decide (fmt ∈ [Fp3; Fvec; Flrgb])))).
Proof.
  intros Hcons.
  destruct (formatColor_total E color fmt cache) as (d & c2 & Hf & [Ht|Hi]).
  - exists d, c2. split; [exact Hf|]. right.
    apply formatColor_try_record in Ht
      as (report & c1 & previewRGB & hex & text & Hd & _ & _ & ->).
    destruct (detected_report_spaces E color cache report c1 Hcons Hd)
      as (Hfb & Hne).
    exists text, hex, (originalSpace report). split; [exact Hne|].
    rewrite Hfb. now destruct (isSRGBFormat fmt).
  - exists d, c2. split; [exact Hf | now left].
Qed.

End Records.

(** X7.  On a consistent cache [formatColor] returns a record for the
    requested notation whose fallback space is [srgb], whose gamut is
    never [rec2020] and whose [unsupported] flag is never set.  Unless
    it is the record of the [catch] clause, an sRGB-native notation
    reports the gamut [srgb], the fallback flag is set for sRGB-native
    notations only, the out-of-gamut flag is set only on the gamut [out]
    for [p3], [vec] and [lrgb], and the two flags are never set
    together. *)
Theorem formatColor_record_shape (E : Env) (color : Color) (fmt : ColorFormat)
  (cache : Cache) :
  cache_consistent E cache ->
  exists d cache',
    formatColor E color fmt cache = (Ret d, cache')
    /\ format d = fmt
    /\ unsupported (warnings d) = false
    /\ fallbackSpace d = Ssrgb
    /\ gamut d <> Srec2020
    /\ (d = invalid_color fmt
        \/ ((isSRGBFormat fmt = true -> gamut d = Ssrgb)
            /\ (fallback (warnings d) = true -> isSRGBFormat fmt = true)
            /\ (outOfGamut (warnings d) = true ->
                gamut d = Sout /\ fmt ∈ [Fp3; Fvec; Flrgb])
            /\ (fallback (warnings d) = true ->
                outOfGamut (warnings d) = false))).
Proof.
  intros Hcons.
  destruct (formatColor_record_cases E color fmt cache Hcons)
    as (d & c & Hf & [-> | (text & hex & sp & Hne & ->)]);
    eexists; exists c; (split; [exact Hf|]).
  - repeat (split; [reflexivity || discriminate|]). now left.
  - cbn [format warnings unsupported fallbackSpace gamut fallback outOfGamut].
    split; [reflexivity|]. split; [reflexivity|]. split; [reflexivity|].
    split; [destruct (isSRGBFormat fmt); [discriminate | exact Hne]|].
    right. destruct sp; try contradiction; destruct fmt; vm_compute;
      repeat split; intros; try discriminate; try reflexivity;
      repeat constructor.
Qed.

Lemma formatColor_record_shape_witness :
  exists d cache',
    formatColor Fixture.env far_color Fp3 ∅ = (Ret d, cache')
    /\ format d = Fp3
    /\ unsupported (warnings d) = false
    /\ fallbackSpace d = Ssrgb
    /\ gamut d <> Srec2020
    /\ (d = invalid_color Fp3
        \/ ((isSRGBFormat Fp3 = true -> gamut d = Ssrgb)
            /\ (fallback (warnings d) = true -> isSRGBFormat Fp3 = true)
            /\ (outOfGamut (warnings d) = true ->
                gamut d = Sout /\ Fp3 ∈ [Fp3; Fvec; Flrgb])
            /\ (fallback (warnings d) = true ->
                outOfGamut (warnings d) = false))).
Proof.
  apply (formatColor_record_shape Fixture.env far_color Fp3 ∅).
  apply cache_consistent_empty.
Defined.

(** Refutes a membership [H] in a list of constructors. *)
Ltac not_listed H :=
  repeat (apply elem_of_cons in H as [H|H]; [discriminate H|]);
  now apply elem_of_nil in H.

(** X8.  What the list shows beside a record that [formatColor] built on
    a consistent cache.  The first accessory is one of [srgb], [p3],
    [out of p3] and [fallback in srgb]; for an sRGB-native notation it
    is [srgb] or [fallback in srgb].  A second accessory is shown
    exactly when a warning flag is set, and it is [Using P3 fallback] or
    [Using fallback] with the tooltip [Original color converted to
    srgb]; the notations [oklch], [oklab] and [figmaP3] get none unless
    the record is the one of the [catch] clause. *)
Theorem accessories_labels (E : Env) (color : Color) (fmt : ColorFormat)
  (cache : Cache) :
  cache_consistent E cache ->
  exists d cache' label rest,
    formatColor E color fmt cache = (Ret d, cache')
    /\ accessories d = mkAccessory label false None :: rest
    /\ label ∈ ["srgb"; "p3"; "out of p3"; "fallback in srgb"]
    /\ (isSRGBFormat fmt = true -> label ∈ ["srgb"; "fallback in srgb"])
    /\ rest ∈ [ [];
                [mkAccessory "Using P3 fallback" true
                   (Some "Color is outside P3 gamut, using closest P3 value")];
                [mkAccessory "Using fallback" true
                   (Some "Original color converted to srgb")] ]
    /\ (rest = [] <->
        fallback (warnings d) = false /\ outOfGamut (warnings d) = false)
    /\ (fmt ∈ [Foklch; Foklab; FfigmaP3] -> d <> invalid_color fmt ->
        rest = []).
Proof.
  intros Hcons.
  destruct (formatColor_record_cases E color fmt cache Hcons)
    as (d & c & Hf & [-> | (text & hex & sp & Hne & ->)]);
    eexists; exists c; eexists _, _; (split; [exact Hf|]);
    (split; [reflexivity|]).
  - cbn. split; [repeat constructor|]. split; [intros _; repeat constructor|].
    split; [repeat constructor|].
    split; [split; [discriminate | intros [[=] _]] | congruence].
  - destruct sp; try contradiction; destruct fmt; vm_compute;
      (split; [repeat constructor|]);
      (split; [intros H; try discriminate H; repeat constructor|]);
      (split; [repeat constructor|]);
      (split; [split; [intros H; try discriminate H; split; reflexivity
                      | intros [H1 H2]; try discriminate; reflexivity]|]);
      intros H _; try reflexivity; exfalso; not_listed H.
Qed.

Lemma accessories_labels_witness :
  exists d cache' label rest,
    formatColor Fixture.env far_color Fp3 ∅ = (Ret d, cache')
    /\ accessories d = mkAccessory label false None :: rest
    /\ label ∈ ["srgb"; "p3"; "out of p3"; "fallback in srgb"]
    /\ (isSRGBFormat Fp3 = true -> label ∈ ["srgb"; "fallback in srgb"])
    /\ rest ∈ [ [];
                [mkAccessory "Using P3 fallback" true
                   (Some "Color is outside P3 gamut, using closest P3 value")];
                [mkAccessory "Using fallback" true
                   (Some "Original color converted to srgb")] ]
    /\ (rest = [] <->
        fallback (warnings d) = false /\ outOfGamut (warnings d) = false)
    /\ (Fp3 ∈ [Foklch; Foklab; FfigmaP3] -> d <> invalid_color Fp3 ->
        rest = []).
Proof.
  apply (accessories_labels Fixture.env far_color Fp3 ∅).
  apply cache_consistent_empty.
Defined.

(** ** Bytes and hexadecimal digits *)

Lemma ascii_forall (p : ascii -> bool) :
  forallb (fun n => p (ascii_of_nat n)) (List.seq 0 256) = true ->
  forall c, p c = true.
Proof.
  intros H c. rewrite <- (ascii_nat_embedding c).
  apply (proj1 (forallb_forall _ _) H). apply in_seq.
  pose proof (nat_ascii_bounded c). lia.
Qed.

Lemma hex_digit_ok_all (c : ascii) : hex_digit_ok c = true.
Proof. revert c. apply ascii_forall. vm_compute. reflexivity. Qed.

Lemma hex_pair_ok_all (c1 c2 : ascii) : hex_pair_ok c1 c2 = true.
Proof.
  destruct (is_hex_digit c1) eqn:H1;
    [|unfold hex_pair_ok; now rewrite H1].
  revert c2. apply ascii_forall.
  pose proof (ascii_forall
                (fun c1 => if is_hex_digit c1 then
                             forallb (fun n => hex_pair_ok c1 (ascii_of_nat n))
                               (List.seq 0 256)
                           else true)) as H.
  cbv beta in H. specialize (H ltac:(vm_compute; reflexivity) c1).
  now rewrite H1 in H.
Qed.

Lemma requantise_ok_all : forallb requantise_ok (List.seq 0 256) = true.
Proof. vm_compute. reflexivity. Qed.

Lemma orange_ok_all : forallb orange_ok (List.seq 0 256) = true.
Proof. vm_compute. reflexivity. Qed.

Lemma byte_forall (p : nat -> bool) (k : Z) :
  forallb p (List.seq 0 256) = true ->
  (0 <= k <= 255)%Z -> p (Z.to_nat k) = true.
Proof.
  intros H Hk. apply (proj1 (forallb_forall _ _) H). apply in_seq. lia.
Qed.

Lemma hex_digit_facts (c : ascii) :
  is_hex_digit c = true ->
  is_space c = false /\ (0 <= hex_digit_value c <= 15)%Z.
Proof.
  intros H. pose proof (hex_digit_ok_all c) as Hok. unfold hex_digit_ok in Hok.
  rewrite H in Hok. apply andb_true_iff in Hok as [Hok H15].
  apply andb_true_iff in Hok as [Hs H0].
  apply negb_true_iff in Hs. split; [exact Hs|]. lia.
Qed.

Lemma hex_pair_range (c1 c2 : ascii) :
  is_hex_digit c1 = true -> is_hex_digit c2 = true ->
  (0 <= parseInt16_acc 0 (String c1 (String c2 "")) <= 255)%Z.
Proof.
  intros H1 H2. apply hex_digit_facts in H1 as [_ H1], H2 as [_ H2].
  cbn [parseInt16_acc]. lia.
Qed.

Lemma hex_pair_text (c1 c2 : ascii) :
  is_hex_digit c1 = true -> is_hex_digit c2 = true ->
  hex_byte (parseInt16_acc 0 (String c1 (String c2 "")))
  = String (upper_char c1) (String (upper_char c2) "").
Proof.
  intros H1 H2. pose proof (hex_pair_ok_all c1 c2) as H.
  unfold hex_pair_ok in H. rewrite H1, H2 in H. now apply String.eqb_eq.
Qed.

(** Rounding a byte divided by 255 gives the byte back, also after the
    clamp to [[0, 1.6]]. *)
Lemma requantise (k : Z) :
  (0 <= k <= 255)%Z ->
  Math_round (Math_max #0 (Math_min #1 (Fin (inject_Z k) / #255)) * #255)%num
  = Fin (inject_Z k)
  /\ Math_round (Math_max #0 (Math_min #1
                   (Math_max #0 (Math_min #1.6 (Fin (inject_Z k) / #255))))
                 * #255)%num
     = Fin (inject_Z k).
Proof.
  intros Hk. pose proof (byte_forall _ k requantise_ok_all Hk) as H.
  unfold requantise_ok in H. rewrite Z2Nat.id in H by lia.
  destruct (Math_round (Math_max #0 (Math_min #1 (Fin (inject_Z k) / #255))
                        * #255)%num) as [[n d]|]; [|discriminate].
  destruct (Math_round _) as [[n' d']|]; [|discriminate].
  cbn [Qnum Qden] in H. rewrite !andb_true_iff in H.
  destruct H as [[[Hn Hd] Hn'] Hd'].
  apply Z.eqb_eq in Hn, Hn'. apply Pos.eqb_eq in Hd, Hd'. subst.
  split; reflexivity.
Qed.

Lemma toString16_byte (k : Z) : toString16 (Fin (inject_Z k)) = Z_to_string 16 k.
Proof. unfold toString16. now rewrite Qfloor_Z. Qed.

(** [toHex] writes a byte divided by 255 as that byte. *)
Lemma toHex_byte (k : Z) :
  (0 <= k <= 255)%Z ->
  toHex (Fin (inject_Z k) / #255)%num = hex_byte k
  /\ toHex (Math_max #0 (Math_min #1.6 (Fin (inject_Z k) / #255)))%num
     = hex_byte k.
Proof.
  intros Hk. destruct (requantise k Hk) as [H1 H2].
  unfold toHex. rewrite H1, H2, toString16_byte. split; reflexivity.
Qed.

(** ** Reading [Figma P3 #RRGGBBAA] *)

Lemma substring_full (s : string) : substring 0 (String.length s) s = s.
Proof. induction s as [|c s IH]; cbn [String.length substring]; congruence. Qed.

Lemma all_chars_impl (p q : ascii -> bool) (s : string) :
  (forall c, p c = true -> q c = true) ->
  all_chars p s = true -> all_chars q s = true.
Proof.
  intros Hpq. induction s as [|c s IH]; cbn [all_chars]; [reflexivity|].
  rewrite !andb_true_iff. intros [Hc Hs]. auto.
Qed.

Lemma trimStart_id (c : ascii) (s : string) :
  is_space c = false -> trimStart (String c s) = String c s.
Proof. intros H. cbn [trimStart]. now rewrite H. Qed.

Lemma trimEnd_id (s : string) :
  all_chars (fun c => negb (is_space c)) s = true -> trimEnd s = s.
Proof.
  induction s as [|c s IH]; cbn [all_chars trimEnd]; [reflexivity|].
  rewrite andb_true_iff, negb_true_iff. intros [Hc Hs].
  rewrite (IH Hs). destruct s; [now rewrite Hc | reflexivity].
Qed.

(** [trim] leaves a text without white space as it is. *)
Lemma trim_id (s : string) :
  all_chars (fun c => negb (is_space c)) s = true -> trim s = s.
Proof.
  intros H. unfold trim. destruct s as [|c s]; [reflexivity|].
  pose proof H as H'. cbn [all_chars] in H'.
  apply andb_true_iff in H' as [Hc _]. apply negb_true_iff in Hc.
  rewrite trimStart_id by exact Hc. now apply trimEnd_id.
Qed.

Lemma hex_no_space (s : string) :
  all_chars is_hex_digit s = true ->
  all_chars (fun c => negb (is_space c)) s = true.
Proof.
  apply all_chars_impl. intros c H.
  apply hex_digit_facts in H as [H _]. now rewrite H.
Qed.

Lemma length8_inv (s : string) :
  String.length s = 8%nat ->
  exists c1 c2 c3 c4 c5 c6 c7 c8,
    s = String c1 (String c2 (String c3 (String c4
          (String c5 (String c6 (String c7 (String c8 ""))))))).
Proof.
  do 8 (destruct s as [|? s]; [discriminate|]).
  destruct s; [|discriminate]. intros _. eauto 10.
Qed.

(** A text that passes [/^#[0-9A-F]{8}$/i]. *)
Lemma is_hash_hex8_inv (s : string) :
  is_hash_hex8 s = true ->
  exists ds, s = String "#" ds /\ String.length ds = 8%nat
             /\ all_chars is_hex_digit ds = true.
Proof.
  destruct s as [|c ds]; [discriminate|]. unfold is_hash_hex8.
  destruct c as [[] [] [] [] [] [] [] []]; try discriminate.
  rewrite andb_true_iff, Nat.eqb_eq. intros [Hl Hc]. eauto.
Qed.

(** The colour [processFigmaP3] builds from eight hexadecimal digits. *)
Lemma processFigmaP3_parsed (text : string) (c1 c2 c3 c4 c5 c6 c7 c8 : ascii) :
  startsWith "Figma P3" text = true ->
  trim (strip_figma_prefix text)
  = String "#" (String c1 (String c2 (String c3 (String c4
      (String c5 (String c6 (String c7 (String c8 "")))))))) ->
  all_chars is_hex_digit
    (String c1 (String c2 (String c3 (String c4
       (String c5 (String c6 (String c7 (String c8 "")))))))) = true ->
  processFigmaP3 text
  = mkColor Mp3
      (Some (Fin (inject_Z (parseInt16_acc 0 (String c1 (String c2 ""))))
             / #255)%num)
      (Some (Fin (inject_Z (parseInt16_acc 0 (String c3 (String c4 ""))))
             / #255)%num)
      (Some (Fin (inject_Z (parseInt16_acc 0 (String c5 (String c6 ""))))
             / #255)%num)
      (Some (Fin (inject_Z (parseInt16_acc 0 (String c7 (String c8 ""))))
             / #255)%num).
Proof.
  intros Hs Ht Hc. unfold processFigmaP3. rewrite Hs, Ht.
  unfold is_hash_hex8. rewrite Hc. reflexivity.
Qed.

Lemma byte_fraction_byte (k : Z) :
  (0 <= k <= 255)%Z -> byte_fraction (Some (Fin (inject_Z k) / #255)%num).
Proof. intros Hk. exists k, (inject_Z k / 255). repeat split; lia || reflexivity. Qed.



Lemma eqb6 (a b c d e f a' b' c' d' e' f' : ascii) :
  String.eqb (String a (String b (String c (String d (String e (String f ""))))))
    (String a' (String b' (String c' (String d' (String e' (String f' ""))))))
  = String.eqb (String a (String b "")) (String a' (String b' ""))
    && String.eqb (String c (String d "")) (String c' (String d' ""))
    && String.eqb (String e (String f "")) (String e' (String f' "")).
Proof.
  cbn [String.eqb].
  destruct (Ascii.eqb a a'), (Ascii.eqb b b'), (Ascii.eqb c c'),
    (Ascii.eqb d d'), (Ascii.eqb e e'), (Ascii.eqb f f'); reflexivity.
Qed.

(** The hard-coded branch of [formatFigmaP3] on a colour read from
    bytes: it is taken exactly on the bytes [FF], [80], [00]. *)
Lemma is_reference_orange_bytes (k1 k2 k3 : Z) (a : option num) :
  (0 <= k1 <= 255)%Z -> (0 <= k2 <= 255)%Z -> (0 <= k3 <= 255)%Z ->
  is_reference_orange
    (mkColor Mp3 (Some (Fin (inject_Z k1) / #255)%num)
       (Some (Fin (inject_Z k2) / #255)%num)
       (Some (Fin (inject_Z k3) / #255)%num) a)
  = String.eqb (hex_byte k1) "FF" && String.eqb (hex_byte k2) "80"
    && String.eqb (hex_byte k3) "00".
Proof.
  intros H1 H2 H3.
  pose proof (byte_forall _ k1 orange_ok_all H1) as O1.
  pose proof (byte_forall _ k2 orange_ok_all H2) as O2.
  pose proof (byte_forall _ k3 orange_ok_all H3) as O3.
  unfold orange_ok in O1, O2, O3. rewrite Z2Nat.id in O1, O2, O3 by lia.
  rewrite !andb_true_iff in O1, O2, O3.
  destruct O1 as [[O1 _] _], O2 as [[_ O2] _], O3 as [_ O3].
  apply eqb_prop in O1, O2, O3.
  change (is_reference_orange
            (mkColor Mp3 (Some (Fin (inject_Z k1) / #255)%num)
               (Some (Fin (inject_Z k2) / #255)%num)
               (Some (Fin (inject_Z k3) / #255)%num) a))
    with (true
          && (Math_abs (toNum (Some (Fin (inject_Z k1) / #255)) - #1)
              <? #0.001)%num
          && (Math_abs (toNum (Some (Fin (inject_Z k2) / #255)) - #0.502)
              <? #0.001)%num
          && (toNum (Some (Fin (inject_Z k3) / #255)) <? #0.001)%num).
  now rewrite O1, O2, O3.
Qed.

(** X10.  The round trip of the Figma P3 notation.  For eight
    hexadecimal digits [ds], the colour read from [Figma P3 #ds] is
    written back by [formatFigmaP3] (and by [getFallback_choose] for the
    notation [figmaP3]) as [#] and the same digits in upper case, when
    the P3 converter returns a P3 colour unchanged; except that digits
    beginning with [FF8000] are written as [#FF8000FF], whatever the two
    alpha digits are. *)
Theorem figmaP3_round_trip (E : Env) (ds : string) :
  String.length ds = 8%nat ->
  all_chars is_hex_digit ds = true ->
  p3 E (processFigmaP3 ("Figma P3 #" ++ ds))
  = Ret (Some (processFigmaP3 ("Figma P3 #" ++ ds))) ->
  formatFigmaP3 E (processFigmaP3 ("Figma P3 #" ++ ds))
  = Ret (if String.eqb (toUpperCase (substring 0 6 ds)) "FF8000"
         then "#FF8000FF" else "#" ++ toUpperCase ds)
  /\ forall cc result,
       getFallback_choose E (processFigmaP3 ("Figma P3 #" ++ ds)) FfigmaP3
         cc result
       = formatFigmaP3 E (processFigmaP3 ("Figma P3 #" ++ ds)).
Proof.
  intros Hl Hc.
  assert (Ht : trim (strip_figma_prefix ("Figma P3 #" ++ ds)) = String "#" ds).
  { change (strip_figma_prefix ("Figma P3 #" ++ ds))
      with (String "#" (substring 0 (String.length ds) ds)).
    rewrite substring_full. apply trim_id.
    cbn [all_chars]. now rewrite hex_no_space. }
  pose proof Hl as Hl'.
  apply length8_inv in Hl' as (c1 & c2 & c3 & c4 & c5 & c6 & c7 & c8 & ->).
  assert (Hs : startsWith "Figma P3"
                 ("Figma P3 #" ++ String c1 (String c2 (String c3 (String c4
                    (String c5 (String c6 (String c7 (String c8 "")))))))) = true)
    by reflexivity.
  rewrite (processFigmaP3_parsed _ c1 c2 c3 c4 c5 c6 c7 c8 Hs Ht Hc).
  clear Hs. cbn [all_chars] in Hc. rewrite !andb_true_iff in Hc.
  destruct Hc as (H1 & H2 & H3 & H4 & H5 & H6 & H7 & H8 & _).
  pose proof (hex_pair_range c1 c2 H1 H2) as R1.
  pose proof (hex_pair_range c3 c4 H3 H4) as R2.
  pose proof (hex_pair_range c5 c6 H5 H6) as R3.
  pose proof (hex_pair_range c7 c8 H7 H8) as R4.
  pose proof (hex_pair_text c1 c2 H1 H2) as T1.
  pose proof (hex_pair_text c3 c4 H3 H4) as T2.
  pose proof (hex_pair_text c5 c6 H5 H6) as T3.
  pose proof (hex_pair_text c7 c8 H7 H8) as T4.
  set (k1 := parseInt16_acc 0 (String c1 (String c2 ""))) in *.
  set (k2 := parseInt16_acc 0 (String c3 (String c4 ""))) in *.
  set (k3 := parseInt16_acc 0 (String c5 (String c6 ""))) in *.
  set (k4 := parseInt16_acc 0 (String c7 (String c8 ""))) in *.
  intros Hp3. split; [|intros cc result; reflexivity].
  unfold formatFigmaP3.
  rewrite (is_reference_orange_bytes k1 k2 k3 _ R1 R2 R3), T1, T2, T3.
  change (toUpperCase (substring 0 6 _))
    with (String (upper_char c1) (String (upper_char c2)
            (String (upper_char c3) (String (upper_char c4)
               (String (upper_char c5) (String (upper_char c6) "")))))).
  rewrite eqb6.
  destruct (_ && _ && _); [reflexivity|].
  rewrite Hp3. cbn [bind]. f_equal.
  change (figmaP3_text _)
    with ("#" ++ toHex (Math_max #0 (Math_min #1.6 (Fin (inject_Z k1) / #255)))
              ++ toHex (Math_max #0 (Math_min #1.6 (Fin (inject_Z k2) / #255)))
              ++ toHex (Math_max #0 (Math_min #1.6 (Fin (inject_Z k3) / #255)))
              ++ toHex (Fin (inject_Z k4) / #255))%num.
  rewrite (proj2 (toHex_byte k1 R1)), (proj2 (toHex_byte k2 R2)),
    (proj2 (toHex_byte k3 R3)), (proj1 (toHex_byte k4 R4)), T1, T2, T3, T4.
  reflexivity.
Qed.

Lemma figmaP3_round_trip_witness :
  formatFigmaP3 Fixture.env (processFigmaP3 "Figma P3 #ff8100c0")
  = Ret "#FF8100C0"
  /\ forall cc result,
       getFallback_choose Fixture.env (processFigmaP3 "Figma P3 #ff8100c0")
         FfigmaP3 cc result
       = formatFigmaP3 Fixture.env (processFigmaP3 "Figma P3 #ff8100c0").
Proof.
  apply (figmaP3_round_trip Fixture.env "ff8100c0"); reflexivity.
Defined.

(** X11.  A bare [#RRGGBBAA] is read as Figma P3: the command gives for
    it what it gives for the same text behind [Figma P3 ], in every
    environment (the parser is not consulted). *)
Theorem bare_hex_is_figmaP3 (E : Env) (text : string) (cache : Cache) :
  isP3HexFormat text = true ->
  convertAll E text cache = convertAll E ("Figma P3 " ++ text) cache.
Proof.
  intros H. unfold convertAll. rewrite H.
  apply is_hash_hex8_inv in H as (ds & -> & _ & _). reflexivity.
Qed.

Lemma bare_hex_is_figmaP3_witness :
  convertAll Fixture.env "#FF810080" ∅
  = convertAll Fixture.env "Figma P3 #FF810080" ∅.
Proof.
  apply (bare_hex_is_figmaP3 Fixture.env "#FF810080" ∅). reflexivity.
Defined.

(** ** Hexadecimal texts *)

Lemma floor_unique (x : Q) (k : Z) :
  inject_Z k <= x -> x < inject_Z k + 1 -> Qfloor x = k.
Proof.
  intros Hlo Hhi.
  pose proof (Qfloor_le x) as H1. pose proof (Qlt_floor x) as H2.
  assert (Ha : (Qfloor x < k + 1)%Z).
  { rewrite Zlt_Qlt, inject_Z_plus. change (inject_Z 1) with 1. lra. }
  assert (Hb : (k < Qfloor x + 1)%Z).
  { rewrite Zlt_Qlt. rewrite inject_Z_plus in H2 |- *.
    change (inject_Z 1) with 1 in *. lra. }
  lia.
Qed.

Lemma clamp01_spec (q : Q) :
  0 <= clamp01 q <= 1
  /\ (q <= 0 -> clamp01 q == 0)
  /\ (1 <= q -> clamp01 q == 1)
  /\ (0 <= q <= 1 -> clamp01 q == q).
Proof.
  unfold clamp01. destruct (Qle_bool 1 q) eqn:H1.
  - apply Qle_bool_iff in H1. change (Qle_bool 0 1) with true. cbv iota.
    repeat split; intros; lra.
  - assert (Hlt : q < 1).
    { apply Qnot_le_lt. intros H. apply Qle_bool_iff in H. congruence. }
    destruct (Qle_bool 0 q) eqn:H0.
    + apply Qle_bool_iff in H0. repeat split; intros; lra.
    + assert (Hneg : q < 0).
      { apply Qnot_le_lt. intros H. apply Qle_bool_iff in H. congruence. }
      repeat split; intros; lra.
Qed.

Lemma toHex_byte_of (q : Q) : toHex #q = hex_byte (byte_of q).
Proof.
  unfold toHex, hex_byte, byte_of, clamp01, Math_round, Math_max, Math_min,
    num_mul, lift1, lift2, toString16.
  now rewrite Qfloor_Z.
Qed.

Lemma byte_of_range (q : Q) : (0 <= byte_of q <= 255)%Z.
Proof.
  unfold byte_of. destruct (clamp01_spec q) as (Hc & _). split.
  - apply (Qfloor_resp_le 0.5). lra.
  - apply (Qfloor_resp_le _ 255.5). lra.
Qed.

Lemma toHex_shape (q : Q) :
  String.length (toHex #q) = 2%nat /\ all_chars is_upper_hex (toHex #q) = true.
Proof. rewrite toHex_byte_of. apply hex_byte_shape, byte_of_range. Qed.

Lemma toHex_high (q : Q) : 1 <= q -> toHex #q = "FF".
Proof.
  intros H. rewrite toHex_byte_of.
  destruct (clamp01_spec q) as (_ & _ & Hhigh & _). specialize (Hhigh H).
  replace (byte_of q) with 255%Z; [reflexivity|]. symmetry.
  apply floor_unique; change (inject_Z 255) with 255; lra.
Qed.

(** X12.  [toHex] writes every number as one byte in two upper-case
    hexadecimal digits: [00] for a number at or below 0, [FF] for a
    number at or above 1, the byte [k] for [k/255], and a larger byte
    for a larger number. *)
Theorem toHex_clamps (q : Q) :
  (0 <= byte_of q <= 255)%Z
  /\ toHex #q = hex_byte (byte_of q)
  /\ String.length (toHex #q) = 2%nat
  /\ all_chars is_upper_hex (toHex #q) = true
  /\ (q <= 0 -> toHex #q = "00")
  /\ (1 <= q -> toHex #q = "FF")
  /\ (forall k, (0 <= k <= 255)%Z -> q == inject_Z k / 255 -> byte_of q = k)
  /\ (forall q', q <= q' -> (byte_of q <= byte_of q')%Z).
Proof.
  pose proof (byte_of_range q) as Hr.
  destruct (hex_byte_shape _ Hr) as (Hl & Hu).
  destruct (clamp01_spec q) as (Hc & Hlow & Hhigh & Hmid).
  rewrite toHex_byte_of.
  split; [exact Hr|]. split; [reflexivity|]. split; [exact Hl|].
  split; [exact Hu|]. split; [|split; [|split]].
  - intros H. specialize (Hlow H).
    replace (byte_of q) with 0%Z; [reflexivity|]. symmetry.
    apply floor_unique; change (inject_Z 0) with 0; lra.
  - intros H. specialize (Hhigh H).
    replace (byte_of q) with 255%Z; [reflexivity|]. symmetry.
    apply floor_unique; change (inject_Z 255) with 255; lra.
  - intros k Hk Hq.
    destruct Hk as [H0 H1]. rewrite Zle_Qle in H0, H1.
    change (inject_Z 0) with 0 in H0. change (inject_Z 255) with 255 in H1.
    assert (Hq' : q * 255 == inject_Z k) by (rewrite Hq; field).
    assert (Hin : 0 <= q <= 1) by (split; lra).
    specialize (Hmid Hin). apply floor_unique; lra.
  - intros q' Hle. unfold byte_of. apply Qfloor_resp_le.
    destruct (clamp01_spec q') as (Hc' & Hlow' & Hhigh' & Hmid').
    assert (clamp01 q <= clamp01 q'); [|lra].
    destruct (Qlt_le_dec q 0) as [Hq0|Hq0].
    { assert (clamp01 q == 0) by (apply Hlow; lra). lra. }
    destruct (Qlt_le_dec 1 q') as [Hq1|Hq1].
    { assert (clamp01 q' == 1) by (apply Hhigh'; lra). lra. }
    assert (clamp01 q == q) by (apply Hmid; split; lra).
    assert (clamp01 q' == q') by (apply Hmid'; split; lra). lra.
Qed.

Lemma toHex_clamps_witness :
  toHex #(-0.25) = "00" /\ toHex #1.25 = "FF"
  /\ byte_of (inject_Z 128 / 255) = 128%Z
  /\ (byte_of 0.25 <= byte_of 0.75)%Z.
Proof.
  split; [apply (toHex_clamps (-0.25)); lra|].
  split; [apply (toHex_clamps 1.25); lra|].
  split; [apply (toHex_clamps (inject_Z 128 / 255)); [lia | reflexivity]|].
  apply (toHex_clamps 0.25). lra.
Defined.

Lemma append_assoc3 (a b c : string) : (a ++ b) ++ c = a ++ b ++ c.
Proof.
  induction a as [|x a IH]; [reflexivity|].
  change ((String x a ++ b) ++ c) with (String x ((a ++ b) ++ c)).
  change (String x a ++ b ++ c) with (String x (a ++ b ++ c)).
  now rewrite IH.
Qed.

Lemma append_assoc4 (a b c d : string) :
  (a ++ b ++ c) ++ d = a ++ b ++ c ++ d.
Proof. now rewrite !append_assoc3. Qed.

(** X13.  The two hexadecimal notations of a colour whose RGB conversion
    has numeric channels: [formatHex] gives [#] and six upper-case
    hexadecimal digits, [formatHexRGBA] gives the same text followed by
    the two digits of alpha, which are [FF] when the colour has no alpha
    or an alpha of 1 or more. *)
Theorem hex_texts (E : Env) (color c : Color) (r g b : Q) :
  rgb E color = Ret (Some c) ->
  c.["r"] = Some #r -> c.["g"] = Some #g -> c.["b"] = Some #b ->
  exists h a,
    formatHex E color = Ret ("#" ++ h)
    /\ formatHexRGBA E color = Ret ("#" ++ h ++ a)
    /\ String.length h = 6%nat
    /\ all_chars is_upper_hex h = true
    /\ a = toHex (default #1 (alpha c))
    /\ (alpha c = None -> a = "FF")
    /\ (forall q, alpha c = Some #q ->
          String.length a = 2%nat /\ all_chars is_upper_hex a = true
          /\ (1 <= q -> a = "FF")).
Proof.
  intros Hc Hr Hg Hb.
  exists (toHex #r ++ toHex #g ++ toHex #b), (toHex (default #1 (alpha c))).
  unfold formatHex, formatHexRGBA. rewrite Hc. cbn [bind].
  rewrite Hr, Hg, Hb. cbn [toNum].
  destruct (toHex_shape r) as (Lr & Ur).
  destruct (toHex_shape g) as (Lg & Ug).
  destruct (toHex_shape b) as (Lb & Ub).
  split; [reflexivity|]. split; [now rewrite append_assoc4|].
  split; [now rewrite !length_append, Lr, Lg, Lb|].
  split; [now rewrite !all_chars_app, Ur, Ug, Ub|].
  split; [reflexivity|]. split.
  - intros ->. reflexivity.
  - intros q ->. cbn [default].
    destruct (toHex_shape q) as (Lq & Uq).
    pose proof (toHex_high q) as Hff. auto.
Qed.

Lemma hex_texts_witness :
  exists h a,
    formatHex Fixture.env (orange_rgb (Some #0.5)) = Ret ("#" ++ h)
    /\ formatHexRGBA Fixture.env (orange_rgb (Some #0.5)) = Ret ("#" ++ h ++ a)
    /\ String.length h = 6%nat
    /\ all_chars is_upper_hex h = true
    /\ a = toHex (default #1 (alpha (orange_rgb (Some #0.5))))
    /\ (alpha (orange_rgb (Some #0.5)) = None -> a = "FF")
    /\ (forall q, alpha (orange_rgb (Some #0.5)) = Some #q ->
          String.length a = 2%nat /\ all_chars is_upper_hex a = true
          /\ (1 <= q -> a = "FF")).
Proof.
  apply (hex_texts Fixture.env (orange_rgb (Some #0.5))
           (orange_rgb (Some #0.5)) (255 / 255) (126 / 255) (0 / 255));
    reflexivity.
Defined.

(** ** The quantisation of [toRgb] *)

Lemma Math_round_byte (q : Q) :
  Math_round (Math_max #0 (Math_min #1 #q) * #255)%num
  = Fin (inject_Z (byte_of q)).
Proof. reflexivity. Qed.

(** Quantising twice is quantising once. *)
Lemma quantise_idem (v : option num) :
  Math_round (Math_max #0 (Math_min #1 (toNum (quantise v))) * #255)%num
  = Math_round (Math_max #0 (Math_min #1 (toNum v)) * #255)%num.
Proof.
  unfold quantise. cbn [toNum]. destruct (toNum v) as [q|]; [|reflexivity].
  rewrite Math_round_byte.
  apply (proj1 (requantise _ (byte_of_range q))).
Qed.

Lemma quantise_byte (q : Q) : byte_fraction (quantise (Some #q)).
Proof.
  unfold quantise. cbn [toNum]. rewrite Math_round_byte.
  apply byte_fraction_byte, byte_of_range.
Qed.

Lemma byte_fraction_unit (v : option num) :
  byte_fraction v -> in_interval (- 0.000001) (1 + 0.000001) v.
Proof.
  intros (k & q & Hk & -> & Hq). unfold in_interval. cbn [default].
  destruct Hk as [H0 H255]. rewrite Zle_Qle in H0, H255.
  change (inject_Z 0) with 0 in H0. change (inject_Z 255) with 255 in H255.
  assert (Hq' : q * 255 == inject_Z k) by (rewrite Hq; field).
  split; lra.
Qed.

(** X14.  [toRgb] rounds each channel of the RGB conversion to a byte
    divided by 255 and keeps alpha.  The rounding does not show in the
    sRGB texts: the [rgb(...)] text and the hexadecimal texts of the
    result are those of the conversion before rounding.  When the
    converted channels are numbers the result lies in the sRGB gamut,
    however far out the conversion was. *)
Theorem toRgb_quantised (E : Env) (color o c : Color) :
  oklch E color = Ret (Some o) ->
  rgb E o = Ret (Some c) ->
  exists result,
    toRgb E color = Ret result
    /\ mode result = Mrgb
    /\ alpha result = alpha c
    /\ rgb_text result = rgb_text c
    /\ toHex (toNum result.["r"]) = toHex (toNum c.["r"])
    /\ toHex (toNum result.["g"]) = toHex (toNum c.["g"])
    /\ toHex (toNum result.["b"]) = toHex (toNum c.["b"])
    /\ (forall r g b,
          c.["r"] = Some #r -> c.["g"] = Some #g -> c.["b"] = Some #b ->
          byte_fraction result.["r"] /\ byte_fraction result.["g"]
          /\ byte_fraction result.["b"]
          /\ isInGamut E result EPSILON = Ret true).
Proof.
  intros Ho Hc.
  exists (mkColor Mrgb (quantise c.["r"]) (quantise c.["g"]) (quantise c.["b"])
            (alpha c)).
  split; [unfold toRgb; rewrite Ho; cbn [bind]; rewrite Hc; reflexivity|].
  split; [reflexivity|]. split; [reflexivity|].
  change ((mkColor Mrgb (quantise c.["r"]) (quantise c.["g"])
             (quantise c.["b"]) (alpha c)).["r"]) with (quantise c.["r"]).
  change ((mkColor Mrgb (quantise c.["r"]) (quantise c.["g"])
             (quantise c.["b"]) (alpha c)).["g"]) with (quantise c.["g"]).
  change ((mkColor Mrgb (quantise c.["r"]) (quantise c.["g"])
             (quantise c.["b"]) (alpha c)).["b"]) with (quantise c.["b"]).
  split; [|split; [|split; [|split]]].
  - unfold rgb_text.
    change ((mkColor Mrgb (quantise c.["r"]) (quantise c.["g"])
               (quantise c.["b"]) (alpha c)).["r"]) with (quantise c.["r"]).
    change ((mkColor Mrgb (quantise c.["r"]) (quantise c.["g"])
               (quantise c.["b"]) (alpha c)).["g"]) with (quantise c.["g"]).
    change ((mkColor Mrgb (quantise c.["r"]) (quantise c.["g"])
               (quantise c.["b"]) (alpha c)).["b"]) with (quantise c.["b"]).
    cbn [map alpha]. now rewrite !quantise_idem.
  - unfold toHex. now rewrite quantise_idem.
  - unfold toHex. now rewrite quantise_idem.
  - unfold toHex. now rewrite quantise_idem.
  - intros r g b -> -> ->.
    pose proof (quantise_byte r) as Hr. pose proof (quantise_byte g) as Hg.
    pose proof (quantise_byte b) as Hb.
    split; [exact Hr|]. split; [exact Hg|]. split; [exact Hb|].
    rewrite isInGamut_rgb by reflexivity. f_equal.
    apply (channels_within_spec 1). unfold channels_in.
    change ((mkColor Mrgb (quantise (Some #r)) (quantise (Some #g))
               (quantise (Some #b)) (alpha c)).["r"]) with (quantise (Some #r)).
    change ((mkColor Mrgb (quantise (Some #r)) (quantise (Some #g))
               (quantise (Some #b)) (alpha c)).["g"]) with (quantise (Some #g)).
    change ((mkColor Mrgb (quantise (Some #r)) (quantise (Some #g))
               (quantise (Some #b)) (alpha c)).["b"]) with (quantise (Some #b)).
    split; [|split]; now apply byte_fraction_unit.
Qed.

Lemma toRgb_quantised_witness :
  exists result,
    toRgb Fixture.env vivid_color = Ret result
    /\ mode result = Mrgb
    /\ alpha result = None
    /\ rgb_text result = "rgb(128, 255, 128)"
    /\ isInGamut Fixture.env result EPSILON = Ret true.
Proof.
  destruct (toRgb_quantised Fixture.env vivid_color vivid_color
              (with_mode Mrgb vivid_color) eq_refl eq_refl)
    as (result & Ht & Hm & Ha & Htext & _ & _ & _ & Hin).
  exists result. split; [exact Ht|]. split; [exact Hm|]. split; [exact Ha|].
  split; [rewrite Htext; vm_compute; reflexivity|].
  apply (Hin 0.5 3 0.5); reflexivity.
Defined.

(** ** The ends of the gamut search *)

Lemma search_stop (E : Env) (fuel : nat) l c h step :
  (step >? #0.000001)%num = false ->
  search E fuel l c h step = Some (Ret black).
Proof.
  intros H. destruct fuel; [rewrite search_0 | rewrite search_S]; now rewrite H.
Qed.

(** X15.  A colour whose OKLCH chroma is missing, not a number or at
    most 2e-6 is mapped to black by [findClosestInGamut], whatever its
    lightness: the loop is not entered. *)
Theorem findClosestInGamut_low_chroma (E : Env) (color o : Color) :
  oklch E color = Ret (Some o) ->
  o.["c"] = None \/ o.["c"] = Some NaN
  \/ (exists q, o.["c"] = Some #q /\ q <= 0.000002) ->
  findClosestInGamut E color = Ret black.
Proof.
  intros Ho Hc. unfold findClosestInGamut. rewrite Ho. cbn [bind].
  rewrite search_stop; [reflexivity|].
  destruct Hc as [-> | [-> | (q & -> & Hq)]]; try reflexivity.
  cbn [toNum]. rewrite half_Fin.
  destruct (#(q / 2) >? #0.000001)%num eqn:H; [|reflexivity].
  apply gt_Fin in H. assert (Hh : q / 2 == q * 0.5) by field. lra.
Qed.

Lemma findClosestInGamut_low_chroma_witness :
  findClosestInGamut Fixture.env white_oklch = Ret black.
Proof.
  apply (findClosestInGamut_low_chroma Fixture.env white_oklch white_oklch).
  - reflexivity.
  - right. right. exists 0. split; [reflexivity | lra].
Defined.

(** X16.  A colour with a chroma above 2e-6 whose OKLCH form (lightness,
    chroma and hue, without alpha) converts into the sRGB gamut is mapped
    to that conversion: the first test of the loop ends the search. *)
Theorem findClosestInGamut_first_probe (E : Env) (color o t rgbTest : Color)
  (q : Q) :
  oklch E color = Ret (Some o) ->
  o.["c"] = Some #q ->
  0.000002 < q ->
  oklch E (mkColor Moklch o.["l"] (Some #q) o.["h"] None) = Ret (Some t) ->
  rgb E t = Ret (Some rgbTest) ->
  isInGamut E rgbTest EPSILON = Ret true ->
  findClosestInGamut E color = Ret rgbTest.
Proof.
  intros Ho Hc Hq Ht Hr Hin. unfold findClosestInGamut.
  rewrite Ho. cbn [bind]. rewrite Hc. cbn [toNum]. rewrite half_Fin.
  destruct (search_terminates E o.["l"] #q o.["h"] #(q / 2)) as (r & Hsearch).
  rewrite (Hsearch _ (Nat.le_refl _)).
  assert (H1 : search E 1 o.["l"] #q o.["h"] #(q / 2) = Some (Ret rgbTest)).
  { rewrite search_S.
    assert (Hh : q / 2 == q * 0.5) by field.
    assert (Hgt : (#(q / 2) >? #0.000001)%num = true) by (apply gt_Fin; lra).
    rewrite Hgt. unfold probe. rewrite Ht. cbn [bind conv_opt].
    rewrite Hr. cbn [bind present_in_gamut]. rewrite Hin. reflexivity. }
  apply (search_mono E 1) with (fuel' := Nat.max 1 (loop_fuel #(q / 2))) in H1;
    [|lia].
  rewrite Hsearch in H1 by lia. now injection H1 as ->.
Qed.

Lemma findClosestInGamut_first_probe_witness :
  findClosestInGamut Fixture.env mild_color
  = Ret (mkColor Mrgb (Some #0.5) (Some #0.5) (Some #0.5) None).
Proof.
  apply (findClosestInGamut_first_probe Fixture.env mild_color mild_color
           (mkColor Moklch (Some #0.5) (Some #0.5) (Some #0.5) None) _ 0.5);
    try reflexivity.
Defined.

(** ** The two classifiers *)

(** X17.  [checkColorSpace] and detection classify alike.  For a colour
    that is not the pure white of OKLCH, when [classify] returns a
    report, [checkColorSpace] returns the space of that report, unless
    it throws on a missing channel of the projection it found in
    gamut. *)
Theorem checkColorSpace_agrees (E : Env) (color : Color)
  (report : ColorSpaceResult) :
  is_white_oklch color = false ->
  classify E color = Ret report ->
  checkColorSpace E color = Ret (originalSpace report)
  \/ (inGamut report = true
      /\ checkColorSpace E color
         = Throw "TypeError: Cannot read properties of undefined (reading 'toFixed')").
Proof.
  intros Hw. unfold classify, checkColorSpace.
  destruct (getProxyColor E color) as [[proxy|]|e]; cbn [bind];
    [| intros [= <-]; now left | discriminate].
  rewrite Hw.
  destruct (rgb E proxy) as [rgbV|e]; cbn [bind]; [|discriminate].
  destruct (present_in_gamut E rgbV EPSILON) as [[|]|e]; cbn [bind];
    [| | discriminate].
  - destruct (p3 E proxy) as [p3V|e]; cbn [bind]; [|discriminate].
    intros [= <-]. cbn [originalSpace inGamut].
    destruct (rgbV ≫= prop "r"); cbn [method_of bind]; [|now right].
    destruct (rgbV ≫= prop "g"); cbn [method_of bind]; [|now right].
    destruct (rgbV ≫= prop "b"); cbn [method_of bind]; [|now right].
    now left.
  - destruct (p3 E proxy) as [p3V|e]; cbn [bind]; [|discriminate].
    destruct (present_in_gamut E p3V EPSILON) as [[|]|e]; cbn [bind];
      [| | discriminate]; intros [= <-]; cbn [originalSpace inGamut];
      [|now left].
    destruct (p3V ≫= prop "r"); cbn [method_of bind]; [|now right].
    destruct (p3V ≫= prop "g"); cbn [method_of bind]; [|now right].
    destruct (p3V ≫= prop "b"); cbn [method_of bind]; [|now right].
    now left.
Qed.

Lemma checkColorSpace_agrees_witness :
  checkColorSpace Fixture.env wide_color = Ret Sp3.
Proof.
  destruct (checkColorSpace_agrees Fixture.env wide_color
              (mkColorSpaceResult Sp3 Ssrgb (Some (with_mode Mp3 wide_color))
                 (Some (with_mode Mrgb wide_color)) true true)
              eq_refl eq_refl) as [H | [_ H]].
  - exact H.
  - discriminate H.
Defined.

(** ** What [getFallback] reads *)

(** X18.  The text [getFallback] chooses does not depend on the value
    [detectColorSpaceAndFallback] returned: the last [return] of the
    function, the only statement that reads it, is reached for no
    notation. *)
Theorem getFallback_choose_ignores_result (E : Env) (color : Color)
  (fmt : ColorFormat) (cc : ColorCache) (result result' : VisibleValue) :
  getFallback_choose E color fmt cc result
  = getFallback_choose E color fmt cc result'.
Proof.
  destruct fmt; unfold getFallback_choose;
    try (destruct (cache_rgb cc); [reflexivity|]);
    try (destruct (toRgb E color); reflexivity); reflexivity.
Qed.

(** ** The transfer function *)

(** X19.  The two decodings of the sRGB transfer function in
    [convert-color.tsx], the one of [toLinear] and the one of
    [formatLinearRGB], agree on every value above -0.04045 and up to
    0.03928, and from 0.04045 on; between the two thresholds [toLinear]
    takes the power branch and [formatLinearRGB] the linear one. *)
Theorem transfer_functions (E : Env) (q : Q) :
  (-0.04045 < q <= 0.03928 ->
   toLinearValue E #q = (#q / #12.92)%num
   /\ toLinear_abs E #q = (#q / #12.92)%num)
  /\ (0.04045 <= q ->
      toLinearValue E #q = Math_pow E ((#q + #0.055) / #1.055)%num #2.4
      /\ toLinear_abs E #q = Math_pow E ((#q + #0.055) / #1.055)%num #2.4)
  /\ (0.03928 < q < 0.04045 ->
      toLinearValue E #q = Math_pow E ((#q + #0.055) / #1.055)%num #2.4
      /\ toLinear_abs E #q = (#q / #12.92)%num).
Proof.
  assert (Hle : forall a b, Qle_bool a b = false -> b < a).
  { intros a b H. apply Qnot_le_lt. intros H'. apply Qle_bool_iff in H'.
    congruence. }
  unfold toLinearValue, toLinear_abs, num_le, num_lt, Math_abs, lift1, cmp, Qltb.
  split; [|split]; intros Hq; split.
  - destruct (Qle_bool q 0.03928) eqn:H; [reflexivity|]. apply Hle in H. lra.
  - destruct (Qle_bool 0.04045 (Qabs q)) eqn:H; [|reflexivity].
    apply Qle_bool_iff in H. exfalso.
    assert (Qabs q < 0.04045); [|lra].
    apply Qabs_Qlt_condition. split; lra.
  - destruct (Qle_bool q 0.03928) eqn:H; [|reflexivity].
    apply Qle_bool_iff in H. lra.
  - destruct (Qle_bool 0.04045 (Qabs q)) eqn:H; [reflexivity|].
    apply Hle in H. pose proof (Qle_Qabs q). lra.
  - destruct (Qle_bool q 0.03928) eqn:H; [|reflexivity].
    apply Qle_bool_iff in H. lra.
  - destruct (Qle_bool 0.04045 (Qabs q)) eqn:H; [|reflexivity].
    apply Qle_bool_iff in H. exfalso.
    assert (Qabs q < 0.04045); [|lra].
    apply Qabs_Qlt_condition. split; lra.
Qed.

Lemma transfer_functions_witness :
  toLinearValue Fixture.env #0.04 = Math_pow Fixture.env
                                      ((#0.04 + #0.055) / #1.055)%num #2.4
  /\ toLinear_abs Fixture.env #0.04 = (#0.04 / #12.92)%num.
Proof.
  apply (transfer_functions Fixture.env 0.04). lra.
Defined.

(** ** The [rgb(...)] text *)





(** ** The first screen *)

Lemma mapO_Ret {A B} (f : A -> outcome B) (l : list A) (r : list B) :
  ColorConverter.mapO f l = Ret r -> Forall2 (fun a b => f a = Ret b) l r.
Proof.
  revert r. induction l as [|a l IH]; intros r; cbn [ColorConverter.mapO].
  - intros [= <-]. constructor.
  - destruct (f a) as [b|e] eqn:Ha; cbn [bind]; [|discriminate].
    destruct (ColorConverter.mapO f l) as [bs|e]; cbn [bind]; [|discriminate].
    intros [= <-]. constructor; auto.
Qed.

Lemma mapO_Throw {A B} (f : A -> outcome B) (l : list A) (a : A) (e : string) :
  In a l -> f a = Throw e -> exists e', ColorConverter.mapO f l = Throw e'.
Proof.
  intros Hin Ha. induction l as [|x l IH]; [contradiction|].
  cbn [ColorConverter.mapO]. destruct Hin as [-> | Hin].
  - rewrite Ha. cbn [bind]. eauto.
  - destruct (f x); cbn [bind]; [|eauto].
    destruct (IH Hin) as (e' & ->). cbn [bind]. eauto.
Qed.

Lemma detectInputFormat_not_figma (input : string) :
  ColorConverterView.detectInputFormat input <> ColorConverter.figma_.
Proof.
  unfold ColorConverterView.detectInputFormat.
  repeat match goal with
         | |- context [if ?b then _ else _] => destruct b
         end; discriminate.
Qed.

(** The list of the state is the one of [handleColorConversion]. *)
Lemma handleColorConversion_state_list (E : Env) (T : ColorConverter.Text)
  (input : string) (cur : ColorConverter.ColorFormat) :
  outcome_map fst (ColorConverterView.handleColorConversion_state E T input cur)
  = ColorConverter.handleColorConversion E T input.
Proof.
  unfold ColorConverterView.handleColorConversion_state,
    ColorConverter.handleColorConversion.
  destruct (parse E input) as [[c|]|e]; cbn [bind outcome_map]; try reflexivity.
  destruct (ColorConverter.culori_formatHex T c) as [hex|e];
    cbn [bind outcome_map]; [|reflexivity].
  destruct (ColorConverter.mapO _ ColorConverter.formats); reflexivity.
Qed.

(** X21.  What the first screen shows after an input.  When the handler
    returns, either the parser rejected the text, the list is the single
    placeholder titled [Invalid color input], the input format is left
    as it was and no item is marked; or the parser accepted it, the list
    has one item per notation in the order of [formats], all with the
    same swatch (the upper-cased hexadecimal text of the parsed colour),
    and exactly one item is marked as the input format, which is never
    [figma]. *)
Theorem first_screen_items (E : Env) (T : ColorConverter.Text)
  (input : string) (cur : ColorConverter.ColorFormat)
  (l : list ColorConverter.ColorData) (f : ColorConverter.ColorFormat) :
  ColorConverterView.handleColorConversion_state E T input cur = Ret (l, f) ->
  ColorConverter.handleColorConversion E T input = Ret l
  /\ ((parse E input = Ret None
       /\ l = [ColorConverter.mkColorData "Invalid color input" "" "#808080"]
       /\ f = cur
       /\ map (fun d => ColorConverterView.item_title (ColorConverter.format d)) l
          = ["Invalid color input"]
       /\ filter (ColorConverterView.is_input_format f) l = [])
      \/ (exists c hex,
            parse E input = Ret (Some c)
            /\ ColorConverter.culori_formatHex T c = Ret hex
            /\ map ColorConverter.format l
               = map ColorConverter.format_name ColorConverter.formats
            /\ Forall (fun d => ColorConverter.hexValue d = toUpperCase hex) l
            /\ map (fun d => ColorConverterView.item_title (ColorConverter.format d)) l
               = ["RGB"; "HEX"; "HSL"; "CSS P3"; "OKLCH"; "OKLAB"; "VEC"; "FIGMA"]
            /\ f = ColorConverterView.detectInputFormat input
            /\ f <> ColorConverter.figma_
            /\ length (filter (ColorConverterView.is_input_format f) l) = 1%nat)).
Proof.
  intros H.
  pose proof (handleColorConversion_state_list E T input cur) as Hl.
  rewrite H in Hl. cbn [outcome_map fst] in Hl. split; [symmetry; exact Hl|].
  clear Hl. unfold ColorConverterView.handleColorConversion_state in H.
  destruct (parse E input) as [[c|]|e]; cbn [bind] in H; [| |discriminate H].
  - right. destruct (ColorConverter.culori_formatHex T c) as [hex|e] eqn:Hhex;
      cbn [bind] in H; [|discriminate H].
    destruct (ColorConverter.mapO _ ColorConverter.formats) as [ds|e] eqn:Hm;
      cbn [bind] in H; [|discriminate H].
    injection H as <- <-. exists c, hex. split; [reflexivity|].
    split; [exact Hhex|].
    apply mapO_Ret in Hm. unfold ColorConverter.formats in Hm.
    repeat match goal with
           | H : Forall2 _ (_ :: _) _ |- _ => inversion H; subst; clear H
           | H : Forall2 _ [] _ |- _ => inversion H; subst; clear H
           end.
    repeat match goal with
           | H : bind (ColorConverter.formatColor E T (Some c) ?fmt) _ = Ret _
             |- _ =>
               destruct (ColorConverter.formatColor E T (Some c) fmt);
               cbn [bind] in H; [injection H as <- | discriminate H]
           end.
    pose proof (detectInputFormat_not_figma input) as Hnf.
    split; [reflexivity|]. split; [repeat constructor|].
    split; [reflexivity|]. split; [reflexivity|]. split; [exact Hnf|].
    destruct (ColorConverterView.detectInputFormat input);
      try contradiction; reflexivity.
  - left. injection H as <- <-. split; [reflexivity|]. split; [reflexivity|].
    split; [reflexivity|]. split; [reflexivity|]. destruct cur; reflexivity.
Qed.

Lemma first_screen_items_witness :
  ColorConverter.handleColorConversion Fixture.env Fixture.text "not-a-color"
  = Ret [ColorConverter.mkColorData "Invalid color input" "" "#808080"].
Proof.
  exact (proj1 (first_screen_items Fixture.env Fixture.text "not-a-color"
                  ColorConverter.rgb_ _ _ eq_refl)).
Defined.

(** X22.  The first screen has no [try]: when the parser accepts the
    text and one of the converters to RGB, P3, OKLCH, OKLAB or HSL
    returns nothing (or throws) for the parsed colour, the handler
    throws, and so does [onSearchTextChange]. *)
Theorem first_screen_propagates (E : Env) (T : ColorConverter.Text)
  (input : string) (c : Color) :
  String.eqb input "" = false ->
  parse E input = Ret (Some c) ->
  (forall v, rgb E c = Ret (Some v) -> False)
  \/ (forall v, p3 E c = Ret (Some v) -> False)
  \/ (forall v, oklch E c = Ret (Some v) -> False)
  \/ (forall v, oklab E c = Ret (Some v) -> False)
  \/ (forall v, ColorConverter.hsl T c = Ret (Some v) -> False) ->
  exists e,
    ColorConverter.handleColorConversion E T input = Throw e
    /\ ColorConverter.onSearchTextChange E T input = Throw e.
Proof.
  intros Hne Hp Hconv.
  assert (Hthrow : exists fmt e,
             In fmt ColorConverter.formats
             /\ ColorConverter.formatColor E T (Some c) fmt = Throw e).
  { unfold ColorConverter.formatColor.
    destruct Hconv as [H | [H | [H | [H | H]]]].
    - exists ColorConverter.vec_.
      destruct (rgb E c) as [[v|]|e]; cbn [bind ColorConverter.destructure];
        [exfalso; eauto | |]; eexists; (split; [|reflexivity]);
        cbn; tauto.
    - exists ColorConverter.p3_.
      destruct (p3 E c) as [[v|]|e]; cbn [bind ColorConverter.destructure];
        [exfalso; eauto | |]; eexists; (split; [|reflexivity]);
        cbn; tauto.
    - exists ColorConverter.oklch_.
      destruct (oklch E c) as [[v|]|e]; cbn [bind ColorConverter.destructure];
        [exfalso; eauto | |]; eexists; (split; [|reflexivity]);
        cbn; tauto.
    - exists ColorConverter.oklab_.
      destruct (oklab E c) as [[v|]|e]; cbn [bind ColorConverter.destructure];
        [exfalso; eauto | |]; eexists; (split; [|reflexivity]);
        cbn; tauto.
    - exists ColorConverter.hsl_.
      destruct (ColorConverter.hsl T c) as [[v|]|e];
        cbn [bind ColorConverter.destructure];
        [exfalso; eauto | |]; eexists; (split; [|reflexivity]);
        cbn; tauto. }
  destruct Hthrow as (fmt & e & Hin & He).
  unfold ColorConverter.onSearchTextChange. rewrite Hne.
  unfold ColorConverter.handleColorConversion. rewrite Hp. cbn [bind].
  destruct (ColorConverter.culori_formatHex T c) as [hex|e0]; cbn [bind];
    [|eauto].
  destruct (mapO_Throw
              (fun format =>
                 v <- ColorConverter.formatColor E T (Some c) format ;;
                 Ret (ColorConverter.mkColorData
                        (ColorConverter.format_name format) v (toUpperCase hex)))
              ColorConverter.formats fmt e Hin) as (e' & ->).
  - now rewrite He.
  - eauto.
Qed.

Lemma first_screen_propagates_witness :
  exists e,
    ColorConverter.handleColorConversion no_p3_env Fixture.text "#0a0a0a"
    = Throw e
    /\ ColorConverter.onSearchTextChange no_p3_env Fixture.text "#0a0a0a"
       = Throw e.
Proof.
  apply (first_screen_propagates no_p3_env Fixture.text "#0a0a0a" grey10).
  - reflexivity.
  - reflexivity.
  - right. left. intros v H. discriminate H.
Defined.

(** ** Rounding on the first screen *)

Lemma pow10_pos (d : nat) : 0 < inject_Z (10 ^ Z.of_nat d).
Proof.
  change 0 with (inject_Z 0). rewrite <- Zlt_Qlt.
  apply Z.pow_pos_nonneg; lia.
Qed.

(** X23.  [round] returns a number with at most [decimals] decimals that
    is nearest to its argument: the two differ by at most half a unit of
    the last decimal. *)
Theorem round_nearest (q : Q) (decimals : nat) :
  exists m n,
    ColorConverter.round (Some #q) decimals = #m
    /\ m * inject_Z (10 ^ Z.of_nat decimals) == inject_Z n
    /\ Qabs (m - q) * inject_Z (10 ^ Z.of_nat decimals) <= 0.5.
Proof.
  pose proof (pow10_pos decimals) as HP.
  unfold ColorConverter.round.
  set (P := inject_Z (10 ^ Z.of_nat decimals)) in *.
  set (n := Qfloor (Qabs q * P + 0.5)).
  pose proof (Qfloor_le (Qabs q * P + 0.5)) as Hlo.
  pose proof (Qlt_floor (Qabs q * P + 0.5)) as Hhi.
  fold n in Hlo, Hhi. rewrite inject_Z_plus in Hhi.
  change (inject_Z 1) with 1 in Hhi.
  assert (HPne : ~ P == 0) by lra.
  assert (Hbound : forall m,
             (m - q) * P == inject_Z n - Qabs q * P
             \/ (m - q) * P == - (inject_Z n - Qabs q * P) ->
             Qabs (m - q) * P <= 0.5).
  { intros m Hm.
    assert (Habs : Qabs (m - q) * P == Qabs ((m - q) * P)).
    { rewrite Qabs_Qmult, (Qabs_pos P) by lra. reflexivity. }
    rewrite Habs. apply Qabs_Qle_condition.
    destruct Hm as [Hm | Hm]; rewrite Hm; split; lra. }
  destruct (Qltb q 0) eqn:Hneg.
  - exists (- (inject_Z n / P)), (- n)%Z. split; [reflexivity|]. split.
    + rewrite inject_Z_opp. field. exact HPne.
    + apply Hbound. right.
      assert (Hq : q < 0).
      { unfold Qltb in Hneg. apply negb_true_iff in Hneg.
        apply Qnot_le_lt. intros H. apply Qle_bool_iff in H. congruence. }
      rewrite (Qabs_neg q) by lra. field. exact HPne.
  - exists (inject_Z n / P), n. split; [reflexivity|]. split.
    + field. exact HPne.
    + apply Hbound. left.
      assert (Hq : 0 <= q).
      { unfold Qltb in Hneg. apply negb_false_iff in Hneg.
        now apply Qle_bool_iff. }
      rewrite (Qabs_pos q) by lra. field. exact HPne.
Qed.

(** ** Hue, saturation and lightness *)

Lemma formatHSL_values (E : Env) (color : Color) :
  formatHSL E color
  = (rgbColor <- rgb E color ;;
     match rgbColor with
     | None => Ret "Invalid HSL"
     | Some rgbColor =>
         let '(h, s, l) := hsl_values rgbColor in
         Ret ("hsl(" ++ JS.toString h ++ " " ++ JS.toString s ++ "% "
                     ++ JS.toString l ++ "%)")
     end).
Proof.
  unfold formatHSL, hsl_values.
  destruct (rgb E color) as [[c|]|e]; cbn [bind]; try reflexivity.
  destruct (_ !== _)%num; reflexivity.
Qed.

Lemma qmax_spec (a b : Q) :
  a <= qmax a b /\ b <= qmax a b /\ (qmax a b = a \/ qmax a b = b).
Proof.
  unfold qmax. destruct (Qle_bool a b) eqn:H.
  - apply Qle_bool_iff in H. repeat split; auto; lra.
  - assert (b < a).
    { apply Qnot_le_lt. intros H'. apply Qle_bool_iff in H'. congruence. }
    repeat split; auto; lra.
Qed.

Lemma qmin_spec (a b : Q) :
  qmin a b <= a /\ qmin a b <= b /\ (qmin a b = a \/ qmin a b = b).
Proof.
  unfold qmin. destruct (Qle_bool a b) eqn:H.
  - apply Qle_bool_iff in H. repeat split; auto; lra.
  - assert (b < a).
    { apply Qnot_le_lt. intros H'. apply Qle_bool_iff in H'. congruence. }
    repeat split; auto; lra.
Qed.

(** Rounding a number between two integers stays between them. *)
Lemma round_between (x : Q) (lo hi : Z) :
  inject_Z lo <= x -> x <= inject_Z hi ->
  inject_Z lo <= inject_Z (Qfloor (x + (Qmake 1 2)))
  /\ inject_Z (Qfloor (x + (Qmake 1 2))) <= inject_Z hi.
Proof.
  intros Hlo Hhi. rewrite <- !Zle_Qle.
  assert (E1 : Qfloor (inject_Z lo + (Qmake 1 2)) = lo)
    by (apply floor_unique; lra).
  assert (E2 : Qfloor (inject_Z hi + (Qmake 1 2)) = hi)
    by (apply floor_unique; lra).
  assert (H1 : (Qfloor (inject_Z lo + (Qmake 1 2))
                <= Qfloor (x + (Qmake 1 2)))%Z)
    by (apply Qfloor_resp_le; lra).
  assert (H2 : (Qfloor (x + (Qmake 1 2))
                <= Qfloor (inject_Z hi + (Qmake 1 2)))%Z)
    by (apply Qfloor_resp_le; lra).
  rewrite E1 in H1. rewrite E2 in H2. split; assumption.
Qed.

(** The remainder of a number in [[-1, 1]] by 6 is the number. *)
Lemma rem6_small (a : Q) :
  -1 <= a <= 1 -> (#a %% #6)%num = #(a - 6 * inject_Z 0).
Proof.
  intros Ha. unfold num_rem. change (Qeq_bool 6 0) with false. cbv iota.
  assert (Hq : Z.quot (Qnum (a / 6)) (Zpos (Qden (a / 6))) = 0%Z);
    [|now rewrite Hq].
  assert (Ht : -1 < a / 6 /\ a / 6 < 1).
  { assert (a / 6 == a * (Qmake 1 6)) by field. split; lra. }
  destruct (a / 6) as [n d]. destruct Ht as [H1 H2].
  unfold Qlt in H1, H2. cbn [Qnum Qden] in H1, H2 |- *.
  apply Z.quot_small_iff; lia.
Qed.

Lemma frac_range (x d lo hi : Q) :
  0 < d -> lo * d <= x -> x <= hi * d -> lo <= x / d /\ x / d <= hi.
Proof.
  intros Hd H1 H2. split.
  - now apply Qle_shift_div_l.
  - now apply Qle_shift_div_r.
Qed.

(** A part of 1 printed in percent with one decimal lies in [[0, 100]]. *)
Lemma percent_range (x : Q) :
  0 <= x <= 1 ->
  exists p, (Math_round (#x * #1000) / #10)%num = #p /\ 0 <= p <= 100.
Proof.
  intros Hx. eexists. split; [reflexivity|].
  destruct (round_between (x * 1000) 0 1000) as [H1 H2].
  - change (inject_Z 0) with 0. lra.
  - change (inject_Z 1000) with 1000. lra.
  - change (inject_Z 0) with 0 in H1. change (inject_Z 1000) with 1000 in H2.
    set (n := inject_Z (Qfloor (x * 1000 + (Qmake 1 2)))) in *.
    assert (Hn : n / 10 == n * (Qmake 1 10)) by field. split; lra.
Qed.

(** The hue of a sector position in [[-1, 5]], in degrees with two
    decimals and wrapped, lies in [[0, 360)]. *)
Lemma hue_wrap (t : Q) :
  -1 <= t <= 5 ->
  exists h,
    (if (Math_round (#t * #60 * #100) / #100 <? #0)%num
     then (Math_round (#t * #60 * #100) / #100 + #360)%num
     else (Math_round (#t * #60 * #100) / #100)%num) = #h
    /\ 0 <= h < 360.
Proof.
  intros Ht.
  destruct (round_between (t * 60 * 100) (-6000) 30000) as [H1 H2].
  - change (inject_Z (-6000)) with (-6000). lra.
  - change (inject_Z 30000) with 30000. lra.
  - change (inject_Z (-6000)) with (-6000) in H1.
    change (inject_Z 30000) with 30000 in H2.
    change (Math_round (#t * #60 * #100) / #100)%num
      with #(inject_Z (Qfloor (t * 60 * 100 + (Qmake 1 2))) / 100).
    set (n := inject_Z (Qfloor (t * 60 * 100 + (Qmake 1 2)))) in *.
    assert (Hn : n / 100 == n * (Qmake 1 100)) by field.
    unfold num_lt, cmp, Qltb.
    destruct (Qle_bool 0 (n / 100)) eqn:Hs; cbn [negb].
    + apply Qle_bool_iff in Hs. exists (n / 100). split; [reflexivity|].
      split; lra.
    + assert (n / 100 < 0).
      { apply Qnot_le_lt. intros H. apply Qle_bool_iff in H. congruence. }
      exists (n / 100 + 360). split; [reflexivity|]. split; lra.
Qed.

(** The position of the hue on the colour wheel, in sixths of a turn. *)
Lemma sector_range (r g b mx mn : Q) :
  0 < mx - mn ->
  mn <= r <= mx -> mn <= g <= mx -> mn <= b <= mx ->
  exists t,
    (if (#mx === #r)%num then (((#g - #b) / #(mx - mn)) %% #6)%num
     else if (#mx === #g)%num then ((#b - #r) / #(mx - mn) + #2)%num
     else ((#r - #g) / #(mx - mn) + #4)%num) = #t
    /\ -1 <= t <= 5.
Proof.
  intros Hd Rr Rg Rb.
  assert (Hz : Qeq_bool (mx - mn) 0 = false).
  { destruct (Qeq_bool (mx - mn) 0) eqn:H; [|reflexivity].
    apply Qeq_bool_iff in H. lra. }
  assert (Hdiv : forall x, (#x / #(mx - mn))%num = #(x / (mx - mn))).
  { intros x. unfold num_div. now rewrite Hz. }
  change (#g - #b)%num with #(g - b). change (#b - #r)%num with #(b - r).
  change (#r - #g)%num with #(r - g). rewrite !Hdiv.
  destruct (frac_range (g - b) (mx - mn) (-1) 1 Hd) as [A1 A2]; [lra | lra|].
  destruct (frac_range (b - r) (mx - mn) (-1) 1 Hd) as [B1 B2]; [lra | lra|].
  destruct (frac_range (r - g) (mx - mn) (-1) 1 Hd) as [C1 C2]; [lra | lra|].
  destruct (#mx === #r)%num.
  - rewrite rem6_small by (split; assumption). eexists. split; [reflexivity|].
    change (inject_Z 0) with 0. split; lra.
  - destruct (#mx === #g)%num; (eexists; split; [reflexivity|]); split; lra.
Qed.

(** The saturation of a colour in range, as a part of 1. *)
Lemma saturation_range (mx mn : Q) :
  0 < mx - mn -> 0 <= mn -> mx <= 1 ->
  exists s,
    (#(mx - mn) / (#1 - Math_abs (#2 * #((mx + mn) / 2) - #1)))%num = #s
    /\ 0 <= s <= 1.
Proof.
  intros Hd Hmn Hmx.
  change (#1 - Math_abs (#2 * #((mx + mn) / 2) - #1))%num
    with #(1 - Qabs (2 * ((mx + mn) / 2) - 1)).
  assert (Hx : 2 * ((mx + mn) / 2) - 1 == mx + mn - 1) by field.
  set (x := 2 * ((mx + mn) / 2) - 1) in *.
  assert (Hden : mx - mn <= 1 - Qabs x).
  { assert (Qabs x <= 1 - (mx - mn)); [|lra].
    apply Qabs_Qle_condition. split; lra. }
  unfold num_div.
  destruct (Qeq_bool (1 - Qabs x) 0) eqn:Hz.
  { apply Qeq_bool_iff in Hz. lra. }
  eexists. split; [reflexivity|].
  destruct (frac_range (mx - mn) (1 - Qabs x) 0 1) as [S1 S2]; lra.
Qed.

Lemma hsl_values_ranges (c : Color) (r g b : Q) :
  c.["r"] = Some #r -> c.["g"] = Some #g -> c.["b"] = Some #b ->
  0 <= r <= 1 -> 0 <= g <= 1 -> 0 <= b <= 1 ->
  exists h s l,
    hsl_values c = (#h, #s, #l)
    /\ 0 <= h < 360 /\ 0 <= s <= 100 /\ 0 <= l <= 100
    /\ (r == g -> g == b -> h == 0 /\ s == 0).
Proof.
  intros Hr Hg Hb Rr Rg Rb. unfold hsl_values. rewrite Hr, Hg, Hb.
  cbn [toNum].
  change (Math_max (Math_max #r #g) #b) with #(qmax (qmax r g) b).
  change (Math_min (Math_min #r #g) #b) with #(qmin (qmin r g) b).
  destruct (qmax_spec r g) as (M1 & M2 & M3).
  destruct (qmax_spec (qmax r g) b) as (M4 & M5 & M6).
  destruct (qmin_spec r g) as (N1 & N2 & N3).
  destruct (qmin_spec (qmin r g) b) as (N4 & N5 & N6).
  assert (Hmx : qmax (qmax r g) b <= 1).
  { destruct M6 as [-> | ->]; [destruct M3 as [-> | ->]|]; lra. }
  assert (Hmn : 0 <= qmin (qmin r g) b).
  { destruct N6 as [-> | ->]; [destruct N3 as [-> | ->]|]; lra. }
  assert (Xm : qmax (qmax r g) b == r \/ qmax (qmax r g) b == g
               \/ qmax (qmax r g) b == b).
  { destruct M6 as [-> | ->]; [destruct M3 as [-> | ->]|];
      auto using Qeq_refl. }
  assert (Xn : qmin (qmin r g) b == r \/ qmin (qmin r g) b == g
               \/ qmin (qmin r g) b == b).
  { destruct N6 as [-> | ->]; [destruct N3 as [-> | ->]|];
      auto using Qeq_refl. }
  clear M3 M6 N3 N6.
  set (mx := qmax (qmax r g) b) in *. set (mn := qmin (qmin r g) b) in *.
  assert (Br : mn <= r <= mx) by (split; lra).
  assert (Bg : mn <= g <= mx) by (split; lra).
  assert (Bb : mn <= b <= mx) by (split; lra).
  change (#mx - #mn)%num with #(mx - mn).
  change ((#mx + #mn) / #2)%num with #((mx + mn) / 2).
  assert (Hl : 0 <= (mx + mn) / 2 <= 1).
  { assert ((mx + mn) / 2 == (mx + mn) * 0.5) by field. split; lra. }
  destruct (percent_range _ Hl) as (lp & Hlp & Rlp).
  unfold num_ne, num_eq at 1, cmp at 1.
  destruct (Qeq_bool (mx - mn) 0) eqn:Hd; cbn [negb]; cbv beta iota zeta.
  - rewrite Hlp.
    exists 0, (inject_Z (Qfloor (0 * 1000 + Qmake 1 2)) / 10), lp.
    split; [reflexivity|]. split; [lra|].
    assert (Hs0 : inject_Z (Qfloor (0 * 1000 + Qmake 1 2)) / 10 == 0)
      by reflexivity.
    split; [lra|]. split; [exact Rlp|]. intros _ _. split; [reflexivity | exact Hs0].
  - assert (Hpos : 0 < mx - mn).
    { assert (~ mx - mn == 0).
      { intros H. apply Qeq_bool_iff in H. congruence. }
      assert (mx - mn <= 0 -> mx - mn == 0) by (intros; lra).
      apply Qnot_le_lt. tauto. }
    destruct (sector_range r g b mx mn Hpos Br Bg Bb) as (t & Ht & Rt).
    destruct (hue_wrap t Rt) as (h & Hh & Rh).
    destruct (saturation_range mx mn Hpos Hmn Hmx) as (s & Hs & Rs).
    destruct (percent_range s Rs) as (sp & Hsp & Rsp).
    rewrite Ht, Hh, Hs, Hsp, Hlp.
    exists h, sp, lp. split; [reflexivity|]. split; [exact Rh|].
    split; [exact Rsp|]. split; [exact Rlp|].
    intros E1 E2. exfalso.
    destruct Xm as [Xm | [Xm | Xm]], Xn as [Xn | [Xn | Xn]]; lra.
Qed.

(** The values of a grey: no hue and no saturation. *)
Lemma hsl_values_grey (c : Color) (r g b : Q) :
  c.["r"] = Some #r -> c.["g"] = Some #g -> c.["b"] = Some #b ->
  0 <= r <= 1 -> 0 <= g <= 1 -> 0 <= b <= 1 ->
  r == g -> g == b ->
  exists l,
    hsl_values c = (#0, (Math_round (#0 * #1000) / #10)%num, #l)
    /\ 0 <= l <= 100.
Proof.
  intros Hr Hg Hb Rr Rg Rb E1 E2. unfold hsl_values. rewrite Hr, Hg, Hb.
  cbn [toNum].
  change (Math_max (Math_max #r #g) #b) with #(qmax (qmax r g) b).
  change (Math_min (Math_min #r #g) #b) with #(qmin (qmin r g) b).
  destruct (qmax_spec r g) as (M1 & M2 & M3).
  destruct (qmax_spec (qmax r g) b) as (M4 & M5 & M6).
  destruct (qmin_spec r g) as (N1 & N2 & N3).
  destruct (qmin_spec (qmin r g) b) as (N4 & N5 & N6).
  assert (Xm : qmax (qmax r g) b == r).
  { destruct M6 as [-> | ->]; [destruct M3 as [-> | ->]|]; lra. }
  assert (Xn : qmin (qmin r g) b == r).
  { destruct N6 as [-> | ->]; [destruct N3 as [-> | ->]|]; lra. }
  clear M1 M2 M3 M4 M5 M6 N1 N2 N3 N4 N5 N6.
  set (mx := qmax (qmax r g) b) in *. set (mn := qmin (qmin r g) b) in *.
  change (#mx - #mn)%num with #(mx - mn).
  change ((#mx + #mn) / #2)%num with #((mx + mn) / 2).
  assert (Hl : 0 <= (mx + mn) / 2 <= 1).
  { assert ((mx + mn) / 2 == (mx + mn) * 0.5) by field. split; lra. }
  destruct (percent_range _ Hl) as (lp & Hlp & Rlp).
  unfold num_ne, num_eq at 1, cmp at 1.
  assert (Hd : Qeq_bool (mx - mn) 0 = true) by (apply Qeq_bool_iff; lra).
  rewrite Hd. cbn [negb]. cbv beta iota zeta. rewrite Hlp.
  exists lp. split; [reflexivity | exact Rlp].
Qed.

(** X24.  The HSL text of a colour whose RGB conversion lies in
    [[0, 1]].  A grey is printed with hue 0 and saturation 0%, and a
    lightness in [[0, 100]].  For a colour whose lightness, the mean of
    the largest and the smallest channel, lies between 0.1% and 99.9%,
    the hue printed is in [[0, 360)] and the saturation and the
    lightness are percentages in [[0, 100]].  (Nearer to black or to
    white the divisor of the saturation is close to 0; these colours,
    other than the greys, are left out.) *)
Theorem formatHSL_ranges (E : Env) (color c : Color) (r g b : Q) :
  rgb E color = Ret (Some c) ->
  c.["r"] = Some #r -> c.["g"] = Some #g -> c.["b"] = Some #b ->
  0 <= r <= 1 -> 0 <= g <= 1 -> 0 <= b <= 1 ->
  (r == g -> g == b ->
   exists l,
     formatHSL E color = Ret ("hsl(0 0% " ++ JS.toString #l ++ "%)")
     /\ 0 <= l <= 100)
  /\ (0.001 <= (qmax (qmax r g) b + qmin (qmin r g) b) / 2 <= 0.999 ->
      exists h s l,
        formatHSL E color
        = Ret ("hsl(" ++ JS.toString #h ++ " " ++ JS.toString #s ++ "% "
                      ++ JS.toString #l ++ "%)")
        /\ 0 <= h < 360 /\ 0 <= s <= 100 /\ 0 <= l <= 100).
Proof.
  intros Hc Hr Hg Hb Rr Rg Rb. split.
  - intros E1 E2.
    destruct (hsl_values_grey c r g b Hr Hg Hb Rr Rg Rb E1 E2)
      as (l & Hv & Rl).
    exists l. split; [|exact Rl].
    rewrite formatHSL_values, Hc. cbn [bind]. rewrite Hv. reflexivity.
  - intros _.
    destruct (hsl_values_ranges c r g b Hr Hg Hb Rr Rg Rb)
      as (h & s & l & Hv & Rh & Rs & Rl & _).
    exists h, s, l. split; [|auto].
    rewrite formatHSL_values, Hc. cbn [bind]. now rewrite Hv.
Qed.

Lemma formatHSL_ranges_witness :
  exists h s l,
    formatHSL Fixture.env (orange_rgb None)
    = Ret ("hsl(" ++ JS.toString #h ++ " " ++ JS.toString #s ++ "% "
                  ++ JS.toString #l ++ "%)")
    /\ 0 <= h < 360 /\ 0 <= s <= 100 /\ 0 <= l <= 100.
Proof.
  destruct (formatHSL_ranges Fixture.env (orange_rgb None) (orange_rgb None)
              (255 / 255) (126 / 255) (0 / 255))
    as (_ & Hmid);
    try reflexivity; try (split; unfold Qle; cbn; lia).
  apply Hmid. split; unfold Qle; vm_compute; discriminate.
Defined.

(** ** The recursion of [isInGamut] *)

Lemma isInGamut_rec_fixpoint (E : Env) (depth : nat) (color : Color)
  (epsilon : num) :
  mode color <> Mp3 -> mode color <> Mrgb ->
  rgb E color = Ret (Some color) ->
  isInGamut_rec E depth color epsilon
  = Throw "RangeError: Maximum call stack size exceeded".
Proof.
  intros Hp Hr Hc. induction depth as [|depth IH];
    rewrite isInGamut_rec_eq, !bool_decide_eq_false_2, Hc by assumption;
    cbn [bind]; [reflexivity | exact IH].
Qed.

(** X25.  On a colour that is neither P3 nor RGB, [isInGamut] tests the
    RGB conversion of the colour: it answers with the sRGB range test of
    the conversion when the conversion is tagged [rgb], with [false]
    when there is no conversion, and it ends in a [RangeError] when the
    converter returns the colour itself. *)
Theorem isInGamut_recursion (E : Env) (color : Color) (epsilon : num) :
  mode color <> Mp3 -> mode color <> Mrgb ->
  (forall c, rgb E color = Ret (Some c) -> mode c = Mrgb ->
             isInGamut E color epsilon = Ret (channels_within #1 epsilon c))
  /\ (rgb E color = Ret None -> isInGamut E color epsilon = Ret false)
  /\ (rgb E color = Ret (Some color) ->
      isInGamut E color epsilon
      = Throw "RangeError: Maximum call stack size exceeded").
Proof.
  intros Hp Hr. split; [|split].
  - intros c Hc Hm. unfold isInGamut, stack_depth.
    rewrite isInGamut_rec_eq, !bool_decide_eq_false_2, Hc by assumption.
    cbn [bind]. rewrite isInGamut_rec_eq.
    assert (Hp3 : mode c <> Mp3) by (rewrite Hm; discriminate).
    rewrite (bool_decide_eq_false_2 _ Hp3).
    now rewrite (bool_decide_eq_true_2 _ Hm).
  - intros Hc. unfold isInGamut, stack_depth.
    now rewrite isInGamut_rec_eq, !bool_decide_eq_false_2, Hc by assumption.
  - intros Hc. now apply isInGamut_rec_fixpoint.
Qed.

Lemma isInGamut_recursion_witness :
  isInGamut Fixture.env wide_color EPSILON = Ret false
  /\ isInGamut untagged_rgb_env wide_color EPSILON
     = Throw "RangeError: Maximum call stack size exceeded".
Proof.
  split.
  - apply (proj1 (isInGamut_recursion Fixture.env wide_color EPSILON
                    ltac:(discriminate) ltac:(discriminate))
             (with_mode Mrgb wide_color)); reflexivity.
  - apply (isInGamut_recursion untagged_rgb_env wide_color EPSILON);
      [discriminate | discriminate | reflexivity].
Defined.

(** ** The prefix of the Figma P3 notation *)

Lemma trimEnd_head (c : ascii) (s : string) :
  is_space c = false -> exists t, trimEnd (String c s) = String c t.
Proof.
  intros Hc. cbn [trimEnd]. destruct (trimEnd s); [rewrite Hc|]; eauto.
Qed.

(** X26.  The prefix [Figma P3] must be followed by a space: a text that
    starts with [Figma P3] and not with [Figma P3 ] is read as opaque
    black, whatever follows the prefix. *)
Theorem processFigmaP3_needs_space (text : string) :
  startsWith "Figma P3" text = true ->
  startsWith "Figma P3 " text = false ->
  processFigmaP3 text = black_p3.
Proof.
  intros Hs Hn. unfold processFigmaP3, strip_figma_prefix.
  rewrite Hs, Hn. cbn [negb].
  destruct text as [|c text]; [discriminate Hs|].
  unfold startsWith in Hs. cbn [String.prefix] in Hs.
  destruct (ascii_dec "F" c) as [<-|]; [|discriminate Hs].
  unfold trim. rewrite trimStart_id by reflexivity.
  destruct (trimEnd_head "F" text eq_refl) as (t & ->). reflexivity.
Qed.

Lemma processFigmaP3_needs_space_witness :
  processFigmaP3 "Figma P3#FF0000FF" = black_p3.
Proof.
  apply (processFigmaP3_needs_space "Figma P3#FF0000FF"); reflexivity.
Defined.

(** ** Alpha and the gamut *)

Section Alpha.

Variable E : Env.
Hypothesis rgb_alpha : carries_alpha (rgb E).
Hypothesis p3_alpha : carries_alpha (p3 E).
Hypothesis oklch_alpha : carries_alpha (oklch E).
Hypothesis xyz65_alpha : carries_alpha (xyz65 E).

Lemma isInGamut_rec_alpha (depth : nat) :
  forall a c epsilon,
    isInGamut_rec E depth (with_alpha a c) epsilon
    = isInGamut_rec E depth c epsilon.
Proof.
  induction depth as [|depth IH]; intros a c epsilon;
    rewrite (isInGamut_rec_eq E _ (with_alpha a c)), (isInGamut_rec_eq E _ c);
    change (mode (with_alpha a c)) with (mode c);
    change (channels_within #1.6 epsilon (with_alpha a c))
      with (channels_within #1.6 epsilon c);
    change (channels_within #1 epsilon (with_alpha a c))
      with (channels_within #1 epsilon c);
    destruct (bool_decide (mode c = Mp3)); try reflexivity;
    destruct (bool_decide (mode c = Mrgb)); try reflexivity;
    rewrite rgb_alpha; destruct (rgb E c) as [[c'|]|e];
    cbn [outcome_map option_map bind]; try reflexivity.
  apply IH.
Qed.

Lemma present_in_gamut_alpha (a : option num) (v : option Color) (epsilon : num) :
  present_in_gamut E (option_map (with_alpha a) v) epsilon
  = present_in_gamut E v epsilon.
Proof.
  destruct v as [c|]; [|reflexivity]. apply isInGamut_rec_alpha.
Qed.

Lemma getProxyColor_alpha (a : option num) (color : Color) :
  getProxyColor E (with_alpha a color)
  = outcome_map (option_map (with_alpha a)) (getProxyColor E color).
Proof.
  unfold getProxyColor.
  change (is_white_oklch (with_alpha a color)) with (is_white_oklch color).
  destruct (is_white_oklch color); [reflexivity|].
  rewrite xyz65_alpha. destruct (xyz65 E color) as [[x|]|e];
    cbn [outcome_map option_map bind]; try reflexivity.
  rewrite oklch_alpha. destruct (oklch E x) as [[o|]|e];
    cbn [outcome_map option_map bind]; reflexivity.
Qed.

End Alpha.

(** X27.  Alpha does not change the gamut classification.  With
    converters that carry alpha through, the report for a colour with
    another alpha has the same space and the same flags, and its
    projections are those of the colour with the alpha replaced. *)
Theorem classify_alpha_independent (E : Env) (a : option num) (color : Color) :
  carries_alpha (rgb E) -> carries_alpha (p3 E) ->
  carries_alpha (oklch E) -> carries_alpha (xyz65 E) ->
  outcome_map verdict (classify E (with_alpha a color))
  = outcome_map verdict (classify E color)
  /\ outcome_map rgbValues (classify E (with_alpha a color))
     = outcome_map (fun r => option_map (with_alpha a) (rgbValues r))
         (classify E color)
  /\ outcome_map p3Values (classify E (with_alpha a color))
     = outcome_map (fun r => option_map (with_alpha a) (p3Values r))
         (classify E color).
Proof.
  intros Hr Hp Ho Hx. unfold classify.
  rewrite (getProxyColor_alpha E Ho Hx).
  destruct (getProxyColor E color) as [[proxy|]|e];
    cbn [outcome_map option_map bind]; try (repeat split; reflexivity).
  rewrite Hr. destruct (rgb E proxy) as [rgbV|e];
    cbn [outcome_map bind]; try (repeat split; reflexivity).
  rewrite (present_in_gamut_alpha E Hr).
  destruct (present_in_gamut E rgbV EPSILON) as [[|]|e]; cbn [bind];
    try (repeat split; reflexivity);
    rewrite Hp; destruct (p3 E proxy) as [p3V|e];
    cbn [outcome_map bind]; try (repeat split; reflexivity).
  rewrite (present_in_gamut_alpha E Hr).
  destruct (present_in_gamut E p3V EPSILON) as [[|]|e]; cbn [bind];
    repeat split; reflexivity.
Qed.

Lemma classify_alpha_independent_witness :
  outcome_map verdict (classify Fixture.env (with_alpha (Some #0.5) wide_color))
  = outcome_map verdict (classify Fixture.env wide_color).
Proof.
  apply (classify_alpha_independent Fixture.env (Some #0.5) wide_color);
    apply retag_carries_alpha.
Defined.

(** ** The rows of one search *)

Section Rows.

Variable E : Env.
Variable color : Color.

(** The record of [formatColor] on a cache where detection of the colour
    is settled: the one of the [catch] clause when the swatch cannot be
    computed, and otherwise a record with that swatch. *)
Lemma formatColor_settled (fmt : ColorFormat) (c1 : Cache)
  (report : ColorSpaceResult) :
  detectColorSpace E color c1 = (Ret report, c1) ->
  (exists e, preview_swatch E color report = Throw e
             /\ fst (formatColor E color fmt c1) = Ret (invalid_color fmt))
  \/ (exists hex text,
        preview_swatch E color report = Ret hex
        /\ fst (formatColor E color fmt c1)
           = Ret (mkColorData fmt text hex
                    (if isSRGBFormat fmt then Ssrgb else originalSpace report)
                    (if isSRGBFormat fmt then Ssrgb
                     else csr_fallbackSpace report)
                    (mkWarnings false
                       (bool_decide (originalSpace report = Sout)
                        && isSRGBFormat fmt)
                       (bool_decide (originalSpace report = Sout)
                        && bool_decide (fmt ∈ [Fp3; Fvec; Flrgb]))))).
Proof.
  intros Hd. unfold preview_swatch, formatColor, formatColor_try, try_catchM,
    bindM, lift, retM. rewrite Hd.
  destruct (match rgbValues report with Some c => _ | None => _ end)
    as [previewRGB|e]; cbn [bind fst]; [|left; eauto].
  destruct (formatHexRGBA E previewRGB) as [hex|e]; cbn [bind fst];
    [|left; eauto].
  destruct (oklch E color) as [o|e]; cbn [bind fst]; [|left; eauto].
  destruct (getFallback_total E color fmt
              (mkColorCache (p3Values report) (rgbValues report) o) c1)
    as (text & c2 & Hg).
  rewrite Hg. cbn [fst]. right. eauto.
Qed.

Lemma mapM_formatColor_records (fs : list ColorFormat) :
  forall cache,
    exists l,
      fst (mapM (fun fmt => formatColor E color fmt) fs cache) = Ret l
      /\ Forall2 (fun fmt d =>
                    fst (formatColor E color fmt
                           (snd (detectColorSpace E color cache))) = Ret d)
           fs l.
Proof.
  induction fs as [|f fs IH]; intros cache.
  - exists []. split; [reflexivity | constructor].
  - destruct (formatColor_total E color f cache) as (d & c' & Hf & _).
    pose proof (formatColor_cache E color f cache) as Hc.
    rewrite Hf in Hc. cbn [snd] in Hc. subst c'.
    destruct (IH (snd (detectColorSpace E color cache))) as (l & Hl & Hall).
    rewrite detectColorSpace_again in Hall.
    exists (d :: l). split.
    + cbn [mapM]. unfold bindM at 1. rewrite Hf. unfold bindM, retM.
      destruct (mapM _ fs _) as [[l'|e] c2]; cbn [fst] in Hl |- *;
        [now injection Hl as -> | discriminate Hl].
    + constructor; [|exact Hall].
      rewrite <- formatColor_start. now rewrite Hf.
Qed.

End Rows.

Lemma Forall2_map_eq {A B} (f : A -> B) (l : list A) (l' : list B) :
  Forall2 (fun a b => b = f a) l l' -> l' = map f l.
Proof. induction 1; cbn [map]; congruence. Qed.

Lemma Forall2_Forall_r {A B} (R : A -> B -> Prop) (P : B -> Prop)
  (l : list A) (l' : list B) :
  (forall a b, R a b -> P b) -> Forall2 R l l' -> Forall P l'.
Proof. intros H. induction 1; constructor; eauto. Qed.

(** The command returns the empty list and leaves the cache alone, or it
    resolves one colour in every notation. *)
Lemma convertAll_empty_or_rows (E : Env) (text : string) :
  (forall cache, convertAll E text cache = (Ret [], cache))
  \/ (exists color, forall cache,
        convertAll E text cache
        = mapM (fun fmt => formatColor E color fmt) formats cache).
Proof.
  assert (Hmap : forall color cache,
             try_catchM (mapM (fun fmt => formatColor E color fmt) formats)
               (fun _ => retM []) cache
             = mapM (fun fmt => formatColor E color fmt) formats cache).
  { intros color cache. unfold try_catchM.
    destruct (mapM_formatColor E color formats cache) as (l & c & Hl & _).
    now rewrite Hl. }
  unfold convertAll. destruct (String.eqb text "").
  { left. reflexivity. }
  destruct (startsWith "Figma P3" text).
  { right. eexists. intros cache. apply Hmap. }
  destruct (isP3HexFormat text).
  { right. eexists. intros cache. apply Hmap. }
  destruct (parse E text) as [[color|]|e].
  - right. exists color. intros cache. apply Hmap.
  - left. reflexivity.
  - left. reflexivity.
Qed.

(** X28.  The rows of one search come from one detection report.  When
    the command returns a non-empty list, it has one record per notation
    and there is a colour and its report such that either the swatch of
    the report cannot be computed and every record is the one of the
    [catch] clause of [formatColor], or every record carries the same
    swatch and the gamut and the fallback flag the report gives for its
    notation. *)
Theorem convertAll_rows (E : Env) (text : string) (cache : Cache)
  (l : list ColorData) (cache' : Cache) :
  convertAll E text cache = (Ret l, cache') ->
  l = []
  \/ exists color report,
       detectColorSpace E color cache = (Ret report, cache')
       /\ map format l = formats
       /\ ((exists e, preview_swatch E color report = Throw e
                      /\ l = map invalid_color formats)
           \/ (exists hex,
                 preview_swatch E color report = Ret hex
                 /\ Forall (fun d =>
                              hexValue d = hex
                              /\ gamut d = (if isSRGBFormat (format d) then Ssrgb
                                            else originalSpace report)
                              /\ fallback (warnings d)
                                 = (bool_decide (originalSpace report = Sout)
                                    && isSRGBFormat (format d))) l)).
Proof.
  intros H. destruct (convertAll_empty_or_rows E text) as [Hl | (color & Hc)].
  - rewrite Hl in H. injection H as <- _. now left.
  - right. rewrite Hc in H.
    destruct (mapM_formatColor E color formats cache) as (l1 & c1 & Hm & Hfmt).
    rewrite Hm in H. injection H as -> ->.
    pose proof (mapM_formatColor_cache E color formats cache formats_nonempty)
      as Hcache.
    rewrite Hm in Hcache. cbn [snd] in Hcache.
    destruct (mapM_formatColor_records E color formats cache)
      as (l2 & Hl2 & Hall).
    rewrite Hm in Hl2. cbn [fst] in Hl2. injection Hl2 as <-.
    rewrite <- Hcache in Hall.
    destruct (detectColorSpace_total E color cache) as (report & c2 & Hd).
    assert (Hc2 : c2 = cache') by (rewrite Hd in Hcache; now cbn [snd] in Hcache).
    subst c2.
    assert (Hsettled : detectColorSpace E color cache' = (Ret report, cache')).
    { pose proof (detectColorSpace_again E color cache) as Ha.
      now rewrite Hd in Ha. }
    exists color, report. split; [exact Hd|]. split; [exact Hfmt|].
    destruct (preview_swatch E color report) as [hex|e] eqn:Hs.
    + right. exists hex. split; [reflexivity|].
      eapply Forall2_Forall_r; [|exact Hall].
      intros fmt d Hr. cbv beta in Hr.
      destruct (formatColor_settled E color fmt cache' report Hsettled)
        as [(e & He & _) | (hex' & txt & Hh & Hrec)].
      { rewrite Hs in He. discriminate He. }
      rewrite Hs in Hh. injection Hh as <-.
      rewrite Hrec in Hr. injection Hr as <-.
      cbn [hexValue gamut format warnings fallback]. auto.
    + left. exists e. split; [reflexivity|].
      apply Forall2_map_eq. eapply Forall2_impl; [exact Hall|].
      intros fmt d Hr. cbv beta in Hr.
      destruct (formatColor_settled E color fmt cache' report Hsettled)
        as [(e' & _ & Hrec) | (hex' & txt & Hh & _)].
      * rewrite Hrec in Hr. now injection Hr as <-.
      * rewrite Hs in Hh. discriminate Hh.
Qed.

Lemma convertAll_rows_witness :
  grey_rows = []
  \/ exists color report,
       detectColorSpace Fixture.env color ∅
       = (Ret report, snd (convertAll Fixture.env "#0a0a0a" ∅))
       /\ map format grey_rows = formats
       /\ ((exists e, preview_swatch Fixture.env color report = Throw e
                      /\ grey_rows = map invalid_color formats)
           \/ (exists hex,
                 preview_swatch Fixture.env color report = Ret hex
                 /\ Forall (fun d =>
                              hexValue d = hex
                              /\ gamut d = (if isSRGBFormat (format d) then Ssrgb
                                            else originalSpace report)
                              /\ fallback (warnings d)
                                 = (bool_decide (originalSpace report = Sout)
                                    && isSRGBFormat (format d))) grey_rows)).
Proof.
  apply (convertAll_rows Fixture.env "#0a0a0a" ∅ grey_rows
           (snd (convertAll Fixture.env "#0a0a0a" ∅))).
  vm_compute. reflexivity.
Defined.

(** ** The padding of the decimal texts *)

Lemma length_repeat_char (c : ascii) (n : nat) :
  String.length (repeat_char c n) = n.
Proof. induction n; cbn [repeat_char String.length]; congruence. Qed.

Lemma length_substring (s : string) :
  forall n m, (n + m <= String.length s)%nat ->
              String.length (substring n m s) = m.
Proof.
  induction s as [|c s IH]; intros n m H; cbn [String.length] in H.
  - destruct n, m; cbn [substring String.length]; lia.
  - destruct n as [|n]; destruct m as [|m]; cbn [substring String.length];
      try reflexivity.
    + rewrite IH by lia. reflexivity.
    + apply IH. lia.
    + apply IH. lia.
Qed.

Lemma append_empty (s : string) : s ++ "" = s.
Proof.
  induction s as [|c s IH]; [reflexivity|].
  change (String c s ++ "") with (String c (s ++ "")). now rewrite IH.
Qed.

Lemma length_padStart (n : nat) (c : ascii) (s : string) :
  (n <= String.length (padStart n c s))%nat
  /\ (String.length s <= String.length (padStart n c s))%nat.
Proof.
  unfold padStart. rewrite length_append, length_repeat_char. lia.
Qed.

(** The text of [toFixed] below [1e21]: an optional sign, the integer
    digits, and for [d > 0] the point and [d] digits. *)
Lemma toFixed_parts (d : nat) (q : Q) :
  positional q ->
  let ds := fixed_digits d
              (Z.to_N (Qfloor (Qabs q * inject_Z (10 ^ Z.of_nat d) + Qmake 1 2))) in
  let k := (String.length ds - d)%nat in
  toFixed d #q
  = (if Qltb q 0 then "-" else "")
      ++ substring 0 k ds ++ (if d is O then "" else "." ++ substring k d ds)
  /\ (1 <= k)%nat
  /\ String.length (substring 0 k ds) = k
  /\ String.length (substring k d ds) = d.
Proof.
  intros _. cbv zeta. split; [reflexivity|].
  set (ds := fixed_digits d _).
  assert (Hlen : (S d <= String.length ds)%nat)
    by (subst ds; unfold fixed_digits; apply length_padStart).
  split; [lia|]. split; apply length_substring; lia.
Qed.

(** [padEnd] to [d + 2] characters leaves [x.toFixed(d)] as it is, for
    [x] below [1e21]. *)
Lemma padEnd_toFixed (d : nat) (q : Q) :
  (1 <= d)%nat -> positional q ->
  padEnd (d + 2) "0" (toFixed d #q) = toFixed d #q.
Proof.
  intros Hd Hq. destruct (toFixed_parts d q Hq) as (Ht & Hk & L1 & L2).
  cbv zeta in *. unfold padEnd.
  replace (d + 2 - String.length (toFixed d #q))%nat with O;
    [apply append_empty|].
  rewrite Ht. destruct d as [|d]; [lia|].
  rewrite !length_append, L1, L2.
  change (String.length ".") with 1%nat. lia.
Qed.

Lemma lightness_digits_ok_all :
  forallb lightness_digits_ok (List.seq 0 (Z.to_nat 10001)) = true.
Proof. vm_compute. reflexivity. Qed.

(** [padEnd(5, "0")] on [x.toFixed(2)] for a percentage: a zero is added
    exactly below 9.995. *)
Lemma padEnd_lightness (x : Q) :
  0 <= x <= 100 ->
  padEnd 5 "0" (toFixed 2 #x)
  = toFixed 2 #x ++ (if Qle_bool 9.995 x then "" else "0").
Proof.
  intros Hx.
  assert (Hp : positional x).
  { unfold positional. apply Qabs_Qlt_condition. split; lra. }
  destruct (toFixed_parts 2 x Hp) as (Ht & Hk & L1 & L2).
  cbv zeta in *. change (inject_Z (10 ^ Z.of_nat 2)) with 100 in *.
  set (z := Qfloor (Qabs x * 100 + Qmake 1 2)) in *.
  assert (Habs : Qabs x == x) by (apply Qabs_pos; lra).
  pose proof (Qfloor_le (Qabs x * 100 + Qmake 1 2)) as Hlo.
  pose proof (Qlt_floor (Qabs x * 100 + Qmake 1 2)) as Hhi.
  fold z in Hlo, Hhi. rewrite inject_Z_plus in Hhi.
  change (inject_Z 1) with 1 in Hhi.
  assert (Hz0 : (0 <= z)%Z).
  { assert (0 < inject_Z z + 1) by lra.
    assert (inject_Z (-1) < inject_Z z) by (change (inject_Z (-1)) with (-1); lra).
    rewrite <- Zlt_Qlt in *. lia. }
  assert (Hz1 : (z <= 10000)%Z).
  { assert (inject_Z z < inject_Z 10001)
      by (change (inject_Z 10001) with 10001; lra).
    rewrite <- Zlt_Qlt in *. lia. }
  assert (Hin : In (Z.to_nat z) (List.seq 0 (Z.to_nat 10001)))
    by (apply in_seq; lia).
  pose proof (proj1 (forallb_forall _ _) lightness_digits_ok_all _ Hin) as Hok.
  unfold lightness_digits_ok in Hok.
  replace (N.of_nat (Z.to_nat z)) with (Z.to_N z) in Hok by lia.
  set (ds := fixed_digits 2 (Z.to_N z)) in *.
  assert (Hlen : String.length (toFixed 2 #x)
                 = (String.length ds - 2 + 3)%nat).
  { rewrite Ht.
    assert (Hs : Qltb x 0 = false).
    { unfold Qltb. apply negb_false_iff. apply Qle_bool_iff. lra. }
    rewrite Hs. change ("" ++ ?s) with s.
    rewrite !length_append, L1, L2. change (String.length ".") with 1%nat. lia. }
  unfold padEnd. rewrite Hlen.
  destruct (Qle_bool 9.995 x) eqn:Hc.
  - apply Qle_bool_iff in Hc.
    assert (Hz : (1000 <= z)%Z).
    { assert (inject_Z 1000 < inject_Z z + 1)
        by (change (inject_Z 1000) with 1000; lra).
      assert (inject_Z 999 < inject_Z z)
        by (change (inject_Z 999) with 999;
            change (inject_Z 1000) with 1000 in *; lra).
      rewrite <- Zlt_Qlt in *. lia. }
    destruct (Z.to_nat z <? 1000)%nat eqn:Hb;
      [apply Nat.ltb_lt in Hb; lia|].
    apply Nat.leb_le in Hok.
    replace (5 - (String.length ds - 2 + 3))%nat with O by lia. reflexivity.
  - assert (Hlt : x < 9.995).
    { apply Qnot_le_lt. intros H. apply Qle_bool_iff in H. congruence. }
    assert (Hz : (z < 1000)%Z).
    { assert (inject_Z z < inject_Z 1000)
        by (change (inject_Z 1000) with 1000; lra).
      rewrite <- Zlt_Qlt in *. lia. }
    destruct (Z.to_nat z <? 1000)%nat eqn:Hb;
      [|apply Nat.ltb_ge in Hb; lia].
    apply Nat.eqb_eq in Hok. rewrite Hok. reflexivity.
Qed.

(** X29.  The text of [formatOKLCH] for an OKLCH colour with numeric
    channels, a lightness in [[0, 1]] and a chroma and a hue below 1e21
    in magnitude: the chroma has four decimals and the hue two, and so
    has the lightness in percent from 9.995 on; below 9.995 the padding
    to five characters appends a zero, so that the lightness is printed
    with three decimals (as in [5.300%]). *)
Theorem formatOKLCH_text (E : Env) (color o : Color) (l c h : Q) :
  (mode color = Moklch /\ o = color)
  \/ (mode color <> Moklch /\ oklch E color = Ret (Some o)) ->
  o.["l"] = Some #l -> o.["c"] = Some #c -> o.["h"] = Some #h ->
  0 <= l <= 1 -> positional c -> positional h ->
  formatOKLCH E color
  = Ret ("oklch(" ++ (toFixed 2 #(l * 100)
                        ++ (if Qle_bool 9.995 (l * 100) then "" else "0"))
                  ++ "% " ++ toFixed 4 #c ++ " " ++ toFixed 2 #h ++ ")").
Proof.
  intros Ho Hl Hc Hh Rl Pc _. unfold formatOKLCH.
  assert (Hconv : (if bool_decide (mode color = Moklch) then Ret (Some color)
                   else oklch E color) = Ret (Some o)).
  { destruct Ho as [(Hm & ->) | (Hm & Ho)].
    - now rewrite bool_decide_eq_true_2.
    - now rewrite bool_decide_eq_false_2. }
  rewrite Hconv. cbn [bind]. rewrite Hl, Hc, Hh. cbn [default]. unfold id.
  change (#l * #100)%num with #(l * 100).
  rewrite padEnd_lightness by (split; lra).
  pose proof (padEnd_toFixed 4 c ltac:(lia) Pc) as Hp.
  change (4 + 2)%nat with 6%nat in Hp. rewrite Hp. reflexivity.
Qed.

Lemma formatOKLCH_text_witness :
  formatOKLCH Fixture.env dark_oklch = Ret "oklch(5.300% 0.1000 20.00)".
Proof.
  apply (formatOKLCH_text Fixture.env dark_oklch dark_oklch 0.053 0.1 20);
    try reflexivity.
  - left. split; reflexivity.
  - split; lra.
Defined.

(** X30.  The text of [formatP3] for a colour whose P3 conversion has
    numeric channels below 1e21 in magnitude: each channel is printed by
    [toFixed(4)] as it is (the padding to six characters adds nothing),
    that is an optional sign, at least one integer digit, the point and
    four decimals. *)
Theorem formatP3_text (E : Env) (color c : Color) (r g b : Q) :
  p3 E color = Ret (Some c) ->
  c.["r"] = Some #r -> c.["g"] = Some #g -> c.["b"] = Some #b ->
  positional r -> positional g -> positional b ->
  formatP3 E color
  = Ret ("color(display-p3 " ++ toFixed 4 #r ++ " " ++ toFixed 4 #g ++ " "
                             ++ toFixed 4 #b ++ ")")
  /\ Forall (fun q =>
               exists int frac,
                 toFixed 4 #q
                 = (if Qltb q 0 then "-" else "") ++ int ++ "." ++ frac
                 /\ (1 <= String.length int)%nat
                 /\ String.length frac = 4%nat) [r; g; b].
Proof.
  intros Hc Hr Hg Hb Br Bg Bb. split.
  - unfold formatP3. rewrite Hc. cbn [bind]. rewrite Hr, Hg, Hb.
    cbn [method_of bind].
    pose proof (padEnd_toFixed 4 r ltac:(lia) Br) as Pr.
    pose proof (padEnd_toFixed 4 g ltac:(lia) Bg) as Pg.
    pose proof (padEnd_toFixed 4 b ltac:(lia) Bb) as Pb.
    change (4 + 2)%nat with 6%nat in Pr, Pg, Pb.
    now rewrite Pr, Pg, Pb.
  - assert (H : forall q,
               positional q ->
               exists int frac,
                 toFixed 4 #q
                 = (if Qltb q 0 then "-" else "") ++ int ++ "." ++ frac
                 /\ (1 <= String.length int)%nat
                 /\ String.length frac = 4%nat).
    { intros q Hq. destruct (toFixed_parts 4 q Hq) as (Ht & Hk & L1 & L2).
      cbv zeta in *. eexists _, _. split; [exact Ht|]. split; [|exact L2].
      rewrite L1. exact Hk. }
    repeat constructor; apply H; assumption.
Qed.

Lemma formatP3_text_witness :
  formatP3 Fixture.env (mkColor Mp3 (Some #1) (Some #0.502) (Some #0) None)
  = Ret "color(display-p3 1.0000 0.5020 0.0000)".
Proof.
  apply (formatP3_text Fixture.env
           (mkColor Mp3 (Some #1) (Some #0.502) (Some #0) None)
           (mkColor Mp3 (Some #1) (Some #0.502) (Some #0) None) 1 0.502 0);
    reflexivity.
Defined.
